(** * AGI: concurrent-safe telemetry storage (MetricsDataIO) and the
      profile driver's target selection

    Shallow embedding of [src/AGI/io/MetricsDataIO.py] and of the SLURM
    environment block of [profile] in [src/AGI.py] / [src/AGI/AGI.py].

    Python objects and the operating system are modelled by explicit state
    passing: a method is a function from the coordinator object and the
    world (file system, lock table, SQL call log) to an outcome together
    with the new object and world. *)

From Stdlib Require Import ZArith String Ascii Floats DecimalString DecimalNat.
From stdpp Require Import base gmap strings list fin_maps.

Open Scope Z_scope.

(** ** Python values *)

(** The values a metadata record holds in this program: [True]/[False] and
    message strings. *)
Inductive pyval :=
| PBool (b : bool)
| PStr (s : string).

(** Python truthiness: [False] and the empty string are falsy. *)
Definition truthy (v : pyval) : bool :=
  match v with
  | PBool b => b
  | PStr s => negb (String.eqb s "")
  end.

(** [d.get(key, False)] used as a condition. *)
Definition get_truthy (d : gmap string pyval) (key : string) : bool :=
  match d !! key with
  | Some v => truthy v
  | None => false
  end.

(** A cell of a data frame: an integer or a binary64 float.  The float
    NaN is the missing value of pandas, which SQLite keeps as NULL. *)
Inductive cell :=
| CInt (z : Z)
| CFloat (f : float).

(** [pd.DataFrame]: column name to column values. *)
Abbreviation DataFrame := (gmap string (list cell)).

(** An epoch: the items of the dict [tableName -> tableData], in the order
    [dict.items()] yields them. *)
Abbreviation Epoch := (list (string * DataFrame)).

(** The tables of one SQLite file. *)
Abbreviation Database := (gmap string DataFrame).

(** The metadata record ([self.metadata], and what the sidecar pickles). *)
Abbreviation Metadata := (gmap string pyval).

(** ** The world: files, locks held by other processes, SQL calls *)

(** What a path holds.  A SQLite file with its tables (a zero-length file is
    an empty database for SQLite, so it is [FDb ∅]), or a pickled metadata
    record. *)
Inductive file :=
| FDb (db : Database)
| FPickle (md : Metadata).

(** The state of a lock file as seen by the process that tries to take it:
    another process holds it for [d] more seconds, or never releases it.
    A path absent from the lock table is free. *)
Inductive hold :=
| HeldFor (d : Z)
| HeldForever.

(** Calls made to the SQL layer, recorded in order: the connections
    opened and the tables [to_sql] has written. *)
Inductive event :=
| EvConnect (path : string) (timeout : option Z)
| EvToSql (path : string) (name : string) (df : DataFrame).

Record World := mkWorld {
  fs : gmap string file;
  locks : gmap string hold;
  sql_log : list event
}.

Definition set_fs (f : gmap string file -> gmap string file) (w : World) : World :=
  mkWorld (f (fs w)) (locks w) (sql_log w).

Definition set_locks (f : gmap string hold -> gmap string hold) (w : World) : World :=
  mkWorld (fs w) (f (locks w)) (sql_log w).

Definition log_event (e : event) (w : World) : World :=
  mkWorld (fs w) (locks w) (sql_log w ++ [e]).

(** ** Exceptions and outcomes *)

Inductive exn :=
| Exception (arg : pyval)          (* raise Exception(arg) *)
| KeyError (key : string)          (* os.environ[key], key missing *)
| ValueError (text : string)       (* int(text) on a malformed literal *)
| LockTimeout (lock_file : string) (* filelock.Timeout *)
| DatabaseError (path : string)    (* sqlite3: the statement or the file is refused *)
| OverflowError (path : string)    (* sqlite3: an integer beyond 64 bits *)
| PickleError (path : string)      (* pickle.load on something else *)
| FileNotFoundError (path : string).

(** A call returns, raises, or never returns (it waits for a lock that is
    never released). *)
Inductive outcome (A : Type) :=
| Ok (a : A)
| Raise (e : exn)
| Hang.
Arguments Ok {A} a.
Arguments Raise {A} e.
Arguments Hang {A}.

(** ** The coordinator object *)

(** The fields [__init__] sets.  [lock_depth] is the re-entrancy counter of
    the object's [FileLock]; a read-only object has neither lock nor
    metadata, and never reads them. *)
Record MetricsDataIO := mkIO {
  dbFile : string;
  forceOverwrite : bool;
  timeout : Z;
  readOnly : bool;
  metadata : Metadata;
  lock_depth : nat
}.

Definition lock_file (self : MetricsDataIO) : string := dbFile self +:+ ".lock".
Definition metadataFile (self : MetricsDataIO) : string := dbFile self +:+ ".metadata".

Definition set_metadata (md : Metadata) (self : MetricsDataIO) : MetricsDataIO :=
  mkIO (dbFile self) (forceOverwrite self) (timeout self) (readOnly self) md (lock_depth self).

Definition set_lock_depth (n : nat) (self : MetricsDataIO) : MetricsDataIO :=
  mkIO (dbFile self) (forceOverwrite self) (timeout self) (readOnly self) (metadata self) n.

(** ** Methods as state-passing computations *)

Definition M (A : Type) : Type := MetricsDataIO -> World -> outcome A * MetricsDataIO * World.

Definition ret {A} (a : A) : M A := fun self w => (Ok a, self, w).
Definition raise {A} (e : exn) : M A := fun self w => (Raise e, self, w).
Definition hang {A} : M A := fun self w => (Hang, self, w).

Definition bind {A B} (m : M A) (k : A -> M B) : M B :=
  fun self w =>
    match m self w with
    | (Ok a, self', w') => k a self' w'
    | (Raise e, self', w') => (Raise e, self', w')
    | (Hang, self', w') => (Hang, self', w')
    end.

Declare Scope io_scope.
Delimit Scope io_scope with io.
Notation "x <- c1 ;; c2" := (bind c1 (fun x => c2))
  (at level 100, c1 at next level, right associativity) : io_scope.
Notation "c1 ;; c2" := (bind c1 (fun _ => c2))
  (at level 100, right associativity) : io_scope.
Open Scope io_scope.

Definition get_self : M MetricsDataIO := fun self w => (Ok self, self, w).
Definition get_world : M World := fun self w => (Ok w, self, w).
Definition modify_self (f : MetricsDataIO -> MetricsDataIO) : M unit :=
  fun self w => (Ok tt, f self, w).
Definition modify_world (f : World -> World) : M unit :=
  fun self w => (Ok tt, self, f w).

(** [try: body finally: cleanup], the shape of a [with] block: the cleanup
    runs when the body returns and when it raises; a body that never
    returns never reaches it. *)
Definition finally {A} (body : M A) (cleanup : M unit) : M A :=
  fun self w =>
    match body self w with
    | (Ok a, self', w') =>
        match cleanup self' w' with
        | (Ok _, self'', w'') => (Ok a, self'', w'')
        | (Raise e, self'', w'') => (Raise e, self'', w'')
        | (Hang, self'', w'') => (Hang, self'', w'')
        end
    | (Raise e, self', w') =>
        match cleanup self' w' with
        | (Ok _, self'', w'') => (Raise e, self'', w'')
        | (Raise e', self'', w'') => (Raise e', self'', w'')
        | (Hang, self'', w'') => (Hang, self'', w'')
        end
    | (Hang, self', w') => (Hang, self', w')
    end.

(** A [for] loop over a list. *)
Fixpoint for_each {A} (l : list A) (body : A -> M unit) : M unit :=
  match l with
  | [] => ret tt
  | x :: l' => body x ;; for_each l' body
  end.

(** [enumerate(l)], counting from [i]. *)
Fixpoint enumerate_from {A} (i : nat) (l : list A) : list (nat * A) :=
  match l with
  | [] => []
  | x :: l' => (i, x) :: enumerate_from (S i) l'
  end.

Definition enumerate {A} (l : list A) : list (nat * A) := enumerate_from 0 l.

(** [str(i)] for a non-negative index, as an f-string formats it. *)
Definition str_of_nat (i : nat) : string := NilEmpty.string_of_uint (Nat.to_uint i).

(** ** The libraries the class calls *)

(** [os.path.exists]. *)
Definition path_exists (path : string) : M bool :=
  fun self w => (Ok (bool_decide (is_Some (fs w !! path))), self, w).

(** [os.remove]. *)
Definition os_remove (path : string) : M unit :=
  fun self w =>
    match fs w !! path with
    | Some _ => (Ok tt, self, set_fs (delete path) w)
    | None => (Raise (FileNotFoundError path), self, w)
    end.

(** [filelock.FileLock(path)] is built without a timeout, and
    [self.lock.acquire()] is called without one: the library's default, -1,
    which waits without bound. *)
Definition FileLock_default_timeout : Z := -1.

(** [FileLock.acquire(timeout)] as the library documents it.  The lock is
    re-entrant within the object (a counter).  Taking it opens the lock file,
    creating or truncating it.  When another process holds it, a
    non-negative timeout shorter than the remaining hold raises
    [filelock.Timeout]; a negative timeout waits for as long as it takes. *)
Definition FileLock_acquire (tmo : Z) : M unit :=
  fun self w =>
    match lock_depth self with
    | S n => (Ok tt, set_lock_depth (S (S n)) self, w)
    | O =>
        let w1 := set_fs <[lock_file self := FDb ∅]> w in
        match locks w !! lock_file self with
        | None => (Ok tt, set_lock_depth 1 self, w1)
        | Some (HeldFor d) =>
            if (0 <=? tmo) && (tmo <? d)
            then (Raise (LockTimeout (lock_file self)), self, w1)
            else (Ok tt, set_lock_depth 1 self, set_locks (delete (lock_file self)) w1)
        | Some HeldForever =>
            if 0 <=? tmo
            then (Raise (LockTimeout (lock_file self)), self, w1)
            else (Hang, self, w1)
        end
    end.

(** [FileLock.release()]. *)
Definition FileLock_release : M unit :=
  modify_self (fun self => set_lock_depth (Nat.pred (lock_depth self)) self).

(** [with self.lock.acquire(): body]. *)
Definition with_lock {A} (body : M A) : M A :=
  FileLock_acquire FileLock_default_timeout ;; finally body FileLock_release.

(** [with open(path, 'wb') as f: pickle.dump(md, f)]. *)
Definition pickle_dump (path : string) (md : Metadata) : M unit :=
  modify_world (set_fs <[path := FPickle md]>).

(** [with open(path, 'rb') as f: pickle.load(f)]. *)
Definition pickle_load (path : string) : M Metadata :=
  fun self w =>
    match fs w !! path with
    | Some (FPickle md) => (Ok md, self, w)
    | Some (FDb _) => (Raise (PickleError path), self, w)
    | None => (Raise (FileNotFoundError path), self, w)
    end.

(** [sqlite3.connect(path, timeout=...)]: opens the file, creating an empty
    one when there is none. *)
Definition sqlite3_connect (path : string) (tmo : option Z) : M unit :=
  modify_world (fun w =>
    log_event (EvConnect path tmo)
      (match fs w !! path with
       | Some _ => w
       | None => set_fs <[path := FDb ∅]> w
       end)).

(** SQLite compares the names of tables and of columns without regard to
    the case of ASCII letters. *)
Definition lower (c : ascii) : ascii :=
  let n := nat_of_ascii c in
  if (Nat.leb 65 n && Nat.leb n 90)%bool then ascii_of_nat (n + 32) else c.

Fixpoint fold_case (s : string) : string :=
  match s with
  | EmptyString => EmptyString
  | String c s' => String (lower c) (fold_case s')
  end.

Fixpoint has_char (c : ascii) (s : string) : bool :=
  match s with
  | EmptyString => false
  | String x s' => (Ascii.eqb x c || has_char c s')%bool
  end.

(** A name pandas can quote for SQLite: not empty and without NUL
    (otherwise pandas raises [ValueError] before it touches the file). *)
Definition valid_identifier (s : string) : bool :=
  (negb (String.eqb s "") && negb (has_char "000" s))%bool.

Definition identifiers_valid (name : string) (df : DataFrame) : Prop :=
  valid_identifier name = true
  /\ Forall (fun c => valid_identifier c = true) (elements (dom df)).

#[global] Instance identifiers_valid_dec (name : string) (df : DataFrame) :
  Decision (identifiers_valid name df).
Proof. unfold identifiers_valid. apply _. Defined.

(** Columns SQLite accepts in [CREATE TABLE]: at least one, and no two
    names equal up to case. *)
Definition columns_creatable (df : DataFrame) : Prop :=
  df <> ∅ /\ NoDup (fold_case <$> elements (dom df)).

#[global] Instance columns_creatable_dec (df : DataFrame) : Decision (columns_creatable df).
Proof. unfold columns_creatable. apply _. Defined.

(** Names that begin with [sqlite_], in any case, are reserved:
    [CREATE TABLE] is refused. *)
Definition reserved (name : string) : bool := String.prefix "sqlite_" (fold_case name).

(** Another table of the file has this name up to case: [CREATE TABLE]
    is refused. *)
Definition clashes (name : string) (db : Database) : Prop :=
  Exists (fun k => k <> name /\ fold_case k = fold_case name) (elements (dom db)).

#[global] Instance clashes_dec (name : string) (db : Database) : Decision (clashes name db).
Proof. unfold clashes. apply _. Defined.

(** A value SQLite stores: an integer of 64 bits, or a float. *)
Definition in_int64 (c : cell) : Prop :=
  match c with
  | CInt z => - 2 ^ 63 <= z < 2 ^ 63
  | CFloat _ => True
  end.

#[global] Instance in_int64_dec (c : cell) : Decision (in_int64 c).
Proof. destruct c; simpl; apply _. Defined.

Definition insertable (df : DataFrame) : Prop :=
  map_Forall (fun _ col => Forall in_int64 col) df.

#[global] Instance insertable_dec (df : DataFrame) : Decision (insertable df).
Proof. unfold insertable. apply _. Defined.

(** [df.to_sql(name, conn, if_exists='replace', index=False)].  pandas
    first builds the [CREATE TABLE] statement, quoting the names
    ([ValueError] for a name it cannot quote); then, if a table of exactly
    that name exists, drops it; then creates the table (refused by SQLite
    for a frame without columns, for two columns equal up to case, for a
    reserved name, and when another table has that name up to case); then
    inserts the rows (an integer beyond 64 bits is refused, and the rows
    are rolled back).  The drop and the creation are committed when they
    are made.  When all succeed the table [name] holds exactly the rows of
    [df].  Limits of the SQLite build (number of columns, length of a
    statement) are not modelled. *)
Definition to_sql (path name : string) (df : DataFrame) : M unit :=
  fun self w =>
    if negb (bool_decide (identifiers_valid name df))
    then (Raise (ValueError name), self, w)
    else
      match fs w !! path with
      | Some (FPickle _) => (Raise (DatabaseError path), self, w)
      | other =>
          let db := match other with Some (FDb db) => db | _ => ∅ end in
          if negb (bool_decide (columns_creatable df)) || bool_decide (clashes name db)
             || reserved name
          then (Raise (DatabaseError path), self, set_fs <[path := FDb (delete name db)]> w)
          else if negb (bool_decide (insertable df))
          then (Raise (OverflowError path), self,
                set_fs <[path := FDb (<[name := (fun _ : list cell => []) <$> df]> db)]> w)
          else (Ok tt, self,
                log_event (EvToSql path name df)
                  (set_fs <[path := FDb (<[name := df]> db)]> w))
      end.

(** [pd.read_sql_query("SELECT name FROM sqlite_master WHERE type='table'", conn)['name']]. *)
Definition table_names (path : string) : M (list string) :=
  fun self w =>
    match fs w !! path with
    | Some (FDb db) => (Ok (map fst (map_to_list db)), self, w)
    | Some (FPickle _) => (Raise (DatabaseError path), self, w)
    | None => (Ok [], self, w)
    end.

(** [pd.read_sql_query(f'SELECT * FROM "{table}"', conn)] for a table name
    listed by [sqlite_master].  The statement wraps the name in double
    quotes without escaping it.  For a name free of that character it
    reads that table.  A name that holds one ends the quoted name early,
    so the statement is not the read of that table any more; the model
    raises the database's error for it, which is what SQLite answers to
    the malformed statement, and every property of [load] below is stated
    for databases whose table names hold no double quote. *)
Definition read_table (path table : string) : M DataFrame :=
  fun self w =>
    match fs w !! path with
    | Some (FDb db) =>
        if has_char "034" table then (Raise (DatabaseError path), self, w)
        else
          match db !! table with
          | Some df => (Ok df, self, w)
          | None => (Raise (DatabaseError path), self, w)
          end
    | _ => (Raise (DatabaseError path), self, w)
    end.

(** [int64 -> float64], rounding to nearest even as [astype(float)] does. *)
Definition Z_to_float (z : Z) : float := SF2Prim (binary_normalize prec emax z 0 false).

Definition astype_float (c : cell) : float :=
  match c with
  | CInt z => Z_to_float z
  | CFloat f => f
  end.

(** [pd.DataFrame(tableData)] for column data: columns of different
    lengths raise [ValueError]; a column that holds a float is a float
    column, its integers converted, unless its integers do not fit an
    array of 64-bit integers, when the values are kept as they are. *)
Definition rectangular (df : DataFrame) : Prop :=
  map_Forall (fun _ c1 => map_Forall (fun _ c2 => length c1 = length c2) df) df.

#[global] Instance rectangular_dec (df : DataFrame) : Decision (rectangular df).
Proof. unfold rectangular. apply _. Defined.

Definition is_float (c : cell) : bool :=
  match c with
  | CFloat _ => true
  | CInt _ => false
  end.

Definition fits_int_array (col : list cell) : bool :=
  (forallb (fun c => match c with
                     | CInt z => (- 2 ^ 63 <=? z) && (z <? 2 ^ 64)
                     | CFloat _ => true
                     end) col
   && negb (existsb (fun c => match c with CInt z => 2 ^ 63 <=? z | CFloat _ => false end) col
            && existsb (fun c => match c with CInt z => z <? 0 | CFloat _ => false end) col))%bool.

Definition upcast (col : list cell) : list cell :=
  if (existsb is_float col && fits_int_array col)%bool
  then map (fun c => CFloat (astype_float c)) col
  else col.

Definition pd_DataFrame (tableData : DataFrame) : M DataFrame :=
  if bool_decide (rectangular tableData)
  then ret (upcast <$> tableData)
  else raise (ValueError "All arrays must be of the same length").

(** ** class MetricsDataIO *)

(** The decorator [checkReadOnly]. *)
Definition checkReadOnly {A} (func : M A) : M A :=
  self <- get_self ;;
  if readOnly self
  then raise (Exception (PStr "MetricsDataIO initialized in read-only mode!"))
  else func.

(** The body of the loop of [dumpEpoch] up to the write: the column
    [DEV_GPU_UTIL], when the frame has it, becomes
    [df['DEV_GPU_UTIL'].astype(float) / 100.0]. *)
Definition rescale (c : cell) : cell := CFloat (astype_float c / 100)%float.

Definition convert_gpu_util (df : DataFrame) : DataFrame :=
  match df !! "DEV_GPU_UTIL" with
  | Some col => <["DEV_GPU_UTIL" := map rescale col]> df
  | None => df
  end.

Definition dumpEpoch (data : Epoch) (epoch : string) : M unit :=
  self <- get_self ;;
  sqlite3_connect (dbFile self) (Some (timeout self)) ;;
  for_each data (fun '(tableName, tableData) =>
    df <- pd_DataFrame tableData ;;
    let df := convert_gpu_util df in
    to_sql (dbFile self) (tableName +:+ epoch) df).

Definition dump (data : list Epoch) : M unit :=
  checkReadOnly
    (match data with
     | [] => ret tt
     | [epoch] => dumpEpoch epoch ""
     | _ => for_each (enumerate data) (fun '(i, epoch) =>
              dumpEpoch epoch ("_epoch:" +:+ str_of_nat i))
     end).

(** The loop of [load] that fills [dfs]. *)
Fixpoint load_tables (path : string) (tables : list string) (dfs : gmap string DataFrame)
  : M (gmap string DataFrame) :=
  match tables with
  | [] => ret dfs
  | table :: rest =>
      df <- read_table path table ;;
      load_tables path rest (<[table := df]> dfs)
  end.

Definition load : M (gmap string DataFrame) :=
  self <- get_self ;;
  present <- path_exists (dbFile self) ;;
  if negb present
  then raise (Exception (PStr ("Database file " +:+ dbFile self +:+ " does not exist!")))
  else
    sqlite3_connect (dbFile self) None ;;
    tables <- table_names (dbFile self) ;;
    load_tables (dbFile self) tables ∅.

Definition dumpMetadata : M unit :=
  checkReadOnly
    (with_lock
       (self <- get_self ;;
        pickle_dump (metadataFile self) (metadata self))).

Definition loadMetadata : M unit :=
  checkReadOnly
    (self <- get_self ;;
     present <- path_exists (metadataFile self) ;;
     (if negb present then dumpMetadata else ret tt) ;;
     md <- pickle_load (metadataFile self) ;;
     modify_self (set_metadata md)).

(** The message of line 123. *)
Definition conflict_message (path : string) : string :=
  "Output file " +:+ path +:+ " already exists! Please specify a different output file or set -f flag.".

(** [raise Exception(self.metadata['dbError'])]. *)
Definition raise_stored_error {A} : M A :=
  self <- get_self ;;
  match metadata self !! "dbError" with
  | Some v => raise (Exception v)
  | None => raise (KeyError "dbError")
  end.

Definition checkOutfileExists : M unit :=
  self <- get_self ;;
  if readOnly self then ret tt
  else
    with_lock
      (loadMetadata ;;
       self <- get_self ;;
       if get_truthy (metadata self) "dbError" then raise_stored_error
       else if negb (get_truthy (metadata self) "dbExists") then
         present <- path_exists (dbFile self) ;;
         if present then
           if negb (forceOverwrite self) then
             let exception := conflict_message (dbFile self) in
             modify_self (fun self => set_metadata (<["dbError" := PStr exception]> (metadata self)) self) ;;
             dumpMetadata ;;
             raise (Exception (PStr exception))
           else
             os_remove (dbFile self) ;;
             modify_self (fun self => set_metadata (<["dbExists" := PBool true]> (metadata self)) self) ;;
             dumpMetadata
         else ret tt
       else ret tt).

(** [MetricsDataIO(dbFile, forceOverwrite, readOnly, timeout)]: the object
    when the constructor returns, the exception when it raises. *)
Definition MetricsDataIO_init (dbFile : string) (forceOverwrite readOnly : bool) (timeout : Z)
  (w : World) : outcome MetricsDataIO * World :=
  let self := mkIO dbFile forceOverwrite timeout readOnly ∅ 0 in
  match checkOutfileExists self w with
  | (Ok _, self', w') => (Ok self', w')
  | (Raise e, _, w') => (Raise e, w')
  | (Hang, _, w') => (Hang, w')
  end.

(** Calling a method on an object: the outcome and the world after it. *)
Definition call {A} (m : M A) (self : MetricsDataIO) (w : World) : outcome A * World :=
  let '(r, _, w') := m self w in (r, w').

(** ** The SLURM block of [profile] *)

Definition is_space (c : ascii) : bool :=
  let n := nat_of_ascii c in
  (Nat.eqb n 32 || (Nat.leb 9 n && Nat.leb n 13) || (Nat.leb 28 n && Nat.leb n 31)
   || Nat.eqb n 133 || Nat.eqb n 160)%bool.

Fixpoint lstrip (l : list ascii) : list ascii :=
  match l with
  | c :: l' => if is_space c then lstrip l' else l
  | [] => []
  end.

(** [str.strip()]. *)
Definition strip (l : list ascii) : list ascii := rev (lstrip (rev (lstrip l))).

(** [str.split(',')] on the characters of a string; [cur] is the field
    being read, reversed. *)
Fixpoint split_comma (cur : list ascii) (l : list ascii) : list (list ascii) :=
  match l with
  | [] => [rev cur]
  | c :: l' =>
      if Ascii.eqb c "," then rev cur :: split_comma [] l'
      else split_comma (c :: cur) l'
  end.

Definition digit_of (c : ascii) : option Z :=
  let n := nat_of_ascii c in
  if (Nat.leb 48 n && Nat.leb n 57)%bool then Some (Z.of_nat n - 48) else None.

(** The digits of a decimal literal; single underscores may separate
    digits.  [after_digit] says whether the last character read was a
    digit. *)
Fixpoint digits_value (acc : Z) (after_digit : bool) (l : list ascii) : option Z :=
  match l with
  | [] => if after_digit then Some acc else None
  | c :: l' =>
      match digit_of c with
      | Some d => digits_value (10 * acc + d) true l'
      | None =>
          if (Ascii.eqb c "_" && after_digit)%bool then digits_value acc false l'
          else None
      end
  end.

(** The white space [int()] skips around a literal: the ASCII white space
    of C, and the two other spaces below 256 (NEL and the no-break space);
    not the separators 0x1c-0x1f that [str.strip()] removes. *)
Definition is_int_space (c : ascii) : bool :=
  let n := nat_of_ascii c in
  (Nat.eqb n 32 || (Nat.leb 9 n && Nat.leb n 13) || Nat.eqb n 133 || Nat.eqb n 160)%bool.

Fixpoint int_lstrip (l : list ascii) : list ascii :=
  match l with
  | c :: l' => if is_int_space c then int_lstrip l' else l
  | [] => []
  end.

Definition int_strip (l : list ascii) : list ascii :=
  rev (int_lstrip (rev (int_lstrip l))).

(** [int(text)] in base 10: surrounding white space, an optional sign, then
    digits; [None] where Python raises [ValueError].  The limit some
    interpreters put on the number of digits ([sys.set_int_max_str_digits])
    is an option of the interpreter and is not modelled. *)
Definition py_int (text : list ascii) : option Z :=
  match int_strip text with
  | c :: l' =>
      if Ascii.eqb c "-" then Z.opp <$> digits_value 0 false l'
      else if Ascii.eqb c "+" then digits_value 0 false l'
      else digits_value 0 false (c :: l')
  | [] => None
  end.

(** Results of code that has no object or world to thread. *)
Definition environ_get (environ : gmap string string) (key : string) : outcome string :=
  match environ !! key with
  | Some v => Ok v
  | None => Raise (KeyError key)
  end.

Definition int_of (text : list ascii) : outcome Z :=
  match py_int text with
  | Some z => Ok z
  | None => Raise (ValueError (string_of_list_ascii text))
  end.

(** [[int(gpu) for gpu in fields]]. *)
Fixpoint ints_of (fields : list (list ascii)) : outcome (list Z) :=
  match fields with
  | [] => Ok []
  | f :: rest =>
      match int_of f with
      | Ok z =>
          match ints_of rest with
          | Ok zs => Ok (z :: zs)
          | Raise e => Raise e
          | Hang => Hang
          end
      | Raise e => Raise e
      | Hang => Hang
      end
  end.

(** The [try] block: job id and the GPUs SLURM lists for the step. *)
Definition slurm_step_gpus (environ : gmap string string) : outcome (string * list Z) :=
  match environ_get environ "SLURM_JOB_ID" with
  | Ok jobId =>
      match environ_get environ "SLURM_STEP_GPUS" with
      | Ok gpus =>
          match ints_of (split_comma [] (strip (list_ascii_of_string gpus))) with
          | Ok gpuIds => Ok (jobId, gpuIds)
          | Raise e => Raise e
          | Hang => Hang
          end
      | Raise e => Raise e
      | Hang => Hang
      end
  | Raise e => Raise e
  | Hang => Hang
  end.

(** The [except KeyError] handler: SLURM_PROCID mod 4. *)
Definition slurm_procid_fallback (environ : gmap string string) : outcome (string * list Z) :=
  match environ_get environ "SLURM_JOB_ID" with
  | Ok jobId =>
      match environ_get environ "SLURM_PROCID" with
      | Ok text =>
          match int_of (list_ascii_of_string text) with
          | Ok procId => Ok (jobId, [procId mod 4])
          | Raise e => Raise e
          | Hang => Hang
          end
      | Raise e => Raise e
      | Hang => Hang
      end
  | Raise e => Raise e
  | Hang => Hang
  end.

(** Lines 16-28 of [profile] ([AGI.profile], lines 19-31): the job id and
    the GPU ids handed to the profiler. *)
Definition profile_gpuIds (environ : gmap string string) : outcome (string * list Z) :=
  match slurm_step_gpus environ with
  | Raise (KeyError _) => slurm_procid_fallback environ
  | r => r
  end.

(** ** Vocabulary of the statements *)

(** The world once the lock file [lf] has been opened and the lock taken:
    the file exists and no other process holds the lock any more. *)
Definition acquired (lf : string) (w : World) : World :=
  set_locks (delete lf) (set_fs <[lf := FDb ∅]> w).

(** A lock the constructor can get: free, or released after a finite hold. *)
Definition releasable (lf : string) (w : World) : Prop :=
  locks w !! lf <> Some HeldForever.

(** The tables of the database at a path; none when there is no file. *)
Definition db_at (path : string) (w : World) : Database :=
  match fs w !! path with
  | Some (FDb db) => db
  | _ => ∅
  end.

(** A path a SQLite connection can write to: no file yet, or a database. *)
Definition writable (path : string) (w : World) : Prop :=
  match fs w !! path with
  | Some (FPickle _) => False
  | _ => True
  end.

(** The table names of the [to_sql] calls of a log, in order. *)
Definition to_sql_names (log : list event) : list string :=
  omap (fun e => match e with EvToSql _ name _ => Some name | EvConnect _ _ => None end) log.

(** The writes the specification asks of one epoch under a suffix, and
    their effect on a database: each write replaces the table of that
    name. *)
Definition epoch_writes (suffix : string) (e : Epoch) : list (string * DataFrame) :=
  map (fun '(name, df) => (name +:+ suffix, convert_gpu_util df)) e.

Definition apply_writes (ws : list (string * DataFrame)) (db : Database) : Database :=
  foldl (fun db '(name, df) => <[name := df]> db) db ws.

Definition epoch_events (path : string) (tmo : Z) (suffix : string) (e : Epoch) : list event :=
  EvConnect path (Some tmo) :: map (fun '(name, df) => EvToSql path name df) (epoch_writes suffix e).

(** The writes of a [dump] of several epochs, epoch [i] first. *)
Fixpoint suffixed_writes (i : nat) (data : list Epoch) : list (string * DataFrame) :=
  match data with
  | [] => []
  | e :: rest => epoch_writes ("_epoch:" +:+ str_of_nat i) e ++ suffixed_writes (S i) rest
  end.

Fixpoint suffixed_events (path : string) (tmo : Z) (i : nat) (data : list Epoch) : list event :=
  match data with
  | [] => []
  | e :: rest =>
      epoch_events path tmo ("_epoch:" +:+ str_of_nat i) e ++ suffixed_events path tmo (S i) rest
  end.

Definition dump_writes (data : list Epoch) : list (string * DataFrame) :=
  match data with
  | [] => []
  | [e] => epoch_writes "" e
  | _ => suffixed_writes 0 data
  end.

Definition dump_events (path : string) (tmo : Z) (data : list Epoch) : list event :=
  match data with
  | [] => []
  | [e] => epoch_events path tmo "" e
  | _ => suffixed_events path tmo 0 data
  end.

(** ** Sample inputs *)

Definition sample_frame : DataFrame :=
  <["DEV_GPU_UTIL" := [CInt 100; CInt 0; CInt 37]]> (<["timestamp" := [CInt 5; CInt 6; CInt 7]]> ∅).

Definition sample_epoch : Epoch := [("gpu", sample_frame)].

Definition sample_writer : MetricsDataIO := mkIO "out.sqlite" false 900 false ∅ 0.

Definition sample_reader : MetricsDataIO := mkIO "out.sqlite" false 900 true ∅ 0.

Definition empty_world : World := mkWorld ∅ ∅ [].

(** The record [loadMetadata] leaves in memory when a fresh writer calls it:
    the pickled record, or the empty one it has just created. *)
Definition loaded_metadata (path : string) (w : World) : option Metadata :=
  match fs w !! (path +:+ ".metadata") with
  | None => Some ∅
  | Some (FPickle md) => Some md
  | Some (FDb _) => None
  end.

(** The world after a fresh writer's [loadMetadata], lock taken. *)
Definition metadata_loaded (path : string) (md : Metadata) (w : World) : World :=
  set_fs <[path +:+ ".metadata" := FPickle md]> (acquired (path +:+ ".lock") w).

Definition two_epoch_db : Database :=
  <["gpu_epoch:0" := sample_frame]> (<["gpu_epoch:1" := {["timestamp" := [CInt 8]]}]> ∅).

Definition stored_world : World := mkWorld (<["out.sqlite" := FDb two_epoch_db]> ∅) ∅ [].

(** A world in which another process holds the lock of ["out.sqlite"] and
    never releases it. *)
Definition held_world : World := mkWorld ∅ {["out.sqlite.lock" := HeldForever]} [].

(** A world in which the output file is there before any writer starts. *)
Definition preexisting_world : World := mkWorld {["out.sqlite" := FDb ∅]} ∅ [].

(** A computation that never fails with [filelock.Timeout]. *)
Definition no_lock_timeout {A} (m : M A) : Prop :=
  forall self w lf, fst (fst (m self w)) <> Raise (LockTimeout lf).

(** An environment with a rank index and nothing else from SLURM. *)
Definition rank_only_environ : gmap string string := {["SLURM_PROCID" := "5"]}.

(** An environment of a SLURM step started without per-task GPUs. *)
Definition fallback_environ : gmap string string :=
  <["SLURM_JOB_ID" := "4242"]> {["SLURM_PROCID" := "6"]}.

(** What [checkReadOnly] raises. *)
Definition read_only_error : exn :=
  Exception (PStr "MetricsDataIO initialized in read-only mode!").


(** ** More of [profile] *)

(** Lines 30-32 of [profile] ([AGI.profile], lines 33-35): the output file
    is the one given, and [AGI_<jobId>.sqlite] when none is given. *)
Definition output_file (arg : option string) (jobId : string) : string :=
  match arg with
  | Some f => f
  | None => "AGI_" +:+ jobId +:+ ".sqlite"
  end.

(** [open(args.script)] reads in text mode with universal newlines: a
    carriage return, alone or followed by a line feed, is read as one line
    feed.  [after_cr] says whether the last character read was a carriage
    return. *)
Fixpoint universal_newlines (after_cr : bool) (l : list ascii) : list ascii :=
  match l with
  | [] => []
  | c :: l' =>
      if Ascii.eqb c "013" then "010"%char :: universal_newlines true l'
      else if Ascii.eqb c "010" then
        if after_cr then universal_newlines false l'
        else "010"%char :: universal_newlines false l'
      else c :: universal_newlines false l'
  end.

(** [str.split('\n')] on the characters read; [cur] is the line being
    read, reversed. *)
Fixpoint split_lines (cur : list ascii) (l : list ascii) : list (list ascii) :=
  match l with
  | [] => [rev cur]
  | c :: l' =>
      if Ascii.eqb c "010" then rev cur :: split_lines [] l'
      else split_lines (c :: cur) l'
  end.

(** Whether the text read so far ends in a carriage return. *)
Definition ends_in_cr (after_cr : bool) (l : list ascii) : bool :=
  match last l with
  | Some c => Ascii.eqb c "013"
  | None => after_cr
  end.

(** [cmd and not cmd.startswith('#')]. *)
Definition runnable (cmd : list ascii) : bool :=
  match cmd with
  | [] => false
  | c :: _ => negb (Ascii.eqb c "#")
  end.

(** Lines 46-51 of [profile]: the commands of a script file that are
    handed to [profiler.run], in order. *)
Definition script_commands (file : list ascii) : list (list ascii) :=
  List.filter runnable (split_lines [] (universal_newlines false file)).

(** ** More vocabulary *)

(** A computation that, when it returns or raises, leaves the re-entrancy
    counter of the lock as it found it: what it took it has released. *)
Definition keeps_lock_depth {A} (m : M A) : Prop :=
  forall self w,
    fst (fst (m self w)) <> Hang ->
    lock_depth (snd (fst (m self w))) = lock_depth self.

(** The world after [n] writers in a row have been built on a path. *)
Fixpoint after_writers (n : nat) (p : string) (fo : bool) (tmo : Z) (w : World) : World :=
  match n with
  | O => w
  | S n' => snd (MetricsDataIO_init p fo false tmo (after_writers n' p fo tmo w))
  end.

(** An epoch as a Python dict gives it: no table name twice. *)
Definition unique_tables (e : Epoch) : Prop := NoDup (map fst e).

(** A world in which a first writer has claimed the path and dumped. *)
Definition claimed_world : World :=
  mkWorld (<["out.sqlite" := FDb {["gpu" := sample_frame]}]>
             {["out.sqlite.metadata" := FPickle {["dbExists" := PBool true]}]}) ∅ [].

(** A world in which a conflict was recorded and the output file then
    removed by hand. *)
Definition rejected_world : World :=
  mkWorld {["out.sqlite.metadata" := FPickle {["dbError" := PStr (conflict_message "out.sqlite")]}]}
    ∅ [].

(** A world in which the output exists and the lock is never released. *)
Definition stored_held_world : World :=
  mkWorld (<["out.sqlite" := FDb two_epoch_db]> ∅) {["out.sqlite.lock" := HeldForever]} [].

(** The ways a writer's constructor can end, by what it finds. *)
Inductive init_ending (p : string) (fo : bool) (tmo : Z) (w : World)
  : outcome MetricsDataIO -> World -> Prop :=
| EndBlocked :
    locks w !! (p +:+ ".lock") = Some HeldForever ->
    init_ending p fo tmo w Hang (set_fs <[p +:+ ".lock" := FDb ∅]> w)
| EndForeignSidecar db :
    releasable (p +:+ ".lock") w ->
    fs w !! (p +:+ ".metadata") = Some (FDb db) ->
    init_ending p fo tmo w (Raise (PickleError (p +:+ ".metadata"))) (acquired (p +:+ ".lock") w)
| EndRecordedError md0 v :
    releasable (p +:+ ".lock") w ->
    loaded_metadata p w = Some md0 ->
    md0 !! "dbError" = Some v -> truthy v = true ->
    init_ending p fo tmo w (Raise (Exception v)) (metadata_loaded p md0 w)
| EndClaimed md0 :
    releasable (p +:+ ".lock") w ->
    loaded_metadata p w = Some md0 ->
    get_truthy md0 "dbError" = false -> get_truthy md0 "dbExists" = true ->
    init_ending p fo tmo w (Ok (mkIO p fo tmo false md0 0)) (metadata_loaded p md0 w)
| EndAbsent md0 :
    releasable (p +:+ ".lock") w ->
    loaded_metadata p w = Some md0 ->
    get_truthy md0 "dbError" = false -> get_truthy md0 "dbExists" = false ->
    fs w !! p = None ->
    init_ending p fo tmo w (Ok (mkIO p fo tmo false md0 0)) (metadata_loaded p md0 w)
| EndConflict md0 :
    releasable (p +:+ ".lock") w ->
    loaded_metadata p w = Some md0 ->
    get_truthy md0 "dbError" = false -> get_truthy md0 "dbExists" = false ->
    is_Some (fs w !! p) -> fo = false ->
    init_ending p fo tmo w (Raise (Exception (PStr (conflict_message p))))
      (metadata_loaded p (<["dbError" := PStr (conflict_message p)]> md0) w)
| EndOverwrite md0 :
    releasable (p +:+ ".lock") w ->
    loaded_metadata p w = Some md0 ->
    get_truthy md0 "dbError" = false -> get_truthy md0 "dbExists" = false ->
    is_Some (fs w !! p) -> fo = true ->
    init_ending p fo tmo w (Ok (mkIO p fo tmo false (<["dbExists" := PBool true]> md0) 0))
      (set_fs <[p +:+ ".metadata" := FPickle (<["dbExists" := PBool true]> md0)]>
         (set_fs (delete p) (metadata_loaded p md0 w))).

(** ** Frames and names a dump can store *)

(** A column of one kind: all integers or all floats. *)
Definition homogeneous (col : list cell) : Prop :=
  existsb is_float col = true -> forallb is_float col = true.

#[global] Instance homogeneous_dec (col : list cell) : Decision (homogeneous col).
Proof. unfold homogeneous. apply _. Defined.

(** A frame that [pd.DataFrame] takes as it is and [to_sql] can store:
    columns of one length and one kind each, at least one column, column
    names that can be quoted and differ by more than case, integers of 64
    bits. *)
Definition storable (df : DataFrame) : Prop :=
  rectangular df
  /\ map_Forall (fun _ col => homogeneous col) df
  /\ columns_creatable df
  /\ Forall (fun c => valid_identifier c = true) (elements (dom df))
  /\ insertable df.

#[global] Instance storable_dec (df : DataFrame) : Decision (storable df).
Proof. unfold storable. apply _. Defined.

Definition frames_storable (e : Epoch) : Prop := Forall (fun t => storable t.2) e.

#[global] Instance frames_storable_dec (e : Epoch) : Decision (frames_storable e).
Proof. unfold frames_storable. apply _. Defined.

(** Table names that can be written into a database: each can be quoted
    and is not reserved, and among them and the tables already there no
    two differ only by case. *)
Definition names_ok (db : Database) (names : list string) : Prop :=
  Forall (fun n => valid_identifier n = true /\ reserved n = false) names
  /\ Forall (fun a =>
        Forall (fun b => fold_case a = fold_case b -> a = b) (elements (dom db) ++ names))
       (elements (dom db) ++ names).

#[global] Instance names_ok_dec (db : Database) (names : list string) :
  Decision (names_ok db names).
Proof. unfold names_ok. apply _. Defined.

(** Epochs a [dump] into a database can store. *)
Definition dumpable (db : Database) (data : list Epoch) : Prop :=
  Forall frames_storable data /\ names_ok db (map fst (dump_writes data)).

#[global] Instance dumpable_dec (db : Database) (data : list Epoch) :
  Decision (dumpable db data).
Proof. unfold dumpable. apply _. Defined.

(** Table names of an epoch that can share a database with those of other
    epochs: without NUL, not reserved once the suffix of an epoch is put
    after them, and no two of them equal up to the case of letters. *)
Definition epoch_names_ok (e : Epoch) : Prop :=
  Forall (fun t => has_char "000" t.1 = false /\ reserved (t.1 +:+ "_epoch:") = false) e
  /\ NoDup (fold_case <$> map fst e).

#[global] Instance epoch_names_ok_dec (e : Epoch) : Decision (epoch_names_ok e).
Proof. unfold epoch_names_ok. apply _. Defined.

(** Epochs whose table names hold no double quote. *)
Definition names_quote_free (data : list Epoch) : Prop :=
  Forall (fun e : Epoch => Forall (fun t => has_char "034" t.1 = false) e) data.

#[global] Instance names_quote_free_dec (data : list Epoch) : Decision (names_quote_free data).
Proof. unfold names_quote_free. apply _. Defined.

(** A database whose table names hold no double quote. *)
Definition quote_free (db : Database) : Prop :=
  Forall (fun k => has_char "034" k = false) (elements (dom db)).

#[global] Instance quote_free_dec (db : Database) : Decision (quote_free db).
Proof. unfold quote_free. apply _. Defined.

(** A computation that leaves the object, the locks and every file but
    [path] as they are, however it ends. *)
Definition touches_only {A} (path : string) (m : M A) : Prop :=
  forall self w,
    snd (fst (m self w)) = self
    /\ locks (snd (m self w)) = locks w
    /\ forall k, k <> path -> fs (snd (m self w)) !! k = fs w !! k.

(** The same for a method, whose path is the output file of its object. *)
Definition touches_own_file {A} (m : M A) : Prop :=
  forall self w,
    snd (fst (m self w)) = self
    /\ locks (snd (m self w)) = locks w
    /\ forall k, k <> dbFile self -> fs (snd (m self w)) !! k = fs w !! k.

(** ** Evaluating the model on small inputs *)

Example py_int_plain : py_int (list_ascii_of_string " 12 ") = Some 12.
Proof. reflexivity. Qed.

Example py_int_signed : py_int (list_ascii_of_string "-7") = Some (-7).
Proof. reflexivity. Qed.

Example py_int_underscore : py_int (list_ascii_of_string "1_000") = Some 1000.
Proof. reflexivity. Qed.

Example py_int_bad : py_int (list_ascii_of_string "1__0") = None /\ py_int (list_ascii_of_string "") = None.
Proof. split; reflexivity. Qed.

Example profile_listed :
  profile_gpuIds (<["SLURM_JOB_ID" := "77"]> (<["SLURM_STEP_GPUS" := "2,3"]> ∅))
  = Ok ("77", [2; 3]).
Proof. vm_compute. reflexivity. Qed.

Example profile_fallback :
  profile_gpuIds (<["SLURM_JOB_ID" := "77"]> (<["SLURM_PROCID" := "6"]> ∅))
  = Ok ("77", [2]).
Proof. vm_compute. reflexivity. Qed.

Example init_fresh :
  fst (MetricsDataIO_init "out.sqlite" false false 900 empty_world)
  = Ok (mkIO "out.sqlite" false 900 false ∅ 0).
Proof. vm_compute. reflexivity. Qed.

Example init_preexisting :
  fst (MetricsDataIO_init "out.sqlite" false false 900 preexisting_world)
  = Raise (Exception (PStr
      "Output file out.sqlite already exists! Please specify a different output file or set -f flag.")).
Proof. vm_compute. reflexivity. Qed.

Example init_overwriting :
  let '(r, w) := MetricsDataIO_init "out.sqlite" true false 900 preexisting_world in
  r = Ok (mkIO "out.sqlite" true 900 false {["dbExists" := PBool true]} 0)
  /\ fs w !! "out.sqlite" = None
  /\ fs w !! "out.sqlite.metadata" = Some (FPickle {["dbExists" := PBool true]}).
Proof. vm_compute. repeat split; reflexivity. Qed.

Example init_read_only :
  MetricsDataIO_init "out.sqlite" false true 900 empty_world = (Ok sample_reader, empty_world).
Proof. reflexivity. Qed.

Example rescale_sample :
  convert_gpu_util sample_frame !! "DEV_GPU_UTIL" = Some [CFloat 1; CFloat 0; CFloat 0x1.7ae147ae147aep-2].
Proof. vm_compute. reflexivity. Qed.

Example suffix_names : map str_of_nat [0; 1; 2; 10]%nat = ["0"; "1"; "2"; "10"].
Proof. reflexivity. Qed.

(** [str.strip()] removes the separator 0x1c, [int()] does not skip it. *)
Example py_int_separator :
  strip ["028"%char; "5"%char] = ["5"%char]
  /\ py_int ["028"%char; "5"%char] = None
  /\ profile_gpuIds (<["SLURM_JOB_ID" := "77"]>
                       (<["SLURM_STEP_GPUS" := String "1" (String "," (String "028" "2"))]> ∅))
     = Raise (ValueError (String "028" "2")).
Proof. vm_compute. repeat split; reflexivity. Qed.

(** A script with the line ends of three systems. *)
Example script_line_ends :
  script_commands
    (list_ascii_of_string
       ("ls" +:+ String "013" (String "010" ("# note" +:+ String "013" ("pwd" +:+ String "010" "")))))
  = [list_ascii_of_string "ls"; list_ascii_of_string "pwd"].
Proof. vm_compute. reflexivity. Qed.

Example dump_ragged :
  dump [[("gpu", <["a" := [CInt 1]]> (<["b" := []]> ∅))]] sample_writer empty_world
  = (Raise (ValueError "All arrays must be of the same length"), sample_writer,
     mkWorld {["out.sqlite" := FDb ∅]} ∅ [EvConnect "out.sqlite" (Some 900)]).
Proof. vm_compute. reflexivity. Qed.

Example dump_names_equal_up_to_case :
  let '(r, _, w) := dump [[("gpu", sample_frame); ("GPU", sample_frame)]]
                      sample_writer empty_world in
  r = Raise (DatabaseError "out.sqlite")
  /\ db_at "out.sqlite" w = {["gpu" := convert_gpu_util sample_frame]}.
Proof. vm_compute. split; reflexivity. Qed.

Example dump_reserved_name :
  fst (fst (dump [[("sqlite", sample_frame)]; []] sample_writer empty_world))
  = Raise (DatabaseError "out.sqlite")
  /\ fst (fst (dump [[("sqlite", sample_frame)]] sample_writer empty_world)) = Ok tt.
Proof. vm_compute. split; reflexivity. Qed.

Example dump_mixed_column :
  let '(r, _, w) := dump [[("gpu", {["DEV_POWER" := [CInt 1; CFloat 0.5]]})]]
                      sample_writer empty_world in
  r = Ok tt
  /\ db_at "out.sqlite" w = {["gpu" := {["DEV_POWER" := [CFloat 1; CFloat 0.5]]}]}.
Proof. vm_compute. split; reflexivity. Qed.

Example load_quoted_name :
  fst (fst (load sample_reader
              (mkWorld {["out.sqlite" := FDb {[String "a" (String "034" "b") := sample_frame]}]}
                 ∅ [])))
  = Raise (DatabaseError "out.sqlite").
Proof. vm_compute. reflexivity. Qed.

(** ** Paths of the sidecar files *)

Lemma append_nonempty_ne (p s : string) : s <> "" -> (p +:+ s) <> p.
Proof.
  intros Hs. induction p as [|c p IH]; simpl.
  - exact Hs.
  - intros Heq. injection Heq as Heq. exact (IH Heq).
Qed.

Lemma append_empty_r (p : string) : p +:+ "" = p.
Proof.
  induction p as [|c p IH]; [done|].
  change (String c (p +:+ "") = String c p). by rewrite IH.
Qed.

Lemma append_inj_l (p s t : string) : (p +:+ s) = (p +:+ t) -> s = t.
Proof.
  induction p as [|c p IH]; simpl; intros Heq.
  - exact Heq.
  - injection Heq as Heq. exact (IH Heq).
Qed.

Lemma lock_ne_db (p : string) : (p +:+ ".lock") <> p.
Proof. apply append_nonempty_ne. discriminate. Qed.

Lemma metadata_ne_db (p : string) : (p +:+ ".metadata") <> p.
Proof. apply append_nonempty_ne. discriminate. Qed.

Lemma lock_ne_metadata (p : string) : (p +:+ ".lock") <> (p +:+ ".metadata").
Proof. intros Heq. apply append_inj_l in Heq. discriminate. Qed.

(** ** Writing epochs *)

Lemma world_eta (w : World) : mkWorld (fs w) (locks w) (sql_log w) = w.
Proof. by destruct w. Qed.

Lemma upcast_homogeneous (col : list cell) : homogeneous col -> upcast col = col.
Proof.
  unfold homogeneous, upcast. intros Hh.
  destruct (existsb is_float col); [|done].
  destruct (fits_int_array col); [|done]. cbn [andb].
  specialize (Hh eq_refl). induction col as [|c col IH]; [done|].
  cbn in Hh. apply andb_prop in Hh as [Hc Hcol].
  cbn. rewrite IH by done. by destruct c.
Qed.

Lemma pd_DataFrame_storable (df : DataFrame) (self : MetricsDataIO) (w : World) :
  storable df -> pd_DataFrame df self w = (Ok df, self, w).
Proof.
  intros (Hrect & Hhom & _). unfold pd_DataFrame. rewrite bool_decide_true by done.
  unfold ret. do 2 f_equal. f_equal. apply map_eq. intros k. rewrite lookup_fmap.
  destruct (df !! k) as [col|] eqn:Hk; [|done].
  cbn. f_equal. apply upcast_homogeneous. by apply (Hhom k).
Qed.

Lemma dom_convert_gpu_util (df : DataFrame) : dom (convert_gpu_util df) = dom df.
Proof.
  unfold convert_gpu_util. destruct (df !! "DEV_GPU_UTIL") as [col|] eqn:Hcol; [|done].
  by apply dom_insert_lookup_L.
Qed.

Lemma storable_converted (name : string) (df : DataFrame) :
  valid_identifier name = true ->
  storable df ->
  identifiers_valid name (convert_gpu_util df)
  /\ columns_creatable (convert_gpu_util df)
  /\ insertable (convert_gpu_util df).
Proof.
  intros Hname (_ & _ & [Hne Hnd] & Hvalid & Hins).
  unfold identifiers_valid, columns_creatable. rewrite dom_convert_gpu_util.
  repeat split; try done.
  - intros Hempty. apply Hne, dom_empty_inv_L.
    by rewrite <- dom_convert_gpu_util, Hempty, dom_empty_L.
  - unfold insertable, convert_gpu_util.
    destruct (df !! "DEV_GPU_UTIL") as [col|] eqn:Hcol; [|done].
    apply map_Forall_insert_2; [|done].
    apply Forall_forall. intros c Hc. apply list_elem_of_fmap in Hc as (c' & -> & _). done.
Qed.

Lemma to_sql_run (path name : string) (df : DataFrame) (self : MetricsDataIO) (w : World) :
  writable path w ->
  identifiers_valid name df ->
  columns_creatable df ->
  insertable df ->
  ~ clashes name (db_at path w) ->
  reserved name = false ->
  to_sql path name df self w
  = (Ok tt, self,
     log_event (EvToSql path name df)
       (set_fs <[path := FDb (<[name := df]> (db_at path w))]> w)).
Proof.
  unfold writable, db_at, to_sql. intros Hw Hid Hcols Hins Hclash Hres.
  rewrite (bool_decide_true _ Hid). cbn [negb].
  destruct (fs w !! path) as [[db|md]|]; [|done|].
  all: rewrite (bool_decide_true _ Hcols), (bool_decide_false _ Hclash),
         (bool_decide_true _ Hins), Hres; done.
Qed.

Lemma names_ok_mono (db db' : Database) (names names' : list string) :
  (forall x, x ∈ elements (dom db') ++ names' -> x ∈ elements (dom db) ++ names) ->
  Forall (fun n => valid_identifier n = true /\ reserved n = false) names' ->
  names_ok db names -> names_ok db' names'.
Proof.
  intros Hsub Hvalid [_ Hok]. split; [done|].
  apply Forall_forall. intros a Ha. apply Forall_forall. intros b Hb.
  apply (proj1 (Forall_forall _ _) (proj1 (Forall_forall _ _) Hok a (Hsub a Ha)) b (Hsub b Hb)).
Qed.

Lemma names_ok_head (db : Database) (name : string) (names : list string) :
  names_ok db (name :: names) ->
  valid_identifier name = true /\ reserved name = false /\ ~ clashes name db.
Proof.
  intros [Hvalid Hok]. apply Forall_cons in Hvalid as [[Hv Hr] _].
  split; [done|]. split; [done|].
  unfold clashes. intros Hex. apply Exists_exists in Hex as (k & Hk & Hne & Hfold).
  apply Hne.
  apply (proj1 (Forall_forall _ _) (proj1 (Forall_forall _ _) Hok k
           (proj2 (elem_of_app _ _ _) (or_introl Hk))) name); [|done].
  apply elem_of_app. right. apply elem_of_cons. by left.
Qed.

Lemma names_ok_tail (db : Database) (name : string) (df : DataFrame) (names : list string) :
  names_ok db (name :: names) -> names_ok (<[name := df]> db) names.
Proof.
  intros Hok. apply (names_ok_mono db _ (name :: names)); [| |done].
  - intros x Hx. apply elem_of_app in Hx as [Hx|Hx].
    + apply elem_of_elements, elem_of_dom in Hx.
      destruct (decide (x = name)) as [->|Hne].
      * apply elem_of_app. right. apply elem_of_cons. by left.
      * rewrite lookup_insert_ne in Hx by done.
        apply elem_of_app. left. by apply elem_of_elements, elem_of_dom.
    + apply elem_of_app. right. apply elem_of_cons. by right.
  - destruct Hok as [Hvalid _]. by apply Forall_cons in Hvalid as [_ ?].
Qed.

Lemma tables_loop_run (p sfx : string) (e : Epoch) :
  forall (self : MetricsDataIO) (w : World) (db : Database),
    fs w !! p = Some (FDb db) ->
    frames_storable e ->
    names_ok db (map fst (epoch_writes sfx e)) ->
    for_each e (fun '(tableName, tableData) =>
      df <- pd_DataFrame tableData ;;
      let df := convert_gpu_util df in
      to_sql p (tableName +:+ sfx) df) self w
    = (Ok tt, self,
       mkWorld (<[p := FDb (apply_writes (epoch_writes sfx e) db)]> (fs w)) (locks w)
         (sql_log w ++ map (fun '(name, df) => EvToSql p name df) (epoch_writes sfx e))).
Proof.
  induction e as [|[name df] e IH]; intros self w db Hdb Hframes Hnames.
  - cbn. unfold ret. rewrite app_nil_r, (insert_id _ _ _ Hdb). by rewrite world_eta.
  - apply Forall_cons in Hframes as [Hdf Hframes]. cbn [snd] in Hdf.
    cbn [epoch_writes map fst] in Hnames.
    destruct (names_ok_head _ _ _ Hnames) as (Hvalid & Hres & Hclash).
    destruct (storable_converted _ _ Hvalid Hdf) as (Hid & Hcols & Hins).
    cbn [for_each]. unfold bind at 1, bind at 1.
    rewrite pd_DataFrame_storable by done.
    rewrite to_sql_run; [|by unfold writable; rewrite Hdb|done|done|done| |done].
    2:{ unfold db_at. by rewrite Hdb. }
    unfold db_at. rewrite Hdb.
    erewrite IH; [| cbn [fs log_event set_fs]; apply lookup_insert_eq |done|].
    2:{ eapply names_ok_tail. exact Hnames. }
    cbn [fs locks sql_log log_event set_fs epoch_writes map apply_writes foldl].
    rewrite insert_insert_eq, <- app_assoc. reflexivity.
Qed.

Lemma dumpEpoch_run (e : Epoch) (sfx : string) (self : MetricsDataIO) (w : World) :
  writable (dbFile self) w ->
  frames_storable e ->
  names_ok (db_at (dbFile self) w) (map fst (epoch_writes sfx e)) ->
  dumpEpoch e sfx self w
  = (Ok tt, self,
     mkWorld (<[dbFile self := FDb (apply_writes (epoch_writes sfx e) (db_at (dbFile self) w))]> (fs w))
       (locks w) (sql_log w ++ epoch_events (dbFile self) (timeout self) sfx e)).
Proof.
  unfold writable, db_at, dumpEpoch, bind at 1, get_self, bind at 1, sqlite3_connect,
    modify_world, epoch_events.
  intros Hw Hframes Hnames. destruct (fs w !! dbFile self) as [[db|md]|] eqn:Hp; [|done|].
  - erewrite tables_loop_run; [|cbn [fs log_event]; exact Hp|done|done].
    cbn [fs locks sql_log log_event]. by rewrite <- app_assoc.
  - erewrite tables_loop_run; [|cbn [fs log_event set_fs]; apply lookup_insert_eq|done|done].
    cbn [fs locks sql_log log_event set_fs]. by rewrite insert_insert_eq, <- app_assoc.
Qed.

Lemma apply_writes_app (ws1 ws2 : list (string * DataFrame)) (db : Database) :
  apply_writes (ws1 ++ ws2) db = apply_writes ws2 (apply_writes ws1 db).
Proof. unfold apply_writes. apply foldl_app. Qed.

Lemma dom_apply_writes (ws : list (string * DataFrame)) :
  forall (db : Database) (k : string),
    k ∈ dom (apply_writes ws db) <-> k ∈ dom db \/ k ∈ map fst ws.
Proof.
  induction ws as [|[name df] ws IH]; intros db k.
  - cbn. split; [by left|]. intros [?|Hin]; [done|by apply elem_of_nil in Hin].
  - change (apply_writes ((name, df) :: ws) db) with (apply_writes ws (<[name := df]> db)).
    rewrite IH, dom_insert, elem_of_union, elem_of_singleton. cbn [map fst].
    rewrite elem_of_cons. tauto.
Qed.

Lemma names_ok_app (db : Database) (ws : list (string * DataFrame)) (names : list string) :
  names_ok db (map fst ws ++ names) ->
  names_ok db (map fst ws) /\ names_ok (apply_writes ws db) names.
Proof.
  intros Hok. pose proof Hok as [Hvalid _]. apply Forall_app in Hvalid as [Hv1 Hv2]. split.
  - apply (names_ok_mono db _ (map fst ws ++ names)); [|done|done].
    intros x Hx. rewrite !elem_of_app in *. tauto.
  - apply (names_ok_mono db _ (map fst ws ++ names)); [|done|done].
    intros x Hx. rewrite !elem_of_app in *. rewrite elem_of_elements in *.
    destruct Hx as [Hx|Hx]; [|tauto]. apply dom_apply_writes in Hx. tauto.
Qed.

Lemma epochs_loop_run (data : list Epoch) :
  forall (e : Epoch) (i : nat) (self : MetricsDataIO) (w : World),
    writable (dbFile self) w ->
    Forall frames_storable (e :: data) ->
    names_ok (db_at (dbFile self) w) (map fst (suffixed_writes i (e :: data))) ->
    for_each (enumerate_from i (e :: data)) (fun '(i, epoch) =>
      dumpEpoch epoch ("_epoch:" +:+ str_of_nat i)) self w
    = (Ok tt, self,
       mkWorld
         (<[dbFile self := FDb (apply_writes (suffixed_writes i (e :: data)) (db_at (dbFile self) w))]> (fs w))
         (locks w)
         (sql_log w ++ suffixed_events (dbFile self) (timeout self) i (e :: data))).
Proof.
  induction data as [|e' data IH]; intros e i self w Hw Hframes Hnames.
  all: apply Forall_cons in Hframes as [He Hframes].
  all: cbn [suffixed_writes] in Hnames; rewrite map_app in Hnames.
  all: apply names_ok_app in Hnames as [Hn1 Hn2].
  - cbn [enumerate_from for_each]. unfold bind. rewrite dumpEpoch_run by done.
    unfold ret. cbn [suffixed_writes suffixed_events]. by rewrite !app_nil_r.
  - change (enumerate_from i (e :: e' :: data))
      with ((i, e) :: enumerate_from (S i) (e' :: data)).
    cbn [for_each]. unfold bind at 1. rewrite dumpEpoch_run by done.
    rewrite IH.
    + cbn [fs locks sql_log]. unfold db_at at 1. cbn [fs].
      rewrite lookup_insert_eq, insert_insert_eq.
      cbn [suffixed_writes suffixed_events].
      by rewrite <- !apply_writes_app, <- !app_assoc.
    + unfold writable. cbn [fs]. by rewrite lookup_insert_eq.
    + done.
    + unfold db_at at 1. cbn [fs]. by rewrite lookup_insert_eq.
Qed.

(** What a writer's [dump] of at least one epoch does to a path a
    connection can write to, for frames and names that can be stored. *)
Lemma dump_run (data : list Epoch) (self : MetricsDataIO) (w : World) :
  readOnly self = false ->
  writable (dbFile self) w ->
  dumpable (db_at (dbFile self) w) data ->
  data <> [] ->
  dump data self w
  = (Ok tt, self,
     mkWorld (<[dbFile self := FDb (apply_writes (dump_writes data) (db_at (dbFile self) w))]> (fs w))
       (locks w) (sql_log w ++ dump_events (dbFile self) (timeout self) data)).
Proof.
  intros Hro Hw [Hframes Hnames] Hne. unfold dump, checkReadOnly, bind at 1, get_self.
  rewrite Hro. destruct data as [|e [|e' data]]; [done| |].
  - apply Forall_cons in Hframes as [He _]. by rewrite dumpEpoch_run.
  - unfold enumerate. by rewrite epochs_loop_run.
Qed.

Lemma dump_nothing (self : MetricsDataIO) (w : World) :
  readOnly self = false -> dump [] self w = (Ok tt, self, w).
Proof. intros Hro. unfold dump, checkReadOnly, bind, get_self. by rewrite Hro. Qed.

(** ** The names tables are written under *)

Lemma to_sql_names_app (l1 l2 : list event) :
  to_sql_names (l1 ++ l2) = to_sql_names l1 ++ to_sql_names l2.
Proof. unfold to_sql_names. apply omap_app. Qed.

Lemma to_sql_names_writes (p : string) (ws : list (string * DataFrame)) :
  to_sql_names (map (fun '(name, df) => EvToSql p name df) ws) = map fst ws.
Proof.
  induction ws as [|[name df] ws IH]; [done|].
  simpl. unfold to_sql_names in *. simpl. by rewrite IH.
Qed.

Lemma to_sql_names_epoch (p : string) (tmo : Z) (sfx : string) (e : Epoch) :
  to_sql_names (epoch_events p tmo sfx e) = map (fun t => (fst t +:+ sfx)) e.
Proof.
  unfold epoch_events. change (to_sql_names (?x :: ?l)) with (to_sql_names l).
  rewrite to_sql_names_writes. unfold epoch_writes. rewrite map_map.
  apply map_ext. by intros [name df].
Qed.

Lemma to_sql_names_suffixed (p : string) (tmo : Z) (data : list Epoch) :
  forall i : nat,
    to_sql_names (suffixed_events p tmo i data)
    = concat (imap (fun j e =>
        map (fun t => (fst t +:+ "_epoch:" +:+ str_of_nat (i + j))) e) data).
Proof.
  induction data as [|e data IH]; intros i; [done|].
  cbn [suffixed_events]. rewrite to_sql_names_app, to_sql_names_epoch, IH.
  rewrite imap_cons. cbn [concat]. rewrite Nat.add_0_r. f_equal. f_equal.
  apply imap_ext. intros j e' _. simpl. by rewrite Nat.add_succ_r.
Qed.

Lemma epoch_writes_names (sfx : string) (e : Epoch) :
  map fst (epoch_writes sfx e) = map (fun t => (fst t +:+ sfx)) e.
Proof.
  unfold epoch_writes. rewrite map_map. apply map_ext. by intros [name df].
Qed.

Lemma to_sql_names_dump (p : string) (tmo : Z) (data : list Epoch) :
  to_sql_names (dump_events p tmo data) = map fst (dump_writes data).
Proof.
  assert (Hsfx : forall d i,
    to_sql_names (suffixed_events p tmo i d) = map fst (suffixed_writes i d)).
  { induction d as [|e d IH]; intros i; [done|].
    cbn [suffixed_events suffixed_writes].
    by rewrite to_sql_names_app, to_sql_names_epoch, map_app, epoch_writes_names, IH. }
  destruct data as [|e [|e' data]]; [done| |].
  - cbn [dump_events dump_writes]. by rewrite to_sql_names_epoch, epoch_writes_names.
  - apply Hsfx.
Qed.

(** A table that was written is in the database afterwards. *)
Lemma apply_writes_present (ws : list (string * DataFrame)) :
  forall (db : Database) (name : string),
    (name ∈ map fst ws \/ is_Some (db !! name)) -> is_Some (apply_writes ws db !! name).
Proof.
  induction ws as [|[n df] ws IH]; intros db name H.
  - destruct H as [H|H]; [by apply elem_of_nil in H | done].
  - change (apply_writes ((n, df) :: ws) db) with (apply_writes ws (<[n := df]> db)).
    apply IH. destruct H as [H|H].
    + simpl in H. apply elem_of_cons in H as [->|H]; [|by left].
      right. rewrite lookup_insert_eq. by eexists.
    + right. destruct (decide (n = name)) as [->|Hne].
      * rewrite lookup_insert_eq. by eexists.
      * by rewrite lookup_insert_ne.
Qed.

Lemma db_at_written (p : string) (db : Database) (files : gmap string file)
    (held : gmap string hold) (log : list event) :
  db_at p (mkWorld (<[p := FDb db]> files) held log) = db.
Proof. unfold db_at. cbn [fs]. by rewrite lookup_insert_eq. Qed.

Lemma apply_writes_union (ws : list (string * DataFrame)) :
  forall db : Database, apply_writes ws db = list_to_map (rev ws) ∪ db.
Proof.
  induction ws as [|[name df] ws IH]; intros db.
  - simpl. by rewrite (left_id_L ∅ (∪)).
  - change (apply_writes ((name, df) :: ws) db) with (apply_writes ws (<[name := df]> db)).
    rewrite IH. simpl. rewrite list_to_map_app. simpl.
    rewrite <- (assoc_L (∪)). f_equal.
    by rewrite insert_union_singleton_l, insert_empty.
Qed.

Lemma apply_writes_twice (ws : list (string * DataFrame)) (db : Database) :
  apply_writes ws (apply_writes ws db) = apply_writes ws db.
Proof.
  rewrite !apply_writes_union, (assoc_L (∪)). f_equal. apply (idemp_L (∪)).
Qed.

Lemma apply_writes_untouched (ws : list (string * DataFrame)) :
  forall (db : Database) (name : string),
    name ∉ map fst ws -> apply_writes ws db !! name = db !! name.
Proof.
  induction ws as [|[n df] ws IH]; intros db name Hnot; [done|].
  change (apply_writes ((n, df) :: ws) db) with (apply_writes ws (<[n := df]> db)).
  simpl in Hnot. apply not_elem_of_cons in Hnot as [Hne Hnot].
  rewrite IH by done. by rewrite lookup_insert_ne.
Qed.

Lemma apply_writes_last (before after : list (string * DataFrame))
    (name : string) (df : DataFrame) (db : Database) :
  name ∉ map fst after ->
  apply_writes (before ++ (name, df) :: after) db !! name = Some df.
Proof.
  intros Hnot. rewrite apply_writes_app.
  change (apply_writes ((name, df) :: after) ?d) with (apply_writes after (<[name := df]> d)).
  rewrite apply_writes_untouched by done. apply lookup_insert_eq.
Qed.

(** C4.  A writer's [dump] of epochs that can be stored: no epoch, nothing
    is written; one epoch, its tables are written under their own names;
    several epochs, the tables of epoch [i] (from 0) are written under
    their names followed by [_epoch:i], so three epochs give the suffixes
    [_epoch:0], [_epoch:1] and [_epoch:2].  Every table written is in the
    file afterwards. *)
Theorem C4_dump_table_names (self : MetricsDataIO) (w : World) :
  readOnly self = false ->
  writable (dbFile self) w ->
  dump [] self w = (Ok tt, self, w)
  /\ (forall e : Epoch, dumpable (db_at (dbFile self) w) [e] -> exists w' new,
        dump [e] self w = (Ok tt, self, w')
        /\ sql_log w' = sql_log w ++ new
        /\ to_sql_names new = map fst e
        /\ forall name, name ∈ to_sql_names new -> is_Some (db_at (dbFile self) w' !! name))
  /\ (forall data : list Epoch,
        (1 < length data)%nat -> dumpable (db_at (dbFile self) w) data -> exists w' new,
        dump data self w = (Ok tt, self, w')
        /\ sql_log w' = sql_log w ++ new
        /\ to_sql_names new
           = concat (imap (fun i e =>
               map (fun t => (fst t +:+ "_epoch:" +:+ str_of_nat i)) e) data)
        /\ forall name, name ∈ to_sql_names new -> is_Some (db_at (dbFile self) w' !! name))
  /\ (forall e0 e1 e2 : Epoch, dumpable (db_at (dbFile self) w) [e0; e1; e2] -> exists w' new,
        dump [e0; e1; e2] self w = (Ok tt, self, w')
        /\ sql_log w' = sql_log w ++ new
        /\ to_sql_names new
           = map (fun t => (fst t +:+ "_epoch:0")) e0
             ++ map (fun t => (fst t +:+ "_epoch:1")) e1
             ++ map (fun t => (fst t +:+ "_epoch:2")) e2).
Proof.
  intros Hro Hw.
  assert (Hrun : forall data, data <> [] -> dumpable (db_at (dbFile self) w) data ->
    exists w' new,
    dump data self w = (Ok tt, self, w')
    /\ sql_log w' = sql_log w ++ new
    /\ new = dump_events (dbFile self) (timeout self) data
    /\ forall name, name ∈ to_sql_names new -> is_Some (db_at (dbFile self) w' !! name)).
  { intros data Hne Hok. eexists _, _. split; [by apply dump_run|].
    split; [reflexivity|]. split; [reflexivity|].
    intros name Hin. unfold db_at at 1. cbn [fs]. rewrite lookup_insert_eq.
    apply apply_writes_present. left. by rewrite <- (to_sql_names_dump (dbFile self) (timeout self)). }
  split; [by apply dump_nothing|]. split; [|split].
  - intros e Hok. destruct (Hrun [e]) as (w' & new & Hd & Hl & -> & Hp); [done|done|].
    exists w', (dump_events (dbFile self) (timeout self) [e]).
    repeat split; try done.
    cbn [dump_events]. rewrite to_sql_names_epoch. apply map_ext. intros [n df].
    apply append_empty_r.
  - intros data Hlen Hok. destruct (Hrun data) as (w' & new & Hd & Hl & -> & Hp); [|done|].
    { destruct data; [simpl in Hlen; lia | done]. }
    exists w', (dump_events (dbFile self) (timeout self) data).
    repeat split; try done.
    destruct data as [|e [|e' data]]; simpl in Hlen; [lia|lia|].
    apply (to_sql_names_suffixed _ _ _ 0%nat).
  - intros e0 e1 e2 Hok.
    destruct (Hrun [e0; e1; e2]) as (w' & new & Hd & Hl & -> & Hp); [done|done|].
    exists w', (dump_events (dbFile self) (timeout self) [e0; e1; e2]).
    repeat split; try done.
    cbn [dump_events suffixed_events].
    rewrite !to_sql_names_app, !to_sql_names_epoch. by rewrite app_nil_r.
Qed.

Lemma C4_dump_table_names_witness :
  readOnly sample_writer = false
  /\ writable (dbFile sample_writer) empty_world
  /\ dumpable (db_at (dbFile sample_writer) empty_world) [sample_epoch; sample_epoch; sample_epoch]
  /\ exists w' new,
       dump [sample_epoch; sample_epoch; sample_epoch] sample_writer empty_world
       = (Ok tt, sample_writer, w')
       /\ sql_log w' = sql_log empty_world ++ new
       /\ to_sql_names new = ["gpu_epoch:0"; "gpu_epoch:1"; "gpu_epoch:2"].
Proof.
  assert (Hok : dumpable (db_at (dbFile sample_writer) empty_world)
                  [sample_epoch; sample_epoch; sample_epoch])
    by (apply (bool_decide_unpack _); vm_compute; exact I).
  split; [reflexivity|]. split; [exact I|]. split; [exact Hok|].
  exact (proj2 (proj2 (proj2 (C4_dump_table_names sample_writer empty_world eq_refl I)))
           sample_epoch sample_epoch sample_epoch Hok).
Defined.

(** ** Table names of different epochs *)

Lemma list_ascii_of_string_app (a b : string) :
  list_ascii_of_string (a +:+ b) = list_ascii_of_string a ++ list_ascii_of_string b.
Proof.
  induction a as [|c a IH]; [done|].
  change (list_ascii_of_string (String c (a +:+ b))
          = c :: (list_ascii_of_string a ++ list_ascii_of_string b)).
  simpl. by rewrite IH.
Qed.

Lemma list_ascii_of_string_inj (a b : string) :
  list_ascii_of_string a = list_ascii_of_string b -> a = b.
Proof.
  intros Heq. rewrite <- (string_of_list_ascii_of_string a), Heq.
  apply string_of_list_ascii_of_string.
Qed.

Lemma append_inj_r (a b s : string) : a +:+ s = b +:+ s -> a = b.
Proof.
  intros Heq. apply list_ascii_of_string_inj.
  apply (f_equal list_ascii_of_string) in Heq.
  rewrite !list_ascii_of_string_app in Heq. by apply app_inv_tail in Heq.
Qed.

Lemma str_of_nat_inj (i j : nat) : str_of_nat i = str_of_nat j -> i = j.
Proof.
  unfold str_of_nat. intros Heq.
  assert (Hu : Nat.to_uint i = Nat.to_uint j).
  { apply (f_equal NilEmpty.uint_of_string) in Heq. rewrite !NilEmpty.usu in Heq. congruence. }
  rewrite <- (Unsigned.of_to i), <- (Unsigned.of_to j). by rewrite Hu.
Qed.

Lemma digits_have_no_colon (d : Decimal.uint) :
  (":"%char : ascii) ∉ list_ascii_of_string (NilEmpty.string_of_uint d).
Proof.
  induction d; simpl; [apply not_elem_of_nil|..];
    (apply not_elem_of_cons; split; [discriminate|assumption]).
Qed.

Lemma split_at_last_colon (X : list ascii) :
  forall Y D1 D2 : list ascii,
    (":"%char : ascii) ∉ D1 -> (":"%char : ascii) ∉ D2 ->
    X ++ ":"%char :: D1 = Y ++ ":"%char :: D2 ->
    X = Y /\ D1 = D2.
Proof.
  induction X as [|x X IH]; intros Y D1 D2 H1 H2 Heq.
  - destruct Y as [|y Y]; simpl in Heq.
    + by injection Heq as ->.
    + injection Heq as <- ->. exfalso. apply H1, elem_of_app. right. apply elem_of_cons. by left.
  - destruct Y as [|y Y]; simpl in Heq.
    + injection Heq as -> <-. exfalso. apply H2, elem_of_app. right. apply elem_of_cons. by left.
    + injection Heq as -> Heq. destruct (IH Y D1 D2 H1 H2 Heq) as [-> ->]. done.
Qed.

Lemma suffixed_name_inj (n1 n2 : string) (i j : nat) :
  n1 +:+ "_epoch:" +:+ str_of_nat i = n2 +:+ "_epoch:" +:+ str_of_nat j ->
  n1 = n2 /\ i = j.
Proof.
  intros Heq. apply (f_equal list_ascii_of_string) in Heq.
  rewrite !list_ascii_of_string_app in Heq.
  change (list_ascii_of_string "_epoch:")
    with (list_ascii_of_string "_epoch" ++ [":"%char : ascii]) in Heq.
  assert (Hshape : forall n D : list ascii,
    n ++ (list_ascii_of_string "_epoch" ++ [":"%char : ascii]) ++ D
    = (n ++ list_ascii_of_string "_epoch") ++ ":"%char :: D)
    by (intros n D; by rewrite <- !app_assoc).
  rewrite !Hshape in Heq.
  apply split_at_last_colon in Heq as [Hn Hd];
    [|apply digits_have_no_colon|apply digits_have_no_colon].
  apply app_inv_tail in Hn. split.
  - by apply list_ascii_of_string_inj.
  - by apply str_of_nat_inj, list_ascii_of_string_inj.
Qed.

Lemma epoch_writes_nodup (sfx : string) (e : Epoch) :
  unique_tables e -> NoDup (map fst (epoch_writes sfx e)).
Proof.
  unfold unique_tables. intros Hnd. rewrite epoch_writes_names.
  rewrite <- (map_map fst (fun n => n +:+ sfx)).
  assert (Hinj : Inj eq eq (fun n : string => n +:+ sfx))
    by (intros a b; apply append_inj_r).
  by apply (NoDup_fmap_2 (fun n : string => n +:+ sfx)).
Qed.

Lemma suffixed_writes_names (data : list Epoch) :
  forall (s : nat) (x : string),
    x ∈ map fst (suffixed_writes s data) ->
    exists (j : nat) (name : string), (s <= j)%nat /\ x = name +:+ "_epoch:" +:+ str_of_nat j.
Proof.
  induction data as [|e data IH]; intros s x Hin; [by apply elem_of_nil in Hin|].
  cbn [suffixed_writes] in Hin. rewrite map_app in Hin. apply elem_of_app in Hin as [Hin|Hin].
  - rewrite epoch_writes_names in Hin. apply list_elem_of_fmap in Hin as ([name df] & -> & _).
    exists s, name. split; [lia|done].
  - apply IH in Hin as (j & name & Hj & ->). exists j, name. split; [lia|done].
Qed.

Lemma suffixed_writes_nodup (data : list Epoch) :
  forall s : nat,
    Forall unique_tables data -> NoDup (map fst (suffixed_writes s data)).
Proof.
  induction data as [|e data IH]; intros s Hall; [constructor|].
  apply Forall_cons in Hall as [He Hall].
  cbn [suffixed_writes]. rewrite map_app. apply NoDup_app. split; [|split].
  - by apply epoch_writes_nodup.
  - intros x Hx Hx'. rewrite epoch_writes_names in Hx.
    apply list_elem_of_fmap in Hx as ([name df] & -> & _). cbn [fst] in Hx'.
    apply suffixed_writes_names in Hx' as (j & name' & Hj & Heq).
    apply suffixed_name_inj in Heq as [_ ->]. lia.
  - by apply IH.
Qed.

Lemma dump_writes_nodup (data : list Epoch) :
  Forall unique_tables data -> (1 < length data)%nat -> NoDup (map fst (dump_writes data)).
Proof.
  intros Hall Hlen. destruct data as [|e [|e' data]]; simpl in Hlen; [lia|lia|].
  by apply (suffixed_writes_nodup (e :: e' :: data) 0).
Qed.

Lemma apply_writes_lookup (ws : list (string * DataFrame)) (db : Database)
    (name : string) (df : DataFrame) :
  NoDup (map fst ws) -> (name, df) ∈ ws -> apply_writes ws db !! name = Some df.
Proof.
  intros Hnd Hin. apply list_elem_of_split in Hin as (before & after & ->).
  apply apply_writes_last.
  rewrite map_app in Hnd. apply NoDup_app in Hnd as (_ & _ & Hnd).
  simpl in Hnd. by apply NoDup_cons in Hnd as [Hnot _].
Qed.

Lemma suffixed_writes_elem (data : list Epoch) :
  forall (s i : nat) (e : Epoch) (name : string) (df : DataFrame),
    data !! i = Some e ->
    (name, df) ∈ e ->
    (name +:+ "_epoch:" +:+ str_of_nat (s + i), convert_gpu_util df) ∈ suffixed_writes s data.
Proof.
  induction data as [|e0 data IH]; intros s i e name df Hi Hin; [done|].
  cbn [suffixed_writes]. apply elem_of_app. destruct i as [|i].
  - left. injection Hi as ->. rewrite Nat.add_0_r. unfold epoch_writes.
    apply list_elem_of_fmap. by exists (name, df).
  - right. rewrite Nat.add_succ_r. apply (IH (S s) i e); done.
Qed.

(** ** The percentage column *)






(** The table a [dump] of [count] epochs writes for table [tableName] of
    its epoch [i]. *)
Lemma dump_stores (data : list Epoch) (self : MetricsDataIO) (w : World)
    (i : nat) (e : Epoch) (tableName : string) (df : DataFrame) :
  Forall unique_tables data ->
  data !! i = Some e ->
  (tableName, df) ∈ e ->
  apply_writes (dump_writes data) (db_at (dbFile self) w)
    !! (if decide (length data = 1%nat) then tableName
        else tableName +:+ "_epoch:" +:+ str_of_nat i)
  = Some (convert_gpu_util df).
Proof.
  intros Hall Hi Hin. destruct data as [|e0 [|e1 data]]; [done| |].
  - destruct i as [|i]; [|done]. injection Hi as ->. cbn [length]. rewrite decide_True by done.
    apply apply_writes_lookup.
    + apply epoch_writes_nodup. by apply Forall_cons in Hall as [He _].
    + cbn [dump_writes]. unfold epoch_writes. apply list_elem_of_fmap.
      exists (tableName, df). split; [|done]. by rewrite append_empty_r.
  - rewrite decide_False by (cbn [length]; lia).
    apply apply_writes_lookup.
    + apply dump_writes_nodup; [done|cbn [length]; lia].
    + apply (suffixed_writes_elem (e0 :: e1 :: data) 0 i e); done.
Qed.



(** ** Running [dump] again *)

Lemma dumpable_again (ws : list (string * DataFrame)) (db : Database) (data : list Epoch) :
  (forall x, x ∈ map fst ws -> x ∈ map fst (dump_writes data)) ->
  dumpable db data -> dumpable (apply_writes ws db) data.
Proof.
  intros Hsub [Hframes Hnames]. split; [done|].
  apply (names_ok_mono db _ (map fst (dump_writes data))); [|by destruct Hnames|done].
  intros x Hx. rewrite !elem_of_app in *. rewrite elem_of_elements in *.
  destruct Hx as [Hx|Hx]; [|tauto]. apply dom_apply_writes in Hx as [Hx|Hx]; [tauto|].
  right. by apply Hsub.
Qed.

(** C6.  A writer that dumps the same epochs twice, epochs that can be
    stored, leaves the files as one dump leaves them: each write replaces
    the table of that name, so a table holds the frame of the last write
    under its name, once. *)
Theorem C6_dump_idempotent (self : MetricsDataIO) (w : World) (data : list Epoch) :
  readOnly self = false ->
  writable (dbFile self) w ->
  dumpable (db_at (dbFile self) w) data ->
  exists w1 w2,
    dump data self w = (Ok tt, self, w1)
    /\ dump data self w1 = (Ok tt, self, w2)
    /\ fs w2 = fs w1
    /\ forall before name df after,
         dump_writes data = before ++ (name, df) :: after ->
         name ∉ map fst after ->
         db_at (dbFile self) w1 !! name = Some df
         /\ db_at (dbFile self) w2 !! name = Some df.
Proof.
  intros Hro Hw Hok. destruct data as [|e data].
  - exists w, w. rewrite dump_nothing by done. repeat split; try done.
    all: by destruct before.
  - eexists _, _. split; [by apply dump_run|].
    split; [apply dump_run; [done| | |done]|].
    { unfold writable. cbn [fs]. by rewrite lookup_insert_eq. }
    { rewrite db_at_written. by apply dumpable_again. }
    rewrite !db_at_written. cbn [fs].
    rewrite insert_insert_eq, apply_writes_twice.
    split; [done|]. intros before name df after -> Hnot.
    split; by apply apply_writes_last.
Qed.

Lemma C6_dump_idempotent_witness :
  readOnly sample_writer = false
  /\ writable (dbFile sample_writer) empty_world
  /\ dumpable (db_at (dbFile sample_writer) empty_world) [sample_epoch; sample_epoch]
  /\ exists w1 w2,
       dump [sample_epoch; sample_epoch] sample_writer empty_world = (Ok tt, sample_writer, w1)
       /\ dump [sample_epoch; sample_epoch] sample_writer w1 = (Ok tt, sample_writer, w2)
       /\ fs w2 = fs w1
       /\ db_at (dbFile sample_writer) w2 !! "gpu_epoch:1" = Some (convert_gpu_util sample_frame).
Proof.
  assert (Hok : dumpable (db_at (dbFile sample_writer) empty_world) [sample_epoch; sample_epoch])
    by (apply (bool_decide_unpack _); vm_compute; exact I).
  split; [reflexivity|]. split; [exact I|]. split; [exact Hok|].
  destruct (C6_dump_idempotent sample_writer empty_world [sample_epoch; sample_epoch] eq_refl I Hok)
    as (w1 & w2 & H1 & H2 & Hfs & Hlast).
  exists w1, w2. split; [exact H1|]. split; [exact H2|]. split; [exact Hfs|].
  apply (Hlast [("gpu_epoch:0", convert_gpu_util sample_frame)] "gpu_epoch:1"
           (convert_gpu_util sample_frame) []); [reflexivity|apply not_elem_of_nil].
Defined.

(** ** Read-only coordinators and [load] *)

Lemma checkReadOnly_rejects {A} (func : M A) (self : MetricsDataIO) (w : World) :
  readOnly self = true -> checkReadOnly func self w = (Raise read_only_error, self, w).
Proof. intros Hro. unfold checkReadOnly, bind, get_self. by rewrite Hro. Qed.

Lemma checkReadOnly_passes {A} (func : M A) (self : MetricsDataIO) (w : World) :
  readOnly self = false -> checkReadOnly func self w = func self w.
Proof. intros Hro. unfold checkReadOnly, bind, get_self. by rewrite Hro. Qed.

Lemma load_tables_run (p : string) (db : Database) (tables : list string) :
  forall (dfs : gmap string DataFrame) (self : MetricsDataIO) (w : World),
    fs w !! p = Some (FDb db) ->
    (forall t, t ∈ tables -> is_Some (db !! t) /\ has_char "034" t = false) ->
    exists dfs',
      load_tables p tables dfs self w = (Ok dfs', self, w)
      /\ forall k, dfs' !! k = if decide (k ∈ tables) then db !! k else dfs !! k.
Proof.
  induction tables as [|t tables IH]; intros dfs self w Hp Hall.
  - exists dfs. split; [done|]. intros k. by rewrite decide_False by apply not_elem_of_nil.
  - destruct (Hall t) as [[df Hdf] Hquote]; [apply elem_of_cons; by left|].
    destruct (IH (<[t := df]> dfs) self w Hp) as (dfs' & Hrun & Hlook).
    { intros t' Ht'. apply Hall, elem_of_cons. by right. }
    exists dfs'. split.
    + cbn [load_tables]. unfold bind, read_table. by rewrite Hp, Hquote, Hdf.
    + intros k. rewrite Hlook.
      destruct (decide (k ∈ tables)) as [Hin|Hnot].
      * rewrite decide_True; [done|]. apply elem_of_cons. by right.
      * destruct (decide (k = t)) as [->|Hne].
        -- rewrite decide_True by (apply elem_of_cons; by left).
           by rewrite lookup_insert_eq.
        -- rewrite decide_False by (intros [?|?]%elem_of_cons; done).
           by rewrite lookup_insert_ne.
Qed.

Lemma load_run (self : MetricsDataIO) (w : World) (db : Database) :
  fs w !! dbFile self = Some (FDb db) ->
  quote_free db ->
  load self w = (Ok db, self, log_event (EvConnect (dbFile self) None) w).
Proof.
  intros Hp Hquote. unfold load, bind at 1, get_self, bind at 1, path_exists.
  rewrite Hp, bool_decide_true by by eexists. cbn [negb].
  unfold bind at 1, sqlite3_connect, modify_world. rewrite Hp.
  unfold bind at 1, table_names. cbn [fs log_event]. rewrite Hp.
  destruct (load_tables_run (dbFile self) db (map fst (map_to_list db)) ∅ self
              (log_event (EvConnect (dbFile self) None) w) Hp) as (dfs & Hrun & Hlook).
  { intros t Ht. apply list_elem_of_fmap in Ht as ([t' df] & -> & Ht).
    apply elem_of_map_to_list in Ht. split; [by eexists|].
    apply (proj1 (Forall_forall _ _) Hquote). apply elem_of_elements, elem_of_dom. by eexists. }
  rewrite Hrun. do 2 f_equal. f_equal.
  apply map_eq. intros k. rewrite Hlook.
  destruct (decide (k ∈ map fst (map_to_list db))) as [Hin|Hnot]; [done|].
  rewrite lookup_empty. symmetry. apply eq_None_not_Some. intros [df Hdf].
  apply Hnot, list_elem_of_fmap. exists (k, df). split; [done|].
  by apply elem_of_map_to_list.
Qed.


(** C10.  [load] on a path with no file raises the exception that names the
    file; it returns no tables and creates nothing. *)
Theorem C10_load_missing_file (self : MetricsDataIO) (w : World) :
  fs w !! dbFile self = None ->
  load self w
  = (Raise (Exception (PStr ("Database file " +:+ dbFile self +:+ " does not exist!"))), self, w).
Proof.
  intros Hp. unfold load, bind, get_self, path_exists.
  rewrite Hp, bool_decide_false by (intros [? ?]; done). done.
Qed.


Lemma C10_load_missing_file_witness :
  fs empty_world !! dbFile sample_reader = None
  /\ load sample_reader empty_world
     = (Raise (Exception (PStr "Database file out.sqlite does not exist!")), sample_reader, empty_world).
Proof.
  split; [reflexivity|]. apply (C10_load_missing_file sample_reader empty_world). reflexivity.
Defined.

(** ** Locks and the metadata sidecar *)

Lemma fs_acquired_ne (lf k : string) (w : World) :
  lf <> k -> fs (acquired lf w) !! k = fs w !! k.
Proof. intros Hne. unfold acquired. cbn [fs set_fs set_locks]. by rewrite lookup_insert_ne. Qed.

Lemma acquire_default_run (self : MetricsDataIO) (w : World) :
  lock_depth self = 0%nat ->
  releasable (lock_file self) w ->
  FileLock_acquire FileLock_default_timeout self w
  = (Ok tt, set_lock_depth 1 self, acquired (lock_file self) w).
Proof.
  intros Hd Hrel. unfold FileLock_acquire, releasable, acquired in *. rewrite Hd.
  destruct (locks w !! lock_file self) as [[d|]|] eqn:Hl; [done|done|].
  unfold set_locks. cbn [fs locks sql_log set_fs]. by rewrite delete_id.
Qed.

Lemma acquire_nested_run (tmo : Z) (n : nat) (self : MetricsDataIO) (w : World) :
  lock_depth self = S n ->
  FileLock_acquire tmo self w = (Ok tt, set_lock_depth (S (S n)) self, w).
Proof. intros Hd. unfold FileLock_acquire. by rewrite Hd. Qed.

Lemma set_lock_depth_same (self : MetricsDataIO) :
  set_lock_depth (lock_depth self) self = self.
Proof. by destruct self. Qed.

Lemma dumpMetadata_nested (n : nat) (self : MetricsDataIO) (w : World) :
  readOnly self = false ->
  lock_depth self = S n ->
  dumpMetadata self w
  = (Ok tt, self, set_fs <[metadataFile self := FPickle (metadata self)]> w).
Proof.
  intros Hro Hd. unfold dumpMetadata. rewrite checkReadOnly_passes by done.
  unfold with_lock, bind. rewrite (acquire_nested_run _ n) by done.
  unfold finally, bind, get_self, pickle_dump, modify_world, FileLock_release, modify_self.
  cbn. destruct self; simpl in *. by subst.
Qed.

Lemma dumpMetadata_outer (self : MetricsDataIO) (w : World) :
  readOnly self = false ->
  lock_depth self = 0%nat ->
  releasable (lock_file self) w ->
  dumpMetadata self w
  = (Ok tt, self,
     set_fs <[metadataFile self := FPickle (metadata self)]> (acquired (lock_file self) w)).
Proof.
  intros Hro Hd Hrel. unfold dumpMetadata. rewrite checkReadOnly_passes by done.
  unfold with_lock, bind. rewrite acquire_default_run by done.
  unfold finally, bind, get_self, pickle_dump, modify_world, FileLock_release, modify_self.
  cbn. destruct self; simpl in *. by subst.
Qed.

Lemma set_metadata_same (self : MetricsDataIO) : set_metadata (metadata self) self = self.
Proof. by destruct self. Qed.

Lemma loadMetadata_stored (md : Metadata) (self : MetricsDataIO) (w : World) :
  readOnly self = false ->
  fs w !! metadataFile self = Some (FPickle md) ->
  loadMetadata self w = (Ok tt, set_metadata md self, w).
Proof.
  intros Hro Hm. unfold loadMetadata. rewrite checkReadOnly_passes by done.
  unfold bind, get_self, path_exists, pickle_load, modify_self.
  rewrite Hm, bool_decide_true by by eexists. cbn. by rewrite Hm.
Qed.

Lemma loadMetadata_nested_fresh (n : nat) (self : MetricsDataIO) (w : World) :
  readOnly self = false ->
  lock_depth self = S n ->
  fs w !! metadataFile self = None ->
  loadMetadata self w
  = (Ok tt, self, set_fs <[metadataFile self := FPickle (metadata self)]> w).
Proof.
  intros Hro Hd Hm. unfold loadMetadata. rewrite checkReadOnly_passes by done.
  unfold bind at 1, get_self, bind at 1, path_exists.
  rewrite Hm, bool_decide_false by (intros [? ?]; done). cbn [negb].
  unfold bind at 1, bind at 1. rewrite (dumpMetadata_nested n) by done.
  unfold bind, pickle_load, modify_self, set_fs. cbn [fs].
  by rewrite lookup_insert_eq, set_metadata_same.
Qed.

Lemma loadMetadata_outer_fresh (self : MetricsDataIO) (w : World) :
  readOnly self = false ->
  lock_depth self = 0%nat ->
  releasable (lock_file self) w ->
  fs w !! metadataFile self = None ->
  loadMetadata self w
  = (Ok tt, self,
     set_fs <[metadataFile self := FPickle (metadata self)]> (acquired (lock_file self) w)).
Proof.
  intros Hro Hd Hrel Hm. unfold loadMetadata. rewrite checkReadOnly_passes by done.
  unfold bind at 1, get_self, bind at 1, path_exists.
  rewrite Hm, bool_decide_false by (intros [? ?]; done). cbn [negb].
  unfold bind at 1, bind at 1. rewrite dumpMetadata_outer by done.
  unfold bind, pickle_load, modify_self, set_fs. cbn [fs].
  by rewrite lookup_insert_eq, set_metadata_same.
Qed.

(** C8.  [loadMetadata] on a writer.  With no sidecar yet it writes the
    record the object holds, which is the empty record [__init__] has just
    set, and memory and sidecar agree afterwards; with a sidecar, it reads
    that record into memory and writes nothing. *)
Theorem C8_load_metadata (self : MetricsDataIO) (w : World) :
  readOnly self = false ->
  (lock_depth self = 0%nat -> releasable (lock_file self) w) ->
  (fs w !! metadataFile self = None ->
   exists self' w',
     loadMetadata self w = (Ok tt, self', w')
     /\ fs w' !! metadataFile self = Some (FPickle (metadata self'))
     /\ metadata self' = metadata self
     /\ (metadata self = ∅ -> fs w' !! metadataFile self = Some (FPickle ∅)))
  /\ (forall md,
        fs w !! metadataFile self = Some (FPickle md) ->
        exists self',
          loadMetadata self w = (Ok tt, self', w)
          /\ metadata self' = md).
Proof.
  intros Hro Hlock. split.
  - intros Hm. exists self.
    destruct (lock_depth self) as [|n] eqn:Hd.
    + eexists. split; [by apply loadMetadata_outer_fresh; auto|].
      cbn [set_fs fs]. rewrite lookup_insert_eq. repeat split. by intros ->.
    + eexists. split; [by apply (loadMetadata_nested_fresh n)|].
      cbn [set_fs fs]. rewrite lookup_insert_eq. repeat split. by intros ->.
  - intros md Hm. exists (set_metadata md self).
    split; [by apply loadMetadata_stored|done].
Qed.

Lemma C8_load_metadata_witness :
  readOnly sample_writer = false
  /\ (lock_depth sample_writer = 0%nat -> releasable (lock_file sample_writer) empty_world)
  /\ fs empty_world !! metadataFile sample_writer = None
  /\ metadata sample_writer = ∅
  /\ exists self' w',
       loadMetadata sample_writer empty_world = (Ok tt, self', w')
       /\ fs w' !! metadataFile sample_writer = Some (FPickle (metadata self'))
       /\ metadata self' = metadata sample_writer
       /\ (metadata sample_writer = ∅ ->
           fs w' !! metadataFile sample_writer = Some (FPickle ∅)).
Proof.
  assert (Hrel : lock_depth sample_writer = 0%nat ->
                 releasable (lock_file sample_writer) empty_world)
    by (intros _; unfold releasable; vm_compute; discriminate).
  split; [reflexivity|]. split; [exact Hrel|]. split; [reflexivity|]. split; [reflexivity|].
  exact (proj1 (C8_load_metadata sample_writer empty_world eq_refl Hrel) eq_refl).
Defined.

(** ** The constructor of a writer *)

Lemma with_lock_outer {A} (body : M A) (self : MetricsDataIO) (w : World) :
  lock_depth self = 0%nat ->
  releasable (lock_file self) w ->
  with_lock body self w
  = finally body FileLock_release (set_lock_depth 1 self) (acquired (lock_file self) w).
Proof.
  intros Hd Hrel. unfold with_lock, bind. by rewrite acquire_default_run.
Qed.

Lemma with_lock_blocked {A} (body : M A) (self : MetricsDataIO) (w : World) :
  lock_depth self = 0%nat ->
  locks w !! lock_file self = Some HeldForever ->
  fst (fst (with_lock body self w)) = Hang.
Proof.
  intros Hd Hl. unfold with_lock, bind, FileLock_acquire. by rewrite Hd, Hl.
Qed.

(** A writer built on a path whose sidecar already records an error. *)
Lemma init_stored_error (p : string) (fo : bool) (tmo : Z) (w : World)
    (md : Metadata) (v : pyval) :
  releasable (p +:+ ".lock") w ->
  fs w !! (p +:+ ".metadata") = Some (FPickle md) ->
  md !! "dbError" = Some v ->
  truthy v = true ->
  MetricsDataIO_init p fo false tmo w = (Raise (Exception v), acquired (p +:+ ".lock") w).
Proof.
  intros Hrel Hm Herr Htrue.
  unfold MetricsDataIO_init, checkOutfileExists, bind at 1, get_self. cbn [readOnly].
  rewrite with_lock_outer by done.
  unfold finally, bind at 1.
  rewrite (loadMetadata_stored md); [|done|].
  2:{ unfold metadataFile, lock_file. cbn [dbFile set_lock_depth].
      rewrite fs_acquired_ne by apply lock_ne_metadata. exact Hm. }
  unfold bind, get_self. cbn [metadata set_metadata].
  unfold get_truthy. rewrite Herr, Htrue.
  unfold raise_stored_error, bind, get_self. cbn [metadata set_metadata]. rewrite Herr.
  reflexivity.
Qed.

Lemma fs_metadata_loaded_db (p : string) (md : Metadata) (w : World) :
  fs (metadata_loaded p md w) !! p = fs w !! p.
Proof.
  unfold metadata_loaded. cbn [set_fs fs].
  rewrite lookup_insert_ne by apply metadata_ne_db.
  apply fs_acquired_ne, lock_ne_db.
Qed.

Lemma fs_metadata_loaded_sidecar (p : string) (md : Metadata) (w : World) :
  fs (metadata_loaded p md w) !! (p +:+ ".metadata") = Some (FPickle md).
Proof. unfold metadata_loaded. cbn [set_fs fs]. apply lookup_insert_eq. Qed.

Lemma metadata_loaded_again (p : string) (md md' : Metadata) (w : World) :
  set_fs <[p +:+ ".metadata" := FPickle md']> (metadata_loaded p md w) = metadata_loaded p md' w.
Proof. unfold metadata_loaded, set_fs. cbn [fs locks sql_log]. by rewrite insert_insert_eq. Qed.

(** The first step of the critical section of a fresh writer. *)
Lemma loadMetadata_in_init (p : string) (fo : bool) (tmo : Z) (w : World) (md0 : Metadata) :
  loaded_metadata p w = Some md0 ->
  loadMetadata (set_lock_depth 1 (mkIO p fo tmo false ∅ 0)) (acquired (p +:+ ".lock") w)
  = (Ok tt, mkIO p fo tmo false md0 1, metadata_loaded p md0 w).
Proof.
  unfold loaded_metadata. intros Hload.
  destruct (fs w !! (p +:+ ".metadata")) as [[db|md]|] eqn:Hm; [done| |].
  - injection Hload as ->.
    rewrite (loadMetadata_stored md0); [|done|].
    2:{ unfold metadataFile. cbn [dbFile set_lock_depth].
        rewrite fs_acquired_ne by apply lock_ne_metadata. exact Hm. }
    unfold metadata_loaded, set_fs. cbn [set_metadata set_lock_depth dbFile forceOverwrite
      timeout readOnly metadata lock_depth].
    rewrite insert_id; [by rewrite world_eta|].
    rewrite fs_acquired_ne by apply lock_ne_metadata. exact Hm.
  - injection Hload as <-.
    rewrite (loadMetadata_nested_fresh 0); [done|done|done|].
    unfold metadataFile. cbn [dbFile set_lock_depth].
    rewrite fs_acquired_ne by apply lock_ne_metadata. exact Hm.
Qed.

Ltac enter_critical_section Hrel Hload :=
  unfold MetricsDataIO_init, checkOutfileExists, bind at 1, get_self; cbn [readOnly];
  rewrite with_lock_outer by done;
  unfold finally, bind at 1; unfold lock_file at 1; cbn [dbFile];
  rewrite (loadMetadata_in_init _ _ _ _ _ Hload);
  unfold bind at 1, get_self; cbn [metadata].

(** The output file exists, nobody has claimed the path, overwriting is not
    allowed: the conflict is recorded in the sidecar and raised. *)
Lemma init_conflict (p : string) (tmo : Z) (w : World) (md0 : Metadata) :
  releasable (p +:+ ".lock") w ->
  loaded_metadata p w = Some md0 ->
  get_truthy md0 "dbError" = false ->
  get_truthy md0 "dbExists" = false ->
  is_Some (fs w !! p) ->
  MetricsDataIO_init p false false tmo w
  = (Raise (Exception (PStr (conflict_message p))),
     metadata_loaded p (<["dbError" := PStr (conflict_message p)]> md0) w).
Proof.
  intros Hrel Hload Herr Hex Hp.
  enter_critical_section Hrel Hload.
  rewrite Herr, Hex. cbn [negb].
  unfold bind at 1, path_exists. rewrite fs_metadata_loaded_db, bool_decide_true by done.
  cbn [forceOverwrite negb dbFile].
  unfold bind at 1, modify_self at 1. cbn [metadata set_metadata dbFile forceOverwrite
    timeout readOnly lock_depth].
  unfold bind at 1. rewrite (dumpMetadata_nested 0) by done.
  unfold metadataFile. cbn [dbFile metadata]. rewrite metadata_loaded_again.
  reflexivity.
Qed.

(** No output file and nobody has claimed the path: the constructor
    returns and the record is left as loaded. *)
Lemma init_absent (p : string) (fo : bool) (tmo : Z) (w : World) (md0 : Metadata) :
  releasable (p +:+ ".lock") w ->
  loaded_metadata p w = Some md0 ->
  get_truthy md0 "dbError" = false ->
  get_truthy md0 "dbExists" = false ->
  fs w !! p = None ->
  MetricsDataIO_init p fo false tmo w
  = (Ok (mkIO p fo tmo false md0 0), metadata_loaded p md0 w).
Proof.
  intros Hrel Hload Herr Hex Hp.
  enter_critical_section Hrel Hload.
  rewrite Herr, Hex. cbn [negb].
  unfold bind at 1, path_exists. rewrite fs_metadata_loaded_db, Hp.
  rewrite bool_decide_false by (intros [? ?]; done).
  reflexivity.
Qed.

(** The path is already claimed ([dbExists] set): the constructor returns
    without looking at the output file. *)
Lemma init_claimed (p : string) (fo : bool) (tmo : Z) (w : World) (md0 : Metadata) :
  releasable (p +:+ ".lock") w ->
  loaded_metadata p w = Some md0 ->
  get_truthy md0 "dbError" = false ->
  get_truthy md0 "dbExists" = true ->
  MetricsDataIO_init p fo false tmo w
  = (Ok (mkIO p fo tmo false md0 0), metadata_loaded p md0 w).
Proof.
  intros Hrel Hload Herr Hex.
  enter_critical_section Hrel Hload.
  rewrite Herr, Hex. reflexivity.
Qed.

(** The output file exists, nobody has claimed the path, overwriting is
    allowed: the file is removed and the claim recorded. *)
Lemma init_overwrite (p : string) (tmo : Z) (w : World) (md0 : Metadata) :
  releasable (p +:+ ".lock") w ->
  loaded_metadata p w = Some md0 ->
  get_truthy md0 "dbError" = false ->
  get_truthy md0 "dbExists" = false ->
  is_Some (fs w !! p) ->
  MetricsDataIO_init p true false tmo w
  = (Ok (mkIO p true tmo false (<["dbExists" := PBool true]> md0) 0),
     set_fs <[p +:+ ".metadata" := FPickle (<["dbExists" := PBool true]> md0)]>
       (set_fs (delete p) (metadata_loaded p md0 w))).
Proof.
  intros Hrel Hload Herr Hex Hp.
  enter_critical_section Hrel Hload.
  rewrite Herr, Hex. cbn [negb].
  unfold bind at 1, path_exists. rewrite fs_metadata_loaded_db, bool_decide_true by done.
  cbn [forceOverwrite negb dbFile].
  unfold bind at 1, os_remove. rewrite fs_metadata_loaded_db.
  destruct Hp as [f Hp]. rewrite Hp.
  unfold bind at 1, modify_self at 1. cbn [metadata set_metadata dbFile forceOverwrite
    timeout readOnly lock_depth].
  rewrite (dumpMetadata_nested 0) by done.
  reflexivity.
Qed.

Lemma conflict_message_truthy (p : string) : truthy (PStr (conflict_message p)) = true.
Proof. reflexivity. Qed.

Lemma releasable_acquired (lf : string) (w : World) : releasable lf (acquired lf w).
Proof. unfold releasable, acquired. cbn [locks set_locks set_fs]. by rewrite lookup_delete_eq. Qed.

Lemma releasable_metadata_loaded (p : string) (md : Metadata) (w : World) :
  releasable (p +:+ ".lock") (metadata_loaded p md w).
Proof. apply releasable_acquired. Qed.

(** C1.  The output file exists, the loaded record has neither [dbExists]
    nor [dbError], overwriting is not asked for: the constructor of a
    writer stores the conflict message under [dbError] in the sidecar and
    raises it; every writer built later on that path, whose loaded record
    holds that [dbError], raises the same string. *)
Theorem C1_conflict_committed (p : string) (tmo : Z) (w : World) (md0 : Metadata) :
  releasable (p +:+ ".lock") w ->
  is_Some (fs w !! p) ->
  loaded_metadata p w = Some md0 ->
  md0 !! "dbExists" = None ->
  md0 !! "dbError" = None ->
  exists w',
    MetricsDataIO_init p false false tmo w = (Raise (Exception (PStr (conflict_message p))), w')
    /\ fs w' !! (p +:+ ".metadata")
       = Some (FPickle (<["dbError" := PStr (conflict_message p)]> md0))
    /\ (forall fo tmo',
          fst (MetricsDataIO_init p fo false tmo' w')
          = Raise (Exception (PStr (conflict_message p))))
    /\ (forall fo tmo' w2 md2,
          releasable (p +:+ ".lock") w2 ->
          fs w2 !! (p +:+ ".metadata") = Some (FPickle md2) ->
          md2 !! "dbError" = Some (PStr (conflict_message p)) ->
          fst (MetricsDataIO_init p fo false tmo' w2)
          = Raise (Exception (PStr (conflict_message p)))).
Proof.
  intros Hrel Hp Hload Hex Herr.
  assert (Hlater : forall fo tmo' w2 md2,
    releasable (p +:+ ".lock") w2 ->
    fs w2 !! (p +:+ ".metadata") = Some (FPickle md2) ->
    md2 !! "dbError" = Some (PStr (conflict_message p)) ->
    fst (MetricsDataIO_init p fo false tmo' w2) = Raise (Exception (PStr (conflict_message p)))).
  { intros fo tmo' w2 md2 Hrel2 Hm2 Herr2.
    by rewrite (init_stored_error p fo tmo' w2 md2 (PStr (conflict_message p))). }
  eexists. split.
  - apply init_conflict; try done; unfold get_truthy; by rewrite ?Herr, ?Hex.
  - split; [apply fs_metadata_loaded_sidecar|]. split; [|exact Hlater].
    intros fo tmo'. eapply Hlater.
    + apply releasable_metadata_loaded.
    + apply fs_metadata_loaded_sidecar.
    + apply lookup_insert_eq.
Qed.

Lemma C1_conflict_committed_witness :
  releasable "out.sqlite.lock" preexisting_world
  /\ is_Some (fs preexisting_world !! "out.sqlite")
  /\ loaded_metadata "out.sqlite" preexisting_world = Some ∅
  /\ (∅ : Metadata) !! "dbExists" = None
  /\ (∅ : Metadata) !! "dbError" = None
  /\ exists w',
       MetricsDataIO_init "out.sqlite" false false 900 preexisting_world
       = (Raise (Exception (PStr (conflict_message "out.sqlite"))), w')
       /\ forall fo tmo',
            fst (MetricsDataIO_init "out.sqlite" fo false tmo' w')
            = Raise (Exception (PStr (conflict_message "out.sqlite"))).
Proof.
  assert (Hrel : releasable "out.sqlite.lock" preexisting_world)
    by (unfold releasable; vm_compute; discriminate).
  assert (Hp : is_Some (fs preexisting_world !! "out.sqlite"))
    by (vm_compute; eexists; reflexivity).
  assert (Hload : loaded_metadata "out.sqlite" preexisting_world = Some ∅)
    by (vm_compute; reflexivity).
  split; [exact Hrel|]. split; [exact Hp|]. split; [exact Hload|].
  split; [apply lookup_empty|]. split; [apply lookup_empty|].
  destruct (C1_conflict_committed "out.sqlite" 900 preexisting_world ∅ Hrel Hp Hload
              (lookup_empty _) (lookup_empty _)) as (w' & Hinit & _ & Hsame & _).
  exists w'. split; [exact Hinit|exact Hsame].
Defined.

(** C2 (the code departs from it).  A first writer on a path with no output
    file and no sidecar: the constructor returns, and the sidecar it leaves
    holds the empty record, with no [dbExists].  Once that writer has
    dumped, a second writer with the same arguments finds the file,
    finds the path unclaimed, and is rejected with the conflict message. *)
Theorem C2_absent_file_leaves_path_unclaimed :
  exists io w1 w2,
    MetricsDataIO_init "out.sqlite" false false 900 empty_world = (Ok io, w1)
    /\ fs w1 !! "out.sqlite.metadata" = Some (FPickle ∅)
    /\ metadata io !! "dbExists" = None
    /\ call (dump [sample_epoch]) io w1 = (Ok tt, w2)
    /\ fs w2 !! "out.sqlite.metadata" = Some (FPickle ∅)
    /\ fst (MetricsDataIO_init "out.sqlite" false false 900 w2)
       = Raise (Exception (PStr (conflict_message "out.sqlite"))).
Proof.
  assert (Hrel : releasable ("out.sqlite" +:+ ".lock") empty_world)
    by (unfold releasable; vm_compute; discriminate).
  eexists _, _, _. split.
  { apply (init_absent "out.sqlite" false 900 empty_world ∅ Hrel); reflexivity. }
  split; [apply fs_metadata_loaded_sidecar|]. split; [reflexivity|].
  split.
  { unfold call. rewrite dump_run; [reflexivity|reflexivity| | |discriminate].
    - unfold writable. cbn [dbFile]. rewrite fs_metadata_loaded_db. exact I.
    - unfold db_at. cbn [dbFile]. rewrite fs_metadata_loaded_db.
      apply (bool_decide_unpack _). vm_compute. exact I. }
  split.
  { cbn [fs]. rewrite lookup_insert_ne by (vm_compute; discriminate).
    apply fs_metadata_loaded_sidecar. }
  erewrite init_conflict; [reflexivity| | | | |].
  - unfold releasable. cbn [locks]. apply releasable_metadata_loaded.
  - unfold loaded_metadata. cbn [fs dbFile].
    rewrite lookup_insert_ne by (vm_compute; discriminate).
    by rewrite fs_metadata_loaded_sidecar.
  - reflexivity.
  - reflexivity.
  - cbn [fs dbFile]. rewrite lookup_insert_eq. by eexists.
Qed.

(** ** The lock and the timeout argument *)

Section NoLockTimeout.
Context {A B : Type}.

Lemma nlt_ret (a : A) : no_lock_timeout (ret a).
Proof. intros self w lf. discriminate. Qed.

Lemma nlt_raise (e : exn) : (forall lf, e <> LockTimeout lf) -> no_lock_timeout (@raise A e).
Proof. intros He self w lf [= Heq]. by apply (He lf). Qed.

Lemma nlt_bind (m : M A) (k : A -> M B) :
  no_lock_timeout m -> (forall a, no_lock_timeout (k a)) -> no_lock_timeout (bind m k).
Proof.
  intros Hm Hk self w lf. unfold bind.
  specialize (Hm self w lf).
  destruct (m self w) as [[[a|e|] self'] w']; simpl in *; [apply Hk| |done].
  intros [= ->]. by apply Hm.
Qed.

Lemma nlt_finally (body : M A) (cleanup : M unit) :
  no_lock_timeout body -> no_lock_timeout cleanup -> no_lock_timeout (finally body cleanup).
Proof.
  intros Hb Hc self w lf. unfold finally.
  specialize (Hb self w lf).
  destruct (body self w) as [[[a|e|] self'] w']; simpl in *; [| |done].
  all: specialize (Hc self' w' lf).
  all: destruct (cleanup self' w') as [[[u|e'|] self''] w'']; simpl in *; try done.
  all: intros [= ->]; by apply Hc.
Qed.
End NoLockTimeout.

Lemma nlt_acquire_default : no_lock_timeout (FileLock_acquire FileLock_default_timeout).
Proof.
  intros self w lf. unfold FileLock_acquire.
  destruct (lock_depth self); [|discriminate].
  destruct (locks w !! lock_file self) as [[d|]|]; simpl; discriminate.
Qed.

Lemma nlt_with_lock {A} (body : M A) : no_lock_timeout body -> no_lock_timeout (with_lock body).
Proof.
  intros Hb. unfold with_lock. apply nlt_bind; [apply nlt_acquire_default|].
  intros _. apply nlt_finally; [done|]. intros self w lf. discriminate.
Qed.

Lemma nlt_checkReadOnly {A} (func : M A) :
  no_lock_timeout func -> no_lock_timeout (checkReadOnly func).
Proof.
  intros Hf self w lf. unfold checkReadOnly, bind, get_self.
  destruct (readOnly self); [discriminate|apply Hf].
Qed.

Lemma nlt_dumpMetadata : no_lock_timeout dumpMetadata.
Proof.
  apply nlt_checkReadOnly, nlt_with_lock. intros self w lf. discriminate.
Qed.

(** Steps that raise nothing, or something other than a lock timeout. *)
Ltac nlt_step :=
  intros ? ? ?;
  unfold get_self, path_exists, pickle_load, pickle_dump, os_remove, modify_self,
    modify_world, ret, raise, raise_stored_error, bind;
  repeat case_match; simpl; discriminate.

Lemma nlt_loadMetadata : no_lock_timeout loadMetadata.
Proof.
  apply nlt_checkReadOnly.
  apply nlt_bind; [nlt_step|]. intros self.
  apply nlt_bind; [nlt_step|]. intros present.
  apply nlt_bind; [destruct (negb present); [apply nlt_dumpMetadata|nlt_step]|]. intros _.
  apply nlt_bind; [nlt_step|]. intros md. nlt_step.
Qed.

Lemma nlt_checkOutfileExists : no_lock_timeout checkOutfileExists.
Proof.
  apply nlt_bind; [nlt_step|]. intros self.
  destruct (readOnly self); [nlt_step|].
  apply nlt_with_lock.
  apply nlt_bind; [apply nlt_loadMetadata|]. intros _.
  apply nlt_bind; [nlt_step|]. intros self'.
  destruct (get_truthy (metadata self') "dbError"); [nlt_step|].
  destruct (negb (get_truthy (metadata self') "dbExists")); [|nlt_step].
  apply nlt_bind; [nlt_step|]. intros present.
  destruct present; [|nlt_step].
  destruct (negb (forceOverwrite self')).
  - apply nlt_bind; [nlt_step|]. intros _.
    apply nlt_bind; [apply nlt_dumpMetadata|]. intros _. nlt_step.
  - apply nlt_bind; [nlt_step|]. intros _.
    apply nlt_bind; [nlt_step|]. intros _. apply nlt_dumpMetadata.
Qed.

Lemma init_blocked (p : string) (fo : bool) (tmo : Z) (w : World) :
  locks w !! (p +:+ ".lock") = Some HeldForever ->
  fst (MetricsDataIO_init p fo false tmo w) = Hang.
Proof.
  intros Hl. unfold MetricsDataIO_init, checkOutfileExists, bind at 1, get_self.
  cbn [readOnly].
  match goal with
  | |- context [with_lock ?body ?self w] =>
      pose proof (with_lock_blocked body self w eq_refl Hl) as Hb;
      destruct (with_lock body self w) as [[r self'] w']
  end.
  simpl in Hb. by subst r.
Qed.

Lemma to_sql_log (p name : string) (df : DataFrame) (self : MetricsDataIO) (w : World) :
  exists rest, sql_log (snd (to_sql p name df self w)) = sql_log w ++ rest.
Proof.
  unfold to_sql. repeat case_match; cbn [snd sql_log log_event set_fs].
  all: try (exists []; by rewrite app_nil_r).
  all: by eexists.
Qed.

Lemma tables_loop_log (p sfx : string) (e : Epoch) :
  forall (self : MetricsDataIO) (w : World),
    exists rest,
      sql_log (snd (for_each e (fun '(tableName, tableData) =>
        df <- pd_DataFrame tableData ;;
        let df := convert_gpu_util df in
        to_sql p (tableName +:+ sfx) df) self w))
      = sql_log w ++ rest.
Proof.
  induction e as [|[name df] e IH]; intros self w.
  - exists []. simpl. by rewrite app_nil_r.
  - cbn [for_each]. unfold bind at 1, bind at 1, pd_DataFrame.
    destruct (bool_decide (rectangular df)).
    + unfold ret at 1.
      destruct (to_sql_log p (name +:+ sfx) (convert_gpu_util (upcast <$> df)) self w)
        as [r1 Hr1].
      destruct (to_sql p (name +:+ sfx) (convert_gpu_util (upcast <$> df)) self w)
        as [[[u|ex|] self1] w1]; cbn [snd] in *; [|by eexists|by eexists].
      edestruct IH as [rest ->]. rewrite Hr1. eexists. by rewrite <- app_assoc.
    + exists []. cbn. by rewrite app_nil_r.
Qed.

(** The timeout of the object is the one [dumpEpoch] gives the connection. *)
Lemma dumpEpoch_connect_timeout (e : Epoch) (sfx : string) (self : MetricsDataIO) (w : World) :
  exists rest,
    sql_log (snd (dumpEpoch e sfx self w))
    = sql_log w ++ EvConnect (dbFile self) (Some (timeout self)) :: rest.
Proof.
  unfold dumpEpoch, bind at 1, get_self, bind at 1, sqlite3_connect, modify_world.
  edestruct tables_loop_log as [rest ->]. exists rest.
  destruct (fs w !! dbFile self); cbn [sql_log log_event set_fs]; by rewrite <- app_assoc.
Qed.

(** C3 (as the code has it).  The timeout argument never reaches the lock:
    the lock is taken with the library default, which waits without bound.
    So a writer built while another process holds the lock for ever never
    returns, whatever its timeout (0 included); no constructor call fails
    with a lock timeout; a lock that is free or released after a finite
    hold is obtained whatever the timeout; the timeout is what [dumpEpoch]
    passes to the database connection; and an acquisition that was given
    the timeout would raise the lock timeout on a lock held for ever. *)
Theorem C3_lock_waits_without_bound (p : string) (fo : bool) (tmo : Z) (w : World) :
  (locks w !! (p +:+ ".lock") = Some HeldForever ->
     fst (MetricsDataIO_init p fo false tmo w) = Hang)
  /\ (forall lf, fst (MetricsDataIO_init p fo false tmo w) <> Raise (LockTimeout lf))
  /\ (releasable (p +:+ ".lock") w ->
       FileLock_acquire FileLock_default_timeout (mkIO p fo tmo false ∅ 0) w
       = (Ok tt, mkIO p fo tmo false ∅ 1, acquired (p +:+ ".lock") w))
  /\ (forall (self : MetricsDataIO) (e : Epoch) (sfx : string),
        timeout self = tmo ->
        exists rest,
          sql_log (snd (dumpEpoch e sfx self w))
          = sql_log w ++ EvConnect (dbFile self) (Some tmo) :: rest)
  /\ (locks w !! (p +:+ ".lock") = Some HeldForever ->
       0 <= tmo ->
       fst (fst (FileLock_acquire tmo (mkIO p fo tmo false ∅ 0) w))
       = Raise (LockTimeout (p +:+ ".lock"))).
Proof.
  split; [apply init_blocked|]. split; [|split; [|split]].
  4:{ intros Hl Htmo. unfold FileLock_acquire, lock_file. cbn [lock_depth dbFile].
      rewrite Hl. by rewrite (proj2 (Z.leb_le 0 tmo) Htmo). }
  - intros lf. unfold MetricsDataIO_init.
    pose proof (nlt_checkOutfileExists (mkIO p fo tmo false ∅ 0) w lf) as Hn.
    destruct (checkOutfileExists _ w) as [[[u|e|] self'] w']; simpl in *; try done.
    intros [= ->]. by apply Hn.
  - intros Hrel. by rewrite acquire_default_run.
  - intros self e sfx <-. apply dumpEpoch_connect_timeout.
Qed.

Lemma C3_lock_waits_without_bound_witness :
  locks held_world !! ("out.sqlite" +:+ ".lock") = Some HeldForever
  /\ fst (MetricsDataIO_init "out.sqlite" false false 0 held_world) = Hang.
Proof.
  split; [vm_compute; reflexivity|].
  apply (proj1 (C3_lock_waits_without_bound "out.sqlite" false 0 held_world)).
  vm_compute; reflexivity.
Defined.

(** The claim of a timeout on the lock fails: timeout 0, lock held. *)
Lemma C3_timeout_zero_blocks :
  locks held_world !! "out.sqlite.lock" = Some HeldForever
  /\ fst (MetricsDataIO_init "out.sqlite" false false 0 held_world) = Hang
  /\ fst (MetricsDataIO_init "out.sqlite" false false 0 held_world)
     <> Raise (LockTimeout "out.sqlite.lock").
Proof.
  assert (Hrun : fst (MetricsDataIO_init "out.sqlite" false false 0 held_world) = Hang)
    by (vm_compute; reflexivity).
  split; [vm_compute; reflexivity|]. split; [exact Hrun|]. rewrite Hrun. discriminate.
Qed.

(** ** The targets of a rank *)

(** C9 (as the code has it).  When the list of GPUs of the step is absent,
    and both the job id and an integer rank index are present, the GPU ids
    are the one-element list holding the rank index modulo 4, a number
    from 0 to 3. *)
Theorem C9_fallback_target (environ : gmap string string) (jobId text : string) (procId : Z) :
  environ !! "SLURM_STEP_GPUS" = None ->
  environ !! "SLURM_JOB_ID" = Some jobId ->
  environ !! "SLURM_PROCID" = Some text ->
  py_int (list_ascii_of_string text) = Some procId ->
  profile_gpuIds environ = Ok (jobId, [procId mod 4])
  /\ 0 <= procId mod 4 < 4.
Proof.
  intros Hgpus Hjob Hproc Hint. split; [|by apply Z.mod_pos_bound].
  unfold profile_gpuIds, slurm_step_gpus, slurm_procid_fallback, environ_get, int_of.
  by rewrite Hjob, Hgpus, Hproc, Hint.
Qed.

Lemma C9_fallback_target_witness :
  fallback_environ !! "SLURM_STEP_GPUS" = None
  /\ fallback_environ !! "SLURM_JOB_ID" = Some "4242"
  /\ fallback_environ !! "SLURM_PROCID" = Some "6"
  /\ py_int (list_ascii_of_string "6") = Some 6
  /\ profile_gpuIds fallback_environ = Ok ("4242", [6 mod 4])
  /\ 0 <= 6 mod 4 < 4.
Proof.
  split; [vm_compute; reflexivity|]. split; [vm_compute; reflexivity|].
  split; [vm_compute; reflexivity|]. split; [reflexivity|].
  apply (C9_fallback_target fallback_environ "4242" "6" 6); vm_compute; reflexivity.
Defined.

(** The rank index alone is not enough: without the job id the handler
    raises [KeyError] and no GPU list is produced. *)
Lemma C9_rank_without_job_id :
  rank_only_environ !! "SLURM_STEP_GPUS" = None
  /\ rank_only_environ !! "SLURM_PROCID" = Some "5"
  /\ py_int (list_ascii_of_string "5") = Some 5
  /\ profile_gpuIds rank_only_environ = Raise (KeyError "SLURM_JOB_ID")
  /\ forall jobId, profile_gpuIds rank_only_environ <> Ok (jobId, [5 mod 4]).
Proof.
  assert (Hrun : profile_gpuIds rank_only_environ = Raise (KeyError "SLURM_JOB_ID"))
    by (vm_compute; reflexivity).
  split; [vm_compute; reflexivity|]. split; [vm_compute; reflexivity|].
  split; [reflexivity|]. split; [exact Hrun|].
  intros jobId. rewrite Hrun. discriminate.
Qed.

(** ** Every way the constructor of a writer can end *)

Lemma metadata_loaded_stored (p : string) (md : Metadata) (w : World) :
  fs w !! (p +:+ ".metadata") = Some (FPickle md) ->
  metadata_loaded p md w = acquired (p +:+ ".lock") w.
Proof.
  intros Hm. unfold metadata_loaded, set_fs.
  rewrite insert_id; [by rewrite world_eta|].
  rewrite fs_acquired_ne by apply lock_ne_metadata. exact Hm.
Qed.

Lemma init_blocked_world (p : string) (fo : bool) (tmo : Z) (w : World) :
  locks w !! (p +:+ ".lock") = Some HeldForever ->
  MetricsDataIO_init p fo false tmo w = (Hang, set_fs <[p +:+ ".lock" := FDb ∅]> w).
Proof.
  intros Hl. unfold MetricsDataIO_init, checkOutfileExists, bind at 1, get_self.
  cbn [readOnly]. unfold with_lock, bind at 1, FileLock_acquire, lock_file.
  cbn [lock_depth dbFile]. by rewrite Hl.
Qed.

Lemma init_foreign_sidecar (p : string) (fo : bool) (tmo : Z) (w : World) (db : Database) :
  releasable (p +:+ ".lock") w ->
  fs w !! (p +:+ ".metadata") = Some (FDb db) ->
  MetricsDataIO_init p fo false tmo w
  = (Raise (PickleError (p +:+ ".metadata")), acquired (p +:+ ".lock") w).
Proof.
  intros Hrel Hm.
  unfold MetricsDataIO_init, checkOutfileExists, bind at 1, get_self. cbn [readOnly].
  rewrite with_lock_outer by done.
  unfold finally, bind at 1, loadMetadata. rewrite checkReadOnly_passes by done.
  unfold bind at 1, get_self, bind at 1, path_exists, metadataFile, lock_file.
  cbn [dbFile set_lock_depth].
  rewrite fs_acquired_ne by apply lock_ne_metadata.
  rewrite Hm, bool_decide_true by by eexists. cbn [negb].
  unfold bind, ret, pickle_load.
  rewrite fs_acquired_ne by apply lock_ne_metadata. by rewrite Hm.
Qed.

Lemma init_recorded_error (p : string) (fo : bool) (tmo : Z) (w : World)
    (md0 : Metadata) (v : pyval) :
  releasable (p +:+ ".lock") w ->
  loaded_metadata p w = Some md0 ->
  md0 !! "dbError" = Some v ->
  truthy v = true ->
  MetricsDataIO_init p fo false tmo w = (Raise (Exception v), metadata_loaded p md0 w).
Proof.
  intros Hrel Hload Herr Htrue. unfold loaded_metadata in Hload.
  destruct (fs w !! (p +:+ ".metadata")) as [[db|md]|] eqn:Hm; [done| |].
  - injection Hload as ->. rewrite metadata_loaded_stored by done.
    by apply (init_stored_error p fo tmo w md0 v).
  - injection Hload as <-. by rewrite lookup_empty in Herr.
Qed.

Lemma init_ends_releasable (p : string) (fo : bool) (tmo : Z) (w : World) :
  releasable (p +:+ ".lock") w ->
  init_ending p fo tmo w (fst (MetricsDataIO_init p fo false tmo w))
    (snd (MetricsDataIO_init p fo false tmo w)).
Proof.
  intros Hrel.
  destruct (loaded_metadata p w) as [md0|] eqn:Hload.
  2:{ unfold loaded_metadata in Hload.
      destruct (fs w !! (p +:+ ".metadata")) as [[db|md]|] eqn:Hm; [|done|done].
      rewrite (init_foreign_sidecar p fo tmo w db) by done. by econstructor. }
  destruct (get_truthy md0 "dbError") eqn:Herr.
  { unfold get_truthy in Herr. destruct (md0 !! "dbError") as [v|] eqn:Hv; [|done].
    rewrite (init_recorded_error p fo tmo w md0 v) by done. by econstructor. }
  destruct (get_truthy md0 "dbExists") eqn:Hex.
  { rewrite (init_claimed p fo tmo w md0) by done. by constructor. }
  destruct (fs w !! p) as [f|] eqn:Hp.
  2:{ rewrite (init_absent p fo tmo w md0) by done. by constructor. }
  destruct fo.
  - rewrite (init_overwrite p tmo w md0) by done. by constructor.
  - rewrite (init_conflict p tmo w md0) by done. by constructor.
Qed.

Lemma init_ends (p : string) (fo : bool) (tmo : Z) (w : World) :
  init_ending p fo tmo w (fst (MetricsDataIO_init p fo false tmo w))
    (snd (MetricsDataIO_init p fo false tmo w)).
Proof.
  destruct (locks w !! (p +:+ ".lock")) as [[d|]|] eqn:Hl.
  - apply init_ends_releasable. unfold releasable. by rewrite Hl.
  - rewrite init_blocked_world by done. by constructor.
  - apply init_ends_releasable. unfold releasable. by rewrite Hl.
Qed.

Lemma fs_acquired_lock (lf : string) (w : World) : fs (acquired lf w) !! lf = Some (FDb ∅).
Proof. unfold acquired. cbn [fs set_fs set_locks]. apply lookup_insert_eq. Qed.

Lemma fs_metadata_loaded_lock (p : string) (md : Metadata) (w : World) :
  fs (metadata_loaded p md w) !! (p +:+ ".lock") = Some (FDb ∅).
Proof.
  unfold metadata_loaded. cbn [set_fs fs].
  rewrite lookup_insert_ne by (intros Heq; by apply (lock_ne_metadata p)).
  apply fs_acquired_lock.
Qed.

Lemma fs_metadata_loaded_other (p k : string) (md : Metadata) (w : World) :
  k <> p +:+ ".lock" -> k <> p +:+ ".metadata" ->
  fs (metadata_loaded p md w) !! k = fs w !! k.
Proof.
  intros Hl Hm. unfold metadata_loaded. cbn [set_fs fs].
  rewrite lookup_insert_ne by done. by apply fs_acquired_ne.
Qed.

Lemma get_truthy_insert_ne (md : Metadata) (k k' : string) (v : pyval) :
  k <> k' -> get_truthy (<[k := v]> md) k' = get_truthy md k'.
Proof. intros Hne. unfold get_truthy. by rewrite lookup_insert_ne. Qed.

(** X1.  What a writer's constructor leaves when it returns: an object with
    the arguments it was given and the lock released, a sidecar that holds
    the record the object holds, no recorded error, and a lock file. *)
Theorem init_returns_consistent (p : string) (fo : bool) (tmo : Z) (w w' : World)
    (io : MetricsDataIO) :
  MetricsDataIO_init p fo false tmo w = (Ok io, w') ->
  io = mkIO p fo tmo false (metadata io) 0
  /\ fs w' !! (p +:+ ".metadata") = Some (FPickle (metadata io))
  /\ get_truthy (metadata io) "dbError" = false
  /\ fs w' !! (p +:+ ".lock") = Some (FDb ∅)
  /\ (fo = false -> fs w' !! p = fs w !! p).
Proof.
  intros Hinit. pose proof (init_ends p fo tmo w) as Hend.
  rewrite Hinit in Hend. cbn [fst snd] in Hend.
  inversion Hend; subst; cbn [metadata].
  - repeat split; [apply fs_metadata_loaded_sidecar|done|apply fs_metadata_loaded_lock|].
    intros _. apply fs_metadata_loaded_db.
  - repeat split; [apply fs_metadata_loaded_sidecar|done|apply fs_metadata_loaded_lock|].
    intros _. apply fs_metadata_loaded_db.
  - repeat split; [| | |done].
    + cbn [set_fs fs]. apply lookup_insert_eq.
    + by rewrite get_truthy_insert_ne.
    + cbn [set_fs fs].
      rewrite lookup_insert_ne by (intros Heq; by apply (lock_ne_metadata p)).
      rewrite lookup_delete_ne by (intros Heq; by apply (lock_ne_db p)).
      apply fs_metadata_loaded_lock.
Qed.

Lemma init_returns_consistent_witness :
  MetricsDataIO_init "out.sqlite" true false 900 preexisting_world
  = (Ok (mkIO "out.sqlite" true 900 false {["dbExists" := PBool true]} 0),
     snd (MetricsDataIO_init "out.sqlite" true false 900 preexisting_world))
  /\ fs (snd (MetricsDataIO_init "out.sqlite" true false 900 preexisting_world))
       !! "out.sqlite.metadata"
     = Some (FPickle {["dbExists" := PBool true]}).
Proof.
  assert (Hrun : MetricsDataIO_init "out.sqlite" true false 900 preexisting_world
    = (Ok (mkIO "out.sqlite" true 900 false {["dbExists" := PBool true]} 0),
       snd (MetricsDataIO_init "out.sqlite" true false 900 preexisting_world)))
    by (vm_compute; reflexivity).
  split; [exact Hrun|].
  exact (proj1 (proj2 (init_returns_consistent _ _ _ _ _ _ Hrun))).
Defined.

Lemma init_leaves_other_paths (p k : string) (fo : bool) (tmo : Z) (w : World) :
  k <> p -> k <> p +:+ ".lock" -> k <> p +:+ ".metadata" ->
  fs (snd (MetricsDataIO_init p fo false tmo w)) !! k = fs w !! k
  /\ locks (snd (MetricsDataIO_init p fo false tmo w)) !! k = locks w !! k.
Proof.
  intros Hp Hl Hm. pose proof (init_ends p fo tmo w) as Hend.
  destruct (MetricsDataIO_init p fo false tmo w) as [r w']. cbn [fst snd] in *.
  assert (Hlocks : forall md, locks (metadata_loaded p md w) !! k = locks w !! k).
  { intros md. unfold metadata_loaded, acquired. cbn [locks set_fs set_locks].
    by rewrite lookup_delete_ne. }
  inversion Hend; subst; split; try done.
  all: try (by apply fs_metadata_loaded_other).
  all: try (by apply fs_acquired_ne).
  - unfold acquired. cbn [locks set_fs set_locks]. by rewrite lookup_delete_ne.
  - cbn [set_fs fs]. rewrite lookup_insert_ne, lookup_delete_ne by done.
    by apply fs_metadata_loaded_other.
  - apply Hlocks.
Qed.

(** X2.  The constructor of a writer changes no file but the output file,
    its lock file and its sidecar, leaves the output file alone unless
    [forceOverwrite] is set, calls nothing of the SQL layer, and touches no
    lock of another path. *)
Theorem init_touches_only_its_files (p : string) (fo : bool) (tmo : Z) (w : World) :
  (forall k, k <> p -> k <> p +:+ ".lock" -> k <> p +:+ ".metadata" ->
     fs (snd (MetricsDataIO_init p fo false tmo w)) !! k = fs w !! k)
  /\ (fo = false -> fs (snd (MetricsDataIO_init p fo false tmo w)) !! p = fs w !! p)
  /\ sql_log (snd (MetricsDataIO_init p fo false tmo w)) = sql_log w
  /\ (forall k, k <> p +:+ ".lock" ->
        locks (snd (MetricsDataIO_init p fo false tmo w)) !! k = locks w !! k).
Proof.
  pose proof (init_ends p fo tmo w) as Hend.
  destruct (MetricsDataIO_init p fo false tmo w) as [r w']. cbn [fst snd] in *.
  assert (Hlocks : forall md k, k <> p +:+ ".lock" ->
    locks (metadata_loaded p md w) !! k = locks w !! k).
  { intros md k Hk. unfold metadata_loaded, acquired. cbn [locks set_fs set_locks].
    by rewrite lookup_delete_ne. }
  assert (Hacq : forall k, k <> p +:+ ".lock" ->
    locks (acquired (p +:+ ".lock") w) !! k = locks w !! k).
  { intros k Hk. unfold acquired. cbn [locks set_fs set_locks]. by rewrite lookup_delete_ne. }
  inversion Hend; subst; repeat split; try done; intros.
  all: try (by apply fs_metadata_loaded_other).
  all: try apply fs_metadata_loaded_db.
  all: try (by apply fs_acquired_ne).
  all: try apply fs_acquired_ne, lock_ne_db.
  all: try (by apply Hlocks).
  cbn [set_fs fs]. rewrite lookup_insert_ne, lookup_delete_ne by done.
  by apply fs_metadata_loaded_other.
Qed.

(** ** Overwriting, claimed paths and recorded errors *)

(** X3.  An output file that exists on an unclaimed path, with
    [forceOverwrite]: the constructor removes the file (the old tables are
    gone), records [dbExists = True] in memory and in the sidecar, and
    returns. *)
Theorem init_overwrite_claims (p : string) (tmo : Z) (w : World) (md0 : Metadata) :
  releasable (p +:+ ".lock") w ->
  loaded_metadata p w = Some md0 ->
  get_truthy md0 "dbError" = false ->
  get_truthy md0 "dbExists" = false ->
  is_Some (fs w !! p) ->
  exists io w',
    MetricsDataIO_init p true false tmo w = (Ok io, w')
    /\ fs w' !! p = None
    /\ metadata io = <["dbExists" := PBool true]> md0
    /\ fs w' !! (p +:+ ".metadata") = Some (FPickle (metadata io))
    /\ get_truthy (metadata io) "dbExists" = true.
Proof.
  intros Hrel Hload Herr Hex Hp. eexists _, _.
  split; [by apply init_overwrite|]. cbn [metadata set_fs fs].
  split; [|split; [done|split]].
  - rewrite lookup_insert_ne by apply metadata_ne_db. apply lookup_delete_eq.
  - apply lookup_insert_eq.
  - unfold get_truthy. by rewrite lookup_insert_eq.
Qed.

Lemma init_overwrite_claims_witness :
  releasable ("out.sqlite" +:+ ".lock") stored_world
  /\ loaded_metadata "out.sqlite" stored_world = Some ∅
  /\ is_Some (fs stored_world !! "out.sqlite")
  /\ exists io w',
       MetricsDataIO_init "out.sqlite" true false 900 stored_world = (Ok io, w')
       /\ fs w' !! "out.sqlite" = None
       /\ metadata io = <["dbExists" := PBool true]> ∅.
Proof.
  assert (Hrel : releasable ("out.sqlite" +:+ ".lock") stored_world)
    by (unfold releasable; vm_compute; discriminate).
  assert (Hload : loaded_metadata "out.sqlite" stored_world = Some ∅)
    by (vm_compute; reflexivity).
  assert (Hp : is_Some (fs stored_world !! "out.sqlite"))
    by (vm_compute; eexists; reflexivity).
  split; [exact Hrel|]. split; [exact Hload|]. split; [exact Hp|].
  destruct (init_overwrite_claims "out.sqlite" 900 stored_world ∅ Hrel Hload eq_refl eq_refl Hp)
    as (io & w' & Hinit & Hgone & Hmd & _).
  exists io, w'. split; [exact Hinit|]. split; [exact Hgone|exact Hmd].
Defined.

(** X4.  Once a path is claimed ([dbExists] set, no error recorded), the
    constructor of any later writer returns with that record and changes
    neither the output file nor the sidecar, whether or not the output file
    exists and whether or not [forceOverwrite] is set: a second writer with
    [forceOverwrite] does not delete what the first one wrote. *)
Theorem claimed_path_is_kept (p : string) (fo : bool) (tmo : Z) (w : World) (md : Metadata) :
  releasable (p +:+ ".lock") w ->
  fs w !! (p +:+ ".metadata") = Some (FPickle md) ->
  get_truthy md "dbError" = false ->
  get_truthy md "dbExists" = true ->
  exists w',
    MetricsDataIO_init p fo false tmo w = (Ok (mkIO p fo tmo false md 0), w')
    /\ fs w' !! p = fs w !! p
    /\ fs w' !! (p +:+ ".metadata") = Some (FPickle md)
    /\ db_at p w' = db_at p w.
Proof.
  intros Hrel Hm Herr Hex.
  assert (Hload : loaded_metadata p w = Some md) by (unfold loaded_metadata; by rewrite Hm).
  eexists. split; [by apply init_claimed|].
  split; [apply fs_metadata_loaded_db|]. split; [apply fs_metadata_loaded_sidecar|].
  unfold db_at. by rewrite fs_metadata_loaded_db.
Qed.

Lemma claimed_path_is_kept_witness :
  releasable ("out.sqlite" +:+ ".lock") claimed_world
  /\ fs claimed_world !! ("out.sqlite" +:+ ".metadata")
     = Some (FPickle {["dbExists" := PBool true]})
  /\ exists w',
       MetricsDataIO_init "out.sqlite" true false 900 claimed_world
       = (Ok (mkIO "out.sqlite" true 900 false {["dbExists" := PBool true]} 0), w')
       /\ fs w' !! "out.sqlite" = fs claimed_world !! "out.sqlite".
Proof.
  assert (Hrel : releasable ("out.sqlite" +:+ ".lock") claimed_world)
    by (unfold releasable; vm_compute; discriminate).
  assert (Hm : fs claimed_world !! ("out.sqlite" +:+ ".metadata")
               = Some (FPickle {["dbExists" := PBool true]}))
    by (vm_compute; reflexivity).
  split; [exact Hrel|]. split; [exact Hm|].
  destruct (claimed_path_is_kept "out.sqlite" true 900 claimed_world _ Hrel Hm eq_refl eq_refl)
    as (w' & Hinit & Hp & _).
  exists w'. split; [exact Hinit|exact Hp].
Defined.

Lemma after_writers_rejected (n : nat) (p : string) (fo : bool) (tmo : Z) (w : World)
    (md : Metadata) (v : pyval) :
  releasable (p +:+ ".lock") w ->
  fs w !! (p +:+ ".metadata") = Some (FPickle md) ->
  md !! "dbError" = Some v ->
  truthy v = true ->
  releasable (p +:+ ".lock") (after_writers n p fo tmo w)
  /\ fs (after_writers n p fo tmo w) !! (p +:+ ".metadata") = Some (FPickle md)
  /\ fs (after_writers n p fo tmo w) !! p = fs w !! p.
Proof.
  intros Hrel Hm Herr Htrue. induction n as [|n (IHrel & IHm & IHp)]; [done|].
  cbn [after_writers].
  rewrite (init_stored_error p fo tmo _ md v) by done. cbn [snd].
  split; [apply releasable_acquired|]. split.
  - rewrite fs_acquired_ne by apply lock_ne_metadata. exact IHm.
  - rewrite fs_acquired_ne by apply lock_ne_db. exact IHp.
Qed.

(** X5.  A recorded error is permanent: with a true [dbError] in the
    sidecar, however many writers are built on the path, each one raises
    the stored value, with or without [forceOverwrite], whether or not the
    output file is there; the sidecar and the output file stay as they
    were, so nothing the class does clears the error. *)
Theorem recorded_error_is_permanent (n : nat) (p : string) (fo : bool) (tmo : Z) (w : World)
    (md : Metadata) (v : pyval) :
  releasable (p +:+ ".lock") w ->
  fs w !! (p +:+ ".metadata") = Some (FPickle md) ->
  md !! "dbError" = Some v ->
  truthy v = true ->
  fst (MetricsDataIO_init p fo false tmo (after_writers n p fo tmo w)) = Raise (Exception v)
  /\ fs (after_writers (S n) p fo tmo w) !! (p +:+ ".metadata") = Some (FPickle md)
  /\ fs (after_writers (S n) p fo tmo w) !! p = fs w !! p.
Proof.
  intros Hrel Hm Herr Htrue.
  destruct (after_writers_rejected n p fo tmo w md v) as (Hrel' & Hm' & Hp'); try done.
  split; [by rewrite (init_stored_error p fo tmo _ md v)|].
  destruct (after_writers_rejected (S n) p fo tmo w md v) as (_ & Hm'' & Hp''); done.
Qed.

Lemma recorded_error_is_permanent_witness :
  releasable ("out.sqlite" +:+ ".lock") rejected_world
  /\ fs rejected_world !! ("out.sqlite" +:+ ".metadata")
     = Some (FPickle {["dbError" := PStr (conflict_message "out.sqlite")]})
  /\ fs rejected_world !! "out.sqlite" = None
  /\ fst (MetricsDataIO_init "out.sqlite" true false 900
            (after_writers 3 "out.sqlite" true 900 rejected_world))
     = Raise (Exception (PStr (conflict_message "out.sqlite"))).
Proof.
  assert (Hrel : releasable ("out.sqlite" +:+ ".lock") rejected_world)
    by (unfold releasable; vm_compute; discriminate).
  assert (Hm : fs rejected_world !! ("out.sqlite" +:+ ".metadata")
               = Some (FPickle {["dbError" := PStr (conflict_message "out.sqlite")]}))
    by (vm_compute; reflexivity).
  split; [exact Hrel|]. split; [exact Hm|]. split; [vm_compute; reflexivity|].
  apply (recorded_error_is_permanent 3 "out.sqlite" true 900 rejected_world _ _ Hrel Hm);
    [apply lookup_singleton_eq|reflexivity].
Defined.

(** ** Readers, and what the read-only guard leaves open *)

(** X6.  A read-only coordinator never waits: its constructor returns at
    once and changes nothing (no lock file, no sidecar), and [load] then
    returns the tables of the file (a database whose table names hold no
    double quote) without touching a lock, even while another process
    holds the lock of the path for ever, a state in which the constructor
    of a writer never returns. *)
Theorem reader_never_waits (p : string) (fo : bool) (tmo : Z) (w : World) (db : Database) :
  fs w !! p = Some (FDb db) ->
  quote_free db ->
  MetricsDataIO_init p fo true tmo w = (Ok (mkIO p fo tmo true ∅ 0), w)
  /\ (exists w',
        load (mkIO p fo tmo true ∅ 0) w = (Ok db, mkIO p fo tmo true ∅ 0, w')
        /\ fs w' = fs w /\ locks w' = locks w)
  /\ (locks w !! (p +:+ ".lock") = Some HeldForever ->
      fst (MetricsDataIO_init p fo false tmo w) = Hang).
Proof.
  intros Hp Hquote. split; [done|]. split; [|apply init_blocked].
  eexists. split; [by apply load_run|done].
Qed.

Lemma reader_never_waits_witness :
  fs stored_held_world !! "out.sqlite" = Some (FDb two_epoch_db)
  /\ quote_free two_epoch_db
  /\ MetricsDataIO_init "out.sqlite" false true 900 stored_held_world
     = (Ok sample_reader, stored_held_world)
  /\ (exists w', load sample_reader stored_held_world = (Ok two_epoch_db, sample_reader, w'))
  /\ fst (MetricsDataIO_init "out.sqlite" false false 900 stored_held_world) = Hang.
Proof.
  assert (Hp : fs stored_held_world !! "out.sqlite" = Some (FDb two_epoch_db))
    by (vm_compute; reflexivity).
  assert (Hquote : quote_free two_epoch_db)
    by (apply (bool_decide_unpack _); vm_compute; exact I).
  split; [exact Hp|]. split; [exact Hquote|].
  destruct (reader_never_waits "out.sqlite" false 900 stored_held_world two_epoch_db Hp Hquote)
    as (Hinit & (w' & Hload & _) & Hhang).
  split; [exact Hinit|]. split; [exists w'; exact Hload|]. apply Hhang. vm_compute; reflexivity.
Defined.

(** X7.  [dumpEpoch] is not wrapped by [checkReadOnly]: on a coordinator
    opened read-only, [dump] is refused, yet a direct call of [dumpEpoch]
    with an epoch that can be stored opens the database and writes every
    table of the epoch. *)
Theorem dumpEpoch_ignores_read_only (self : MetricsDataIO) (w : World) (e : Epoch) (sfx : string) :
  readOnly self = true ->
  writable (dbFile self) w ->
  unique_tables e ->
  frames_storable e ->
  names_ok (db_at (dbFile self) w) (map (fun t => t.1 +:+ sfx) e) ->
  dump [e] self w = (Raise read_only_error, self, w)
  /\ exists w',
       dumpEpoch e sfx self w = (Ok tt, self, w')
       /\ (forall name df, (name, df) ∈ e ->
             db_at (dbFile self) w' !! (name +:+ sfx) = Some (convert_gpu_util df))
       /\ (forall k, (forall name df, (name, df) ∈ e -> k <> name +:+ sfx) ->
             db_at (dbFile self) w' !! k = db_at (dbFile self) w !! k).
Proof.
  intros Hro Hw Huniq Hframes Hnames. split; [by apply checkReadOnly_rejects|].
  rewrite <- epoch_writes_names in Hnames.
  eexists. split; [by apply dumpEpoch_run|]. rewrite db_at_written. split.
  - intros name df Hin. apply apply_writes_lookup; [by apply epoch_writes_nodup|].
    unfold epoch_writes. apply list_elem_of_fmap. by exists (name, df).
  - intros k Hk. apply apply_writes_untouched. rewrite epoch_writes_names.
    intros Hin. apply list_elem_of_fmap in Hin as ([name df] & -> & Hin). by apply (Hk name df).
Qed.

Lemma dumpEpoch_ignores_read_only_witness :
  readOnly sample_reader = true
  /\ writable (dbFile sample_reader) empty_world
  /\ unique_tables sample_epoch
  /\ frames_storable sample_epoch
  /\ names_ok (db_at (dbFile sample_reader) empty_world) (map (fun t => t.1 +:+ "") sample_epoch)
  /\ dump [sample_epoch] sample_reader empty_world = (Raise read_only_error, sample_reader, empty_world)
  /\ exists w',
       dumpEpoch sample_epoch "" sample_reader empty_world = (Ok tt, sample_reader, w')
       /\ db_at (dbFile sample_reader) w' !! ("gpu" +:+ "") = Some (convert_gpu_util sample_frame).
Proof.
  assert (Huniq : unique_tables sample_epoch) by (repeat constructor; apply not_elem_of_nil).
  assert (Hframes : frames_storable sample_epoch)
    by (apply (bool_decide_unpack _); vm_compute; exact I).
  assert (Hnames : names_ok (db_at (dbFile sample_reader) empty_world)
                     (map (fun t => t.1 +:+ "") sample_epoch))
    by (apply (bool_decide_unpack _); vm_compute; exact I).
  split; [reflexivity|]. split; [exact I|]. split; [exact Huniq|].
  split; [exact Hframes|]. split; [exact Hnames|].
  destruct (dumpEpoch_ignores_read_only sample_reader empty_world sample_epoch ""
              eq_refl I Huniq Hframes Hnames)
    as (Hdump & w' & Hrun & Hin & _).
  split; [exact Hdump|]. exists w'. split; [exact Hrun|].
  apply (Hin "gpu" sample_frame). apply list_elem_of_singleton. reflexivity.
Defined.

(** ** The lock is given back *)

Lemma kld_bind {A B} (m : M A) (k : A -> M B) :
  keeps_lock_depth m -> (forall a, keeps_lock_depth (k a)) -> keeps_lock_depth (bind m k).
Proof.
  intros Hm Hk self w. unfold bind.
  specialize (Hm self w).
  destruct (m self w) as [[[a|e|] self'] w'] eqn:Hrun; cbn [fst snd] in *.
  - intros Hnh. rewrite (Hk a self' w' Hnh). by apply Hm.
  - intros _. by apply Hm.
  - done.
Qed.

Lemma kld_with_lock {A} (body : M A) : keeps_lock_depth body -> keeps_lock_depth (with_lock body).
Proof.
  intros Hb self w. unfold with_lock, bind, FileLock_acquire.
  assert (Hbody : forall n self1 w1,
    lock_depth self1 = S n ->
    fst (fst (finally body FileLock_release self1 w1)) <> Hang ->
    lock_depth (snd (fst (finally body FileLock_release self1 w1))) = n).
  { intros n self1 w1 Hd. unfold finally, FileLock_release, modify_self.
    specialize (Hb self1 w1).
    destruct (body self1 w1) as [[[a|e|] self'] w'] eqn:Hrun; cbn [fst snd] in *;
      [| |done].
    all: intros _; cbn [lock_depth set_lock_depth]; rewrite Hb by done; by rewrite Hd. }
  destruct (lock_depth self) as [|n] eqn:Hd.
  - destruct (locks w !! lock_file self) as [[d|]|].
    + destruct ((0 <=? FileLock_default_timeout) && (FileLock_default_timeout <? d)); [done|].
      by apply Hbody.
    + destruct (0 <=? FileLock_default_timeout); done.
    + by apply Hbody.
  - by apply Hbody.
Qed.

Ltac kld_step :=
  intros ? ?;
  unfold raise_stored_error; unfold bind;
  unfold get_self, path_exists, pickle_load, pickle_dump, os_remove, modify_self,
    modify_world, ret, raise;
  repeat case_match; simpl; done.

Lemma kld_checkReadOnly {A} (func : M A) :
  keeps_lock_depth func -> keeps_lock_depth (checkReadOnly func).
Proof.
  intros Hf self w. unfold checkReadOnly, bind, get_self.
  destruct (readOnly self); [done|apply Hf].
Qed.

Lemma kld_dumpMetadata : keeps_lock_depth dumpMetadata.
Proof. apply kld_checkReadOnly, kld_with_lock. kld_step. Qed.

Lemma kld_loadMetadata : keeps_lock_depth loadMetadata.
Proof.
  apply kld_checkReadOnly.
  apply kld_bind; [kld_step|]. intros self.
  apply kld_bind; [kld_step|]. intros present.
  apply kld_bind; [destruct (negb present); [apply kld_dumpMetadata|kld_step]|]. intros _.
  apply kld_bind; [kld_step|]. intros md. kld_step.
Qed.

Lemma kld_checkOutfileExists : keeps_lock_depth checkOutfileExists.
Proof.
  apply kld_bind; [kld_step|]. intros self.
  destruct (readOnly self); [kld_step|].
  apply kld_with_lock.
  apply kld_bind; [apply kld_loadMetadata|]. intros _.
  apply kld_bind; [kld_step|]. intros self'.
  destruct (get_truthy (metadata self') "dbError"); [kld_step|].
  destruct (negb (get_truthy (metadata self') "dbExists")); [|kld_step].
  apply kld_bind; [kld_step|]. intros present.
  destruct present; [|kld_step].
  destruct (negb (forceOverwrite self')).
  - apply kld_bind; [kld_step|]. intros _.
    apply kld_bind; [apply kld_dumpMetadata|]. intros _. kld_step.
  - apply kld_bind; [kld_step|]. intros _.
    apply kld_bind; [kld_step|]. intros _. apply kld_dumpMetadata.
Qed.

(** X8.  The lock is given back on every way out: whenever [dumpMetadata],
    [loadMetadata] or [checkOutfileExists] returns or raises (the conflict
    and the recorded error included), the re-entrancy counter of the
    object's lock is what it was before the call. *)
Theorem lock_is_given_back :
  keeps_lock_depth dumpMetadata
  /\ keeps_lock_depth loadMetadata
  /\ keeps_lock_depth checkOutfileExists.
Proof.
  split; [apply kld_dumpMetadata|]. split; [apply kld_loadMetadata|apply kld_checkOutfileExists].
Qed.

Lemma lock_is_given_back_witness :
  fst (fst (checkOutfileExists sample_writer preexisting_world))
  = Raise (Exception (PStr (conflict_message "out.sqlite")))
  /\ lock_depth (snd (fst (checkOutfileExists sample_writer preexisting_world)))
     = lock_depth sample_writer.
Proof.
  assert (Hrun : fst (fst (checkOutfileExists sample_writer preexisting_world))
                 = Raise (Exception (PStr (conflict_message "out.sqlite"))))
    by (vm_compute; reflexivity).
  split; [exact Hrun|].
  apply (proj2 (proj2 lock_is_given_back) sample_writer preexisting_world).
  rewrite Hrun. discriminate.
Defined.

(** X9.  Saving then loading the record is a round trip: after
    [dumpMetadata] the sidecar holds the record of the object, and
    [loadMetadata] reads it back, leaving object and files as they are. *)
Theorem metadata_round_trip (self : MetricsDataIO) (w : World) :
  readOnly self = false ->
  (lock_depth self = 0%nat -> releasable (lock_file self) w) ->
  exists w1,
    dumpMetadata self w = (Ok tt, self, w1)
    /\ fs w1 !! metadataFile self = Some (FPickle (metadata self))
    /\ loadMetadata self w1 = (Ok tt, self, w1).
Proof.
  intros Hro Hlock.
  assert (Hdump : exists w1, dumpMetadata self w = (Ok tt, self, w1)
                    /\ fs w1 !! metadataFile self = Some (FPickle (metadata self))).
  { destruct (lock_depth self) as [|n] eqn:Hd.
    - eexists. split; [apply dumpMetadata_outer; auto|].
      cbn [set_fs fs]. apply lookup_insert_eq.
    - eexists. split; [by apply (dumpMetadata_nested n)|].
      cbn [set_fs fs]. apply lookup_insert_eq. }
  destruct Hdump as (w1 & Hdump & Hm). exists w1. split; [done|]. split; [done|].
  rewrite (loadMetadata_stored (metadata self)) by done. by rewrite set_metadata_same.
Qed.

Lemma metadata_round_trip_witness :
  readOnly sample_writer = false
  /\ (lock_depth sample_writer = 0%nat -> releasable (lock_file sample_writer) empty_world)
  /\ exists w1,
       dumpMetadata sample_writer empty_world = (Ok tt, sample_writer, w1)
       /\ fs w1 !! metadataFile sample_writer = Some (FPickle (metadata sample_writer))
       /\ loadMetadata sample_writer w1 = (Ok tt, sample_writer, w1).
Proof.
  assert (Hrel : lock_depth sample_writer = 0%nat ->
                 releasable (lock_file sample_writer) empty_world)
    by (intros _; unfold releasable; vm_compute; discriminate).
  split; [reflexivity|]. split; [exact Hrel|].
  exact (metadata_round_trip sample_writer empty_world eq_refl Hrel).
Defined.

(** ** What [dump] leaves alone *)

Section TouchesOnly.
Context {A B : Type}.

Lemma touches_ret (p : string) (a : A) : touches_only p (ret a).
Proof. by intros self w. Qed.

Lemma touches_raise (p : string) (e : exn) : touches_only p (@raise A e).
Proof. by intros self w. Qed.

Lemma touches_bind (p : string) (m : M A) (k : A -> M B) :
  touches_only p m -> (forall a, touches_only p (k a)) -> touches_only p (bind m k).
Proof.
  intros Hm Hk self w. unfold bind. destruct (Hm self w) as (Hself & Hlocks & Hfs).
  destruct (m self w) as [[[a|e|] self'] w']; cbn [fst snd] in *; subst self'; [|done|done].
  destruct (Hk a self w') as (Hself' & Hlocks' & Hfs').
  split; [done|]. split; [congruence|]. intros k' Hne. rewrite Hfs' by done. by apply Hfs.
Qed.

Lemma touches_own_bind (m : M A) (k : A -> M B) :
  touches_own_file m -> (forall a, touches_own_file (k a)) -> touches_own_file (bind m k).
Proof.
  intros Hm Hk self w. unfold bind. destruct (Hm self w) as (Hself & Hlocks & Hfs).
  destruct (m self w) as [[[a|e|] self'] w']; cbn [fst snd] in *; subst self'; [|done|done].
  destruct (Hk a self w') as (Hself' & Hlocks' & Hfs').
  split; [done|]. split; [congruence|]. intros k' Hne. rewrite Hfs' by done. by apply Hfs.
Qed.

Lemma touches_own_self (k : MetricsDataIO -> M B) :
  (forall self, touches_only (dbFile self) (k self)) -> touches_own_file (bind get_self k).
Proof. intros Hk self w. unfold bind, get_self. apply Hk. Qed.
End TouchesOnly.

Lemma touches_for_each {A} (p : string) (l : list A) (body : A -> M unit) :
  (forall x, touches_only p (body x)) -> touches_only p (for_each l body).
Proof.
  intros Hbody. induction l as [|x l IH]; [apply touches_ret|].
  cbn [for_each]. apply touches_bind; [apply Hbody|]. intros _. apply IH.
Qed.

Lemma touches_own_for_each {A} (l : list A) (body : A -> M unit) :
  (forall x, touches_own_file (body x)) -> touches_own_file (for_each l body).
Proof.
  intros Hbody. induction l as [|x l IH]; [by intros self w|].
  cbn [for_each]. apply touches_own_bind; [apply Hbody|]. intros _. apply IH.
Qed.

Lemma touches_connect (p : string) (tmo : option Z) : touches_only p (sqlite3_connect p tmo).
Proof.
  intros self w. unfold sqlite3_connect, modify_world. cbn [fst snd].
  destruct (fs w !! p); cbn [fs locks log_event set_fs]; repeat split; try done.
  intros k Hne. by rewrite lookup_insert_ne.
Qed.

Lemma touches_pd_DataFrame (p : string) (df : DataFrame) : touches_only p (pd_DataFrame df).
Proof. unfold pd_DataFrame. case_match; [apply touches_ret|apply touches_raise]. Qed.

Lemma touches_to_sql (p name : string) (df : DataFrame) : touches_only p (to_sql p name df).
Proof.
  intros self w. unfold to_sql.
  repeat case_match; cbn [fst snd fs locks log_event set_fs]; repeat split; try done.
  all: intros k Hne; by rewrite lookup_insert_ne.
Qed.

(** [dumpEpoch] and [dump], however they end, leave the object, the locks
    and every file but the output file as they are. *)
Lemma dumpEpoch_touches (e : Epoch) (sfx : string) : touches_own_file (dumpEpoch e sfx).
Proof.
  unfold dumpEpoch. apply touches_own_self. intros self.
  apply touches_bind; [apply touches_connect|]. intros _.
  apply touches_for_each. intros [name df].
  apply touches_bind; [apply touches_pd_DataFrame|]. intros df'. apply touches_to_sql.
Qed.

Lemma dump_touches (data : list Epoch) : touches_own_file (dump data).
Proof.
  unfold dump, checkReadOnly. apply touches_own_bind; [by intros self w|]. intros self.
  destruct (readOnly self); [by intros self' w|].
  destruct data as [|e [|e' data]]; [by intros self' w|apply dumpEpoch_touches|].
  apply touches_own_for_each. intros [i epoch]. apply dumpEpoch_touches.
Qed.

Lemma dump_leaves_other_paths (data : list Epoch) (self : MetricsDataIO) (w : World)
    (k : string) :
  k <> dbFile self ->
  fs (snd (dump data self w)) !! k = fs w !! k
  /\ locks (snd (dump data self w)) = locks w.
Proof.
  intros Hk. destruct (dump_touches data self w) as (_ & Hlocks & Hfs). split; [by apply Hfs|done].
Qed.

Lemma suffixed_writes_names_inv (data : list Epoch) :
  forall (s : nat) (x : string),
    x ∈ map fst (suffixed_writes s data) ->
    exists (i : nat) (e : Epoch) (name : string) (df : DataFrame),
      data !! i = Some e /\ (name, df) ∈ e /\ x = name +:+ "_epoch:" +:+ str_of_nat (s + i).
Proof.
  induction data as [|e data IH]; intros s x Hin; [by apply elem_of_nil in Hin|].
  cbn [suffixed_writes] in Hin. rewrite map_app in Hin. apply elem_of_app in Hin as [Hin|Hin].
  - rewrite epoch_writes_names in Hin. apply list_elem_of_fmap in Hin as ([name df] & -> & Hin).
    exists 0%nat, e, name, df. by rewrite Nat.add_0_r.
  - apply IH in Hin as (i & e' & name & df & Hi & Hin & ->).
    exists (S i), e', name, df. by rewrite Nat.add_succ_r.
Qed.

(** The names a [dump] writes are the names of its tables, with the suffix
    of their epoch when there are several epochs. *)
Lemma dump_writes_names_inv (data : list Epoch) (x : string) :
  x ∈ map fst (dump_writes data) ->
  exists (i : nat) (e : Epoch) (name : string) (df : DataFrame),
    data !! i = Some e /\ (name, df) ∈ e
    /\ x = if decide (length data = 1%nat) then name
           else name +:+ "_epoch:" +:+ str_of_nat i.
Proof.
  destruct data as [|e0 [|e1 data]]; intros Hin; [by apply elem_of_nil in Hin| |].
  - cbn [dump_writes] in Hin. rewrite epoch_writes_names in Hin.
    apply list_elem_of_fmap in Hin as ([name df] & -> & Hin).
    exists 0%nat, e0, name, df. cbn [length]. rewrite decide_True by done.
    split; [done|]. split; [done|]. apply append_empty_r.
  - apply (suffixed_writes_names_inv _ 0) in Hin as (i & e & name & df & Hi & Hin & ->).
    exists i, e, name, df. rewrite decide_False by (cbn [length]; lia). done.
Qed.

(** X10.  [dump] works on the output file alone: however it ends, it takes
    no lock and leaves the object and every other file (the sidecar
    included) as they are.  When the epochs can be stored, a writer's
    [dump] drops no table and leaves every table it does not name as it
    was; so tables of an earlier dump under other names (for instance with
    another number of epochs) stay in the file. *)
Theorem dump_keeps_the_rest (data : list Epoch) (self : MetricsDataIO) (w : World) :
  (exists r w',
     dump data self w = (r, self, w')
     /\ locks w' = locks w
     /\ (forall k, k <> dbFile self -> fs w' !! k = fs w !! k))
  /\ (readOnly self = false ->
      writable (dbFile self) w ->
      dumpable (db_at (dbFile self) w) data ->
      exists w',
        dump data self w = (Ok tt, self, w')
        /\ (forall name, is_Some (db_at (dbFile self) w !! name) ->
                         is_Some (db_at (dbFile self) w' !! name))
        /\ (forall k,
              (forall i e name df, data !! i = Some e -> (name, df) ∈ e ->
                 k <> if decide (length data = 1%nat) then name
                      else name +:+ "_epoch:" +:+ str_of_nat i) ->
              db_at (dbFile self) w' !! k = db_at (dbFile self) w !! k)).
Proof.
  split.
  - destruct (dump_touches data self w) as (Hself & Hlocks & Hfs).
    destruct (dump data self w) as [[r self'] w']. cbn [fst snd] in *. subst self'.
    by exists r, w'.
  - intros Hro Hw Hok. destruct data as [|e data].
    { exists w. split; [by apply dump_nothing|done]. }
    eexists. split; [by apply dump_run|]. rewrite db_at_written. split.
    + intros name Hin. apply apply_writes_present. by right.
    + intros k Hk. apply apply_writes_untouched. intros Hin.
      apply dump_writes_names_inv in Hin as (i & e' & name & df & Hi & Hin & ->).
      by apply (Hk i e' name df).
Qed.

Lemma dump_keeps_the_rest_witness :
  readOnly sample_writer = false
  /\ writable (dbFile sample_writer) stored_world
  /\ dumpable (db_at (dbFile sample_writer) stored_world) [sample_epoch]
  /\ exists w',
       dump [sample_epoch] sample_writer stored_world = (Ok tt, sample_writer, w')
       /\ db_at (dbFile sample_writer) w' !! "gpu_epoch:1"
          = db_at (dbFile sample_writer) stored_world !! "gpu_epoch:1".
Proof.
  assert (Hok : dumpable (db_at (dbFile sample_writer) stored_world) [sample_epoch])
    by (apply (bool_decide_unpack _); vm_compute; exact I).
  split; [reflexivity|]. split; [exact I|]. split; [exact Hok|].
  destruct (proj2 (dump_keeps_the_rest [sample_epoch] sample_writer stored_world) eq_refl I Hok)
    as (w' & Hrun & _ & Hrest).
  exists w'. split; [exact Hrun|]. apply Hrest.
  intros [|i] e name df Hi Hin; [|discriminate].
  injection Hi as <-. apply list_elem_of_singleton in Hin. injection Hin as -> _.
  discriminate.
Defined.

(** ** Table names of different epochs, in one database *)

Lemma fold_case_app (a b : string) : fold_case (a +:+ b) = fold_case a +:+ fold_case b.
Proof.
  induction a as [|c a IH]; [done|].
  change (String (lower c) (fold_case (a +:+ b)) = String (lower c) (fold_case a +:+ fold_case b)).
  by rewrite IH.
Qed.

Lemma fold_case_digits (d : Decimal.uint) :
  fold_case (NilEmpty.string_of_uint d) = NilEmpty.string_of_uint d.
Proof. induction d; cbn [NilEmpty.string_of_uint fold_case]; [done|..]; by rewrite IHd. Qed.

Lemma fold_case_suffixed (name : string) (i : nat) :
  fold_case (name +:+ "_epoch:" +:+ str_of_nat i)
  = fold_case name +:+ "_epoch:" +:+ str_of_nat i.
Proof. rewrite !fold_case_app. unfold str_of_nat. by rewrite fold_case_digits. Qed.

Lemma has_char_app (c : ascii) (a b : string) :
  has_char c (a +:+ b) = (has_char c a || has_char c b)%bool.
Proof.
  induction a as [|x a IH]; [done|].
  change (has_char c (String x (a +:+ b)) = (has_char c (String x a) || has_char c b)%bool).
  cbn [has_char]. rewrite IH. by rewrite orb_assoc.
Qed.

Lemma digits_have_no_nul (d : Decimal.uint) :
  has_char "000" (NilEmpty.string_of_uint d) = false.
Proof. induction d; cbn [NilEmpty.string_of_uint has_char]; [done|..]; by rewrite IHd. Qed.

Lemma digits_have_no_quote (d : Decimal.uint) :
  has_char "034" (NilEmpty.string_of_uint d) = false.
Proof. induction d; cbn [NilEmpty.string_of_uint has_char]; [done|..]; by rewrite IHd. Qed.

Lemma suffixed_name_valid (name : string) (i : nat) :
  has_char "000" name = false ->
  valid_identifier (name +:+ "_epoch:" +:+ str_of_nat i) = true.
Proof.
  intros Hname. unfold valid_identifier. rewrite !has_char_app, Hname.
  unfold str_of_nat. rewrite digits_have_no_nul.
  destruct name; reflexivity.
Qed.

Lemma append_assoc (a b c : string) : (a +:+ b) +:+ c = a +:+ (b +:+ c).
Proof.
  induction a as [|x a IH]; [done|].
  change (String x ((a +:+ b) +:+ c) = String x (a +:+ (b +:+ c))). by rewrite IH.
Qed.

Lemma prefix_append (p : string) :
  forall a b : string,
    (String.length p <= String.length a)%nat ->
    String.prefix p (a +:+ b) = String.prefix p a.
Proof.
  induction p as [|x p IH]; intros a b Hlen; [by destruct (a +:+ b), a|].
  destruct a as [|y a]; [cbn in Hlen; lia|].
  change (String.prefix (String x p) (String y (a +:+ b)) = String.prefix (String x p) (String y a)).
  cbn [String.prefix]. destruct (ascii_dec x y); [|done]. apply IH. cbn in Hlen. lia.
Qed.

Lemma length_append (a b : string) :
  String.length (a +:+ b) = (String.length a + String.length b)%nat.
Proof.
  induction a as [|x a IH]; [done|].
  change (S (String.length (a +:+ b)) = S (String.length a + String.length b)). by rewrite IH.
Qed.

Lemma length_fold_case (s : string) : String.length (fold_case s) = String.length s.
Proof. induction s as [|x s IH]; [done|]. cbn. by rewrite IH. Qed.

(** The digits of the epoch come too late to make a name reserved. *)
Lemma suffixed_name_reserved (name : string) (i : nat) :
  reserved (name +:+ "_epoch:" +:+ str_of_nat i) = reserved (name +:+ "_epoch:").
Proof.
  unfold reserved. rewrite <- append_assoc, (fold_case_app (name +:+ "_epoch:")).
  apply prefix_append. rewrite length_fold_case, length_append. cbn. lia.
Qed.

Lemma suffixed_name_quote_free (name : string) (i : nat) :
  has_char "034" name = false ->
  has_char "034" (name +:+ "_epoch:" +:+ str_of_nat i) = false.
Proof.
  intros Hname. rewrite !has_char_app, Hname. unfold str_of_nat.
  by rewrite digits_have_no_quote.
Qed.

Lemma NoDup_fmap_inj_on {A B} (f : A -> B) (l : list A) (x y : A) :
  NoDup (f <$> l) -> x ∈ l -> y ∈ l -> f x = f y -> x = y.
Proof.
  induction l as [|a l IH]; intros Hnd Hx Hy Heq; [by apply elem_of_nil in Hx|].
  rewrite fmap_cons in Hnd. apply NoDup_cons in Hnd as [Hnot Hnd].
  apply elem_of_cons in Hx as [->|Hx]; apply elem_of_cons in Hy as [->|Hy]; [done| | |by apply IH].
  - exfalso. apply Hnot. rewrite Heq. apply list_elem_of_fmap. by exists y.
  - exfalso. apply Hnot. rewrite <- Heq. apply list_elem_of_fmap. by exists x.
Qed.

(** Tables of different epochs, or of different names up to case inside
    an epoch, get names SQLite tells apart. *)
Lemma suffixed_names_apart (data : list Epoch) (i j : nat) (e1 e2 : Epoch)
    (n1 n2 : string) (df1 df2 : DataFrame) :
  Forall epoch_names_ok data ->
  data !! i = Some e1 -> data !! j = Some e2 ->
  (n1, df1) ∈ e1 -> (n2, df2) ∈ e2 ->
  fold_case (n1 +:+ "_epoch:" +:+ str_of_nat i) = fold_case (n2 +:+ "_epoch:" +:+ str_of_nat j) ->
  i = j /\ n1 = n2.
Proof.
  intros Hall Hi Hj H1 H2 Heq. rewrite !fold_case_suffixed in Heq.
  apply suffixed_name_inj in Heq as [Hfold ->]. split; [done|].
  rewrite Hi in Hj. injection Hj as <-.
  destruct (proj1 (Forall_lookup _ _) Hall _ _ Hi) as [_ Hnd].
  apply (NoDup_fmap_inj_on fold_case (map fst e1)); try done.
  - apply list_elem_of_fmap. by exists (n1, df1).
  - apply list_elem_of_fmap. by exists (n2, df2).
Qed.

Lemma suffixed_names_ok (data : list Epoch) :
  Forall epoch_names_ok data -> names_ok ∅ (map fst (suffixed_writes 0 data)).
Proof.
  intros Hall. split.
  - apply Forall_forall. intros x Hx.
    apply suffixed_writes_names_inv in Hx as (i & e & name & df & Hi & Hin & ->).
    destruct (proj1 (Forall_lookup _ _) Hall _ _ Hi) as [Hnul _].
    destruct (proj1 (Forall_forall _ _) Hnul (name, df) Hin) as [Hn Hr].
    split; [by apply suffixed_name_valid|]. by rewrite suffixed_name_reserved.
  - rewrite dom_empty_L, elements_empty. cbn [app].
    apply Forall_forall. intros a Ha. apply Forall_forall. intros b Hb Heq.
    apply suffixed_writes_names_inv in Ha as (i & e1 & n1 & df1 & Hi & H1 & ->).
    apply suffixed_writes_names_inv in Hb as (j & e2 & n2 & df2 & Hj & H2 & ->).
    cbn [Nat.add] in *.
    by destruct (suffixed_names_apart data i j e1 e2 n1 n2 df1 df2) as [-> ->].
Qed.

Lemma epoch_names_ok_unique (e : Epoch) : epoch_names_ok e -> unique_tables e.
Proof. intros [_ Hnd]. by apply NoDup_fmap_1 in Hnd. Qed.

(** X11.  Table names of a [dump] of several epochs never collide, also
    for SQLite, which does not tell the case of letters apart: the name
    written for a table of epoch [i] determines [i] and, up to case, the
    table's own name.  So when the names inside each epoch differ by more
    than case (and hold no NUL), a writer's [dump] of several epochs of
    storable frames into a new file succeeds and leaves each table of each
    epoch in a table of its own.  (The names must not be reserved either:
    [sqlite] would be written as [sqlite_epoch:0].) *)
Theorem epoch_names_never_collide (data : list Epoch) (self : MetricsDataIO) (w : World) :
  readOnly self = false ->
  fs w !! dbFile self = None ->
  (1 < length data)%nat ->
  Forall frames_storable data ->
  Forall epoch_names_ok data ->
  (forall i j e1 e2 n1 n2 df1 df2,
     data !! i = Some e1 -> data !! j = Some e2 ->
     (n1, df1) ∈ e1 -> (n2, df2) ∈ e2 ->
     fold_case (n1 +:+ "_epoch:" +:+ str_of_nat i) = fold_case (n2 +:+ "_epoch:" +:+ str_of_nat j) ->
     i = j /\ n1 = n2)
  /\ exists w',
       dump data self w = (Ok tt, self, w')
       /\ forall i e name df,
            data !! i = Some e -> (name, df) ∈ e ->
            db_at (dbFile self) w' !! (name +:+ "_epoch:" +:+ str_of_nat i)
            = Some (convert_gpu_util df).
Proof.
  intros Hro Hp Hlen Hframes Hnames. split.
  { intros i j e1 e2 n1 n2 df1 df2. by apply suffixed_names_apart. }
  assert (Huniq : Forall unique_tables data).
  { eapply Forall_impl; [exact Hnames|]. apply epoch_names_ok_unique. }
  assert (Hdb : db_at (dbFile self) w = ∅) by (unfold db_at; by rewrite Hp).
  assert (Hok : dumpable (db_at (dbFile self) w) data).
  { rewrite Hdb. split; [done|].
    destruct data as [|e0 [|e1 data]]; simpl in Hlen; [lia|lia|].
    by apply suffixed_names_ok. }
  eexists. split.
  - apply dump_run; [done| |done|].
    + unfold writable. by rewrite Hp.
    + destruct data; [simpl in Hlen; lia|done].
  - intros i e name df Hi Hin. rewrite db_at_written.
    pose proof (dump_stores data self w i e name df Huniq Hi Hin) as Hst.
    rewrite decide_False in Hst by lia. exact Hst.
Qed.

Lemma epoch_names_never_collide_witness :
  readOnly sample_writer = false
  /\ fs empty_world !! dbFile sample_writer = None
  /\ (1 < length [sample_epoch; sample_epoch])%nat
  /\ Forall frames_storable [sample_epoch; sample_epoch]
  /\ Forall epoch_names_ok [sample_epoch; sample_epoch]
  /\ exists w',
       dump [sample_epoch; sample_epoch] sample_writer empty_world = (Ok tt, sample_writer, w')
       /\ db_at (dbFile sample_writer) w' !! ("gpu" +:+ "_epoch:" +:+ str_of_nat 0)
          = Some (convert_gpu_util sample_frame)
       /\ db_at (dbFile sample_writer) w' !! ("gpu" +:+ "_epoch:" +:+ str_of_nat 1)
          = Some (convert_gpu_util sample_frame).
Proof.
  assert (Hlen : (1 < length [sample_epoch; sample_epoch])%nat) by (simpl; lia).
  assert (Hframes : Forall frames_storable [sample_epoch; sample_epoch])
    by (apply (bool_decide_unpack _); vm_compute; exact I).
  assert (Hnames : Forall epoch_names_ok [sample_epoch; sample_epoch])
    by (apply (bool_decide_unpack _); vm_compute; exact I).
  split; [reflexivity|]. split; [reflexivity|]. split; [exact Hlen|].
  split; [exact Hframes|]. split; [exact Hnames|].
  destruct (epoch_names_never_collide [sample_epoch; sample_epoch] sample_writer empty_world
              eq_refl eq_refl Hlen Hframes Hnames) as (_ & w' & Hrun & Hst).
  exists w'. split; [exact Hrun|]. split.
  - apply (Hst 0%nat sample_epoch "gpu" sample_frame);
      [reflexivity|apply list_elem_of_singleton; reflexivity].
  - apply (Hst 1%nat sample_epoch "gpu" sample_frame);
      [reflexivity|apply list_elem_of_singleton; reflexivity].
Defined.

(** ** Reading back what was dumped *)

Lemma written_names_quote_free (data : list Epoch) (db : Database) :
  quote_free db -> names_quote_free data ->
  quote_free (apply_writes (dump_writes data) db).
Proof.
  unfold quote_free, names_quote_free. intros Hdb Hdata. apply Forall_forall. intros k Hk.
  apply elem_of_elements, dom_apply_writes in Hk as [Hk|Hk].
  - apply (proj1 (Forall_forall _ _) Hdb). by apply elem_of_elements.
  - apply dump_writes_names_inv in Hk as (i & e & name & df & Hi & Hin & ->).
    pose proof (proj1 (Forall_forall _ _) (proj1 (Forall_lookup _ _) Hdata _ _ Hi)
                  (name, df) Hin) as Hname.
    cbn [fst] in Hname. case_decide; [done|by apply suffixed_name_quote_free].
Qed.

(** X12.  What [dump] writes, [load] reads back.  After a writer has dumped
    epochs that can be stored, with distinct table names inside each epoch
    and no double quote in a table name, [load] returns each table of a
    single epoch under its own name, and each table of epoch [i] of
    several under [name_epoch:i], holding the dumped frame with the
    percentage column rescaled; tables the dump did not name come back as
    they were. *)
Theorem dump_then_load (data : list Epoch) (self : MetricsDataIO) (w : World) :
  readOnly self = false ->
  writable (dbFile self) w ->
  Forall unique_tables data ->
  data <> [] ->
  dumpable (db_at (dbFile self) w) data ->
  quote_free (db_at (dbFile self) w) ->
  names_quote_free data ->
  exists w1 w2 dfs,
    dump data self w = (Ok tt, self, w1)
    /\ load self w1 = (Ok dfs, self, w2)
    /\ (forall e name df, data = [e] -> (name, df) ∈ e ->
          dfs !! name = Some (convert_gpu_util df))
    /\ (forall i e name df, (1 < length data)%nat -> data !! i = Some e -> (name, df) ∈ e ->
          dfs !! (name +:+ "_epoch:" +:+ str_of_nat i) = Some (convert_gpu_util df))
    /\ (forall k,
          (forall i e name df, data !! i = Some e -> (name, df) ∈ e ->
             k <> if decide (length data = 1%nat) then name
                  else name +:+ "_epoch:" +:+ str_of_nat i) ->
          dfs !! k = db_at (dbFile self) w !! k).
Proof.
  intros Hro Hw Hall Hne Hok Hquote Hnames. eexists _, _, _.
  split; [by apply dump_run|]. split.
  { apply load_run; [cbn [fs]; apply lookup_insert_eq|]. by apply written_names_quote_free. }
  split; [|split].
  - intros e name df -> Hin.
    by apply (dump_stores [e] self w 0 e name df Hall).
  - intros i e name df Hlen Hi Hin.
    pose proof (dump_stores data self w i e name df Hall Hi Hin) as Hst.
    rewrite decide_False in Hst by lia. exact Hst.
  - intros k Hk. apply apply_writes_untouched. intros Hin.
    apply dump_writes_names_inv in Hin as (i & e' & name & df & Hi & Hin & ->).
    by apply (Hk i e' name df).
Qed.

Lemma dump_then_load_witness :
  readOnly sample_writer = false
  /\ writable (dbFile sample_writer) empty_world
  /\ Forall unique_tables [sample_epoch; sample_epoch]
  /\ dumpable (db_at (dbFile sample_writer) empty_world) [sample_epoch; sample_epoch]
  /\ quote_free (db_at (dbFile sample_writer) empty_world)
  /\ names_quote_free [sample_epoch; sample_epoch]
  /\ exists w1 w2 dfs,
       dump [sample_epoch; sample_epoch] sample_writer empty_world = (Ok tt, sample_writer, w1)
       /\ load sample_writer w1 = (Ok dfs, sample_writer, w2)
       /\ dfs !! ("gpu" +:+ "_epoch:" +:+ str_of_nat 1) = Some (convert_gpu_util sample_frame).
Proof.
  assert (Hall : Forall unique_tables [sample_epoch; sample_epoch]).
  { repeat constructor; apply not_elem_of_nil. }
  assert (Hok : dumpable (db_at (dbFile sample_writer) empty_world) [sample_epoch; sample_epoch])
    by (apply (bool_decide_unpack _); vm_compute; exact I).
  assert (Hquote : quote_free (db_at (dbFile sample_writer) empty_world))
    by (apply (bool_decide_unpack _); vm_compute; exact I).
  assert (Hnames : names_quote_free [sample_epoch; sample_epoch])
    by (apply (bool_decide_unpack _); vm_compute; exact I).
  split; [reflexivity|]. split; [exact I|]. split; [exact Hall|]. split; [exact Hok|].
  split; [exact Hquote|]. split; [exact Hnames|].
  destruct (dump_then_load [sample_epoch; sample_epoch] sample_writer empty_world
              eq_refl I Hall) as (w1 & w2 & dfs & Hdump & Hload & _ & Hmany & _);
    [discriminate|exact Hok|exact Hquote|exact Hnames|].
  exists w1, w2, dfs. split; [exact Hdump|]. split; [exact Hload|].
  apply (Hmany 1%nat sample_epoch "gpu" sample_frame);
    [simpl; lia|reflexivity|apply list_elem_of_singleton; reflexivity].
Defined.

(** ** More on the targets of a rank *)

Lemma ints_of_all (fields : list (list ascii)) (zs : list Z) :
  Forall2 (fun f z => py_int f = Some z) fields zs -> ints_of fields = Ok zs.
Proof.
  induction 1 as [|f z fields zs Hf _ IH]; [done|].
  cbn [ints_of]. unfold int_of. by rewrite Hf, IH.
Qed.

Lemma ints_of_first_bad (before after : list (list ascii)) (bad : list ascii) :
  Forall (fun f => is_Some (py_int f)) before ->
  py_int bad = None ->
  ints_of (before ++ bad :: after) = Raise (ValueError (string_of_list_ascii bad)).
Proof.
  intros Hbefore Hbad. induction Hbefore as [|f before [z Hz] _ IH].
  - cbn [app ints_of]. unfold int_of. by rewrite Hbad.
  - cbn [app ints_of]. unfold int_of at 1. by rewrite Hz, IH.
Qed.

(** X13.  Outside a complete SLURM environment [profile] stops before any
    profiling: without [SLURM_JOB_ID] it raises [KeyError] for that name
    whatever else is set; with the job id but neither the GPU list nor the
    rank index it raises [KeyError] for [SLURM_PROCID]; with a rank index
    that is not an integer literal it raises [ValueError]. *)
Theorem profile_needs_slurm (environ : gmap string string) :
  (environ !! "SLURM_JOB_ID" = None ->
     profile_gpuIds environ = Raise (KeyError "SLURM_JOB_ID"))
  /\ (forall jobId,
        environ !! "SLURM_JOB_ID" = Some jobId ->
        environ !! "SLURM_STEP_GPUS" = None ->
        environ !! "SLURM_PROCID" = None ->
        profile_gpuIds environ = Raise (KeyError "SLURM_PROCID"))
  /\ (forall jobId text,
        environ !! "SLURM_JOB_ID" = Some jobId ->
        environ !! "SLURM_STEP_GPUS" = None ->
        environ !! "SLURM_PROCID" = Some text ->
        py_int (list_ascii_of_string text) = None ->
        profile_gpuIds environ
        = Raise (ValueError (string_of_list_ascii (list_ascii_of_string text)))).
Proof.
  unfold profile_gpuIds, slurm_step_gpus, slurm_procid_fallback, environ_get, int_of.
  split; [|split].
  - intros Hjob. by rewrite Hjob.
  - intros jobId Hjob Hgpus Hproc. by rewrite Hjob, Hgpus, Hproc.
  - intros jobId text Hjob Hgpus Hproc Hint. by rewrite Hjob, Hgpus, Hproc, Hint.
Qed.

Lemma profile_needs_slurm_witness :
  rank_only_environ !! "SLURM_JOB_ID" = None
  /\ profile_gpuIds rank_only_environ = Raise (KeyError "SLURM_JOB_ID").
Proof.
  assert (Hjob : rank_only_environ !! "SLURM_JOB_ID" = None) by (vm_compute; reflexivity).
  split; [exact Hjob|]. exact (proj1 (profile_needs_slurm rank_only_environ) Hjob).
Defined.

(** X14.  When SLURM lists the GPUs of the step, that list decides: if
    every comma-separated field is an integer literal the GPU ids are those
    integers, in order, and [SLURM_PROCID] plays no part; if a field is
    not (an empty field included), [profile] raises [ValueError] for the
    first such field and does not fall back to the rank index. *)
Theorem profile_listed_gpus (environ : gmap string string) (jobId gpus : string) :
  environ !! "SLURM_JOB_ID" = Some jobId ->
  environ !! "SLURM_STEP_GPUS" = Some gpus ->
  (forall zs,
     Forall2 (fun f z => py_int f = Some z)
       (split_comma [] (strip (list_ascii_of_string gpus))) zs ->
     profile_gpuIds environ = Ok (jobId, zs)
     /\ forall rank, profile_gpuIds (<["SLURM_PROCID" := rank]> environ) = Ok (jobId, zs))
  /\ (forall before bad after,
        split_comma [] (strip (list_ascii_of_string gpus)) = before ++ bad :: after ->
        Forall (fun f => is_Some (py_int f)) before ->
        py_int bad = None ->
        profile_gpuIds environ = Raise (ValueError (string_of_list_ascii bad))).
Proof.
  intros Hjob Hgpus. split.
  - intros zs Hall.
    assert (Hrun : forall env : gmap string string,
      env !! "SLURM_JOB_ID" = Some jobId -> env !! "SLURM_STEP_GPUS" = Some gpus ->
      profile_gpuIds env = Ok (jobId, zs)).
    { intros env Hj Hg. unfold profile_gpuIds, slurm_step_gpus, environ_get.
      by rewrite Hj, Hg, (ints_of_all _ zs Hall). }
    split; [by apply Hrun|]. intros rank. apply Hrun; by rewrite lookup_insert_ne.
  - intros before bad after Hsplit Hbefore Hbad.
    unfold profile_gpuIds, slurm_step_gpus, environ_get.
    by rewrite Hjob, Hgpus, Hsplit, ints_of_first_bad.
Qed.

Lemma profile_listed_gpus_witness :
  (<["SLURM_STEP_GPUS" := "0,,1"]> fallback_environ) !! "SLURM_JOB_ID" = Some "4242"
  /\ (<["SLURM_STEP_GPUS" := "0,,1"]> fallback_environ) !! "SLURM_STEP_GPUS" = Some "0,,1"
  /\ profile_gpuIds (<["SLURM_STEP_GPUS" := "0,,1"]> fallback_environ)
     = Raise (ValueError "").
Proof.
  assert (Hjob : (<["SLURM_STEP_GPUS" := "0,,1"]> fallback_environ) !! "SLURM_JOB_ID"
                 = Some "4242") by (vm_compute; reflexivity).
  assert (Hgpus : (<["SLURM_STEP_GPUS" := "0,,1"]> fallback_environ) !! "SLURM_STEP_GPUS"
                  = Some "0,,1") by (vm_compute; reflexivity).
  split; [exact Hjob|]. split; [exact Hgpus|].
  apply (proj2 (profile_listed_gpus _ "4242" "0,,1" Hjob Hgpus)
           [list_ascii_of_string "0"] [] [list_ascii_of_string "1"]).
  - reflexivity.
  - repeat constructor. by eexists.
  - reflexivity.
Defined.

(** ** A rank index written in decimal *)

Lemma int_lstrip_no_space (l : list ascii) :
  Forall (fun c => is_int_space c = false) l -> int_lstrip l = l.
Proof. destruct 1 as [|c l Hc _]; [done|]. cbn [int_lstrip]. by rewrite Hc. Qed.

Lemma int_strip_no_space (l : list ascii) :
  Forall (fun c => is_int_space c = false) l -> int_strip l = l.
Proof.
  intros Hl. unfold int_strip. rewrite (int_lstrip_no_space l Hl).
  rewrite int_lstrip_no_space; [apply rev_involutive|].
  apply Forall_forall. intros c Hc. apply (proj1 (Forall_forall _ _) Hl).
  by apply list_elem_of_In, in_rev, list_elem_of_In.
Qed.

Lemma decimal_chars (d : Decimal.uint) :
  Forall (fun c => is_int_space c = false /\ Ascii.eqb c "-" = false /\ Ascii.eqb c "+" = false)
    (list_ascii_of_string (NilEmpty.string_of_uint d)).
Proof. induction d; simpl; constructor; (done || by repeat split). Qed.

Lemma digits_value_decimal (d : Decimal.uint) :
  forall (acc : nat) (after_digit : bool),
    (d = Decimal.Nil -> after_digit = true) ->
    digits_value (Z.of_nat acc) after_digit (list_ascii_of_string (NilEmpty.string_of_uint d))
    = Some (Z.of_nat (Nat.of_uint_acc d acc)).
Proof.
  induction d as [|d IH|d IH|d IH|d IH|d IH|d IH|d IH|d IH|d IH|d IH];
    intros acc after_digit Hnil.
  { simpl. by rewrite Hnil. }
  all: cbn [NilEmpty.string_of_uint list_ascii_of_string digits_value Nat.of_uint_acc].
  all: match goal with
       | |- context [digit_of ?c] =>
           let v := eval vm_compute in (digit_of c) in change (digit_of c) with v
       end.
  all: cbn beta iota.
  all: match goal with
       | |- digits_value ?z true _ = Some (Z.of_nat (Nat.of_uint_acc _ ?n)) =>
           replace z with (Z.of_nat n) by (rewrite ?Nat.tail_mul_spec; lia)
       end.
  all: by apply IH.
Qed.

Lemma py_int_decimal (n : nat) :
  py_int (list_ascii_of_string (str_of_nat n)) = Some (Z.of_nat n).
Proof.
  unfold str_of_nat, py_int.
  pose proof (decimal_chars (Nat.to_uint n)) as Hchars.
  pose proof (digits_value_decimal (Nat.to_uint n) 0 false) as Hval.
  pose proof (Unsigned.of_to n) as Hn. unfold Nat.of_uint in Hn.
  rewrite int_strip_no_space by (eapply Forall_impl; [exact Hchars|by intros c (? & _)]).
  destruct (Nat.to_uint n) as [|d|d|d|d|d|d|d|d|d|d] eqn:Hd.
  { exfalso. simpl in Hn. subst n. vm_compute in Hd. discriminate. }
  all: rewrite Hn in Hval; by rewrite <- Hval.
Qed.

(** X15.  With no GPU list from SLURM, a job id, and the rank index written
    in decimal as SLURM writes it, rank [n] is given the single GPU
    [n mod 4]; ranks that differ by a multiple of 4 get the same GPU. *)
Theorem profile_rank_to_gpu (environ : gmap string string) (jobId : string) (n : nat) :
  environ !! "SLURM_STEP_GPUS" = None ->
  environ !! "SLURM_JOB_ID" = Some jobId ->
  environ !! "SLURM_PROCID" = Some (str_of_nat n) ->
  profile_gpuIds environ = Ok (jobId, [Z.of_nat (n mod 4)])
  /\ forall k : nat,
       profile_gpuIds (<["SLURM_PROCID" := str_of_nat (n + 4 * k)]> environ)
       = Ok (jobId, [Z.of_nat (n mod 4)]).
Proof.
  intros Hgpus Hjob Hproc.
  assert (Hrun : forall (env : gmap string string) (m : nat),
    env !! "SLURM_STEP_GPUS" = None -> env !! "SLURM_JOB_ID" = Some jobId ->
    env !! "SLURM_PROCID" = Some (str_of_nat m) ->
    profile_gpuIds env = Ok (jobId, [Z.of_nat (m mod 4)])).
  { intros env m Hg Hj Hp.
    unfold profile_gpuIds, slurm_step_gpus, slurm_procid_fallback, environ_get, int_of.
    rewrite Hj, Hg, Hp, py_int_decimal. by rewrite Nat2Z.inj_mod. }
  split; [by apply Hrun|]. intros k.
  replace (n mod 4)%nat with ((n + 4 * k) mod 4)%nat
    by (rewrite (Nat.mul_comm 4 k); apply Nat.Div0.mod_add).
  apply Hrun; [by rewrite lookup_insert_ne|by rewrite lookup_insert_ne|apply lookup_insert_eq].
Qed.

Lemma profile_rank_to_gpu_witness :
  fallback_environ !! "SLURM_STEP_GPUS" = None
  /\ fallback_environ !! "SLURM_JOB_ID" = Some "4242"
  /\ fallback_environ !! "SLURM_PROCID" = Some (str_of_nat 6)
  /\ profile_gpuIds fallback_environ = Ok ("4242", [Z.of_nat (6 mod 4)]).
Proof.
  assert (H1 : fallback_environ !! "SLURM_STEP_GPUS" = None) by (vm_compute; reflexivity).
  assert (H2 : fallback_environ !! "SLURM_JOB_ID" = Some "4242") by (vm_compute; reflexivity).
  assert (H3 : fallback_environ !! "SLURM_PROCID" = Some (str_of_nat 6))
    by (vm_compute; reflexivity).
  split; [exact H1|]. split; [exact H2|]. split; [exact H3|].
  exact (proj1 (profile_rank_to_gpu fallback_environ "4242" 6 H1 H2 H3)).
Defined.

(** ** Default output files of different jobs *)

Lemma last_char_append (a s : string) (c : ascii) :
  last (list_ascii_of_string s) = Some c ->
  last (list_ascii_of_string (a +:+ s)) = Some c.
Proof. intros Hs. by rewrite list_ascii_of_string_app, last_app, Hs. Qed.

Lemma ne_by_last_char (a b : string) (c d : ascii) :
  last (list_ascii_of_string a) = Some c ->
  last (list_ascii_of_string b) = Some d ->
  c <> d -> a <> b.
Proof. intros Ha Hb Hcd ->. congruence. Qed.

Lemma default_output_file_inj (j1 j2 : string) :
  output_file None j1 = output_file None j2 -> j1 = j2.
Proof.
  unfold output_file. intros Heq. apply append_inj_l in Heq. by apply append_inj_r in Heq.
Qed.

Lemma default_output_file_last (j : string) :
  last (list_ascii_of_string (output_file None j)) = Some ("e"%char : ascii).
Proof. unfold output_file. by do 2 apply last_char_append. Qed.

(** X16.  Jobs keep to their own files.  The default output file
    [AGI_<jobId>.sqlite] is different for different job ids, and neither it
    nor its lock file nor its sidecar is the output file, lock file or
    sidecar of another job; so building a writer for one job and dumping
    with it changes none of the three files of another job and none of its
    locks. *)
Theorem jobs_do_not_interfere (j1 j2 : string) (fo : bool) (tmo : Z) (w : World)
    (data : list Epoch) (self : MetricsDataIO) (k : string) :
  j1 <> j2 ->
  dbFile self = output_file None j1 ->
  (k = output_file None j2 \/ k = output_file None j2 +:+ ".lock"
   \/ k = output_file None j2 +:+ ".metadata") ->
  output_file None j1 <> output_file None j2
  /\ fs (snd (MetricsDataIO_init (output_file None j1) fo false tmo w)) !! k = fs w !! k
  /\ locks (snd (MetricsDataIO_init (output_file None j1) fo false tmo w)) !! k = locks w !! k
  /\ fs (snd (dump data self w)) !! k = fs w !! k
  /\ locks (snd (dump data self w)) = locks w.
Proof.
  intros Hj Hself Hk.
  assert (Hne : output_file None j1 <> output_file None j2)
    by (intros Heq; by apply Hj, default_output_file_inj).
  pose proof (default_output_file_last j1) as He1.
  pose proof (default_output_file_last j2) as He2.
  assert (Hl1 := last_char_append (output_file None j1) ".lock" "k" eq_refl).
  assert (Hl2 := last_char_append (output_file None j2) ".lock" "k" eq_refl).
  assert (Hm1 := last_char_append (output_file None j1) ".metadata" "a" eq_refl).
  assert (Hm2 := last_char_append (output_file None j2) ".metadata" "a" eq_refl).
  assert (Hp : k <> output_file None j1).
  { destruct Hk as [->| [->| ->]]; [done| |].
    - by apply (ne_by_last_char _ _ "k" "e").
    - by apply (ne_by_last_char _ _ "a" "e"). }
  assert (Hl : k <> output_file None j1 +:+ ".lock").
  { destruct Hk as [->| [->| ->]].
    - by apply (ne_by_last_char _ _ "e" "k").
    - intros Heq. apply append_inj_r in Heq. by apply Hne.
    - by apply (ne_by_last_char _ _ "a" "k"). }
  assert (Hm : k <> output_file None j1 +:+ ".metadata").
  { destruct Hk as [->| [->| ->]].
    - by apply (ne_by_last_char _ _ "e" "a").
    - by apply (ne_by_last_char _ _ "k" "a").
    - intros Heq. apply append_inj_r in Heq. by apply Hne. }
  split; [done|].
  destruct (init_leaves_other_paths (output_file None j1) k fo tmo w Hp Hl Hm) as [Hfs Hlk].
  split; [done|]. split; [done|].
  apply dump_leaves_other_paths. by rewrite Hself.
Qed.

Lemma jobs_do_not_interfere_witness :
  "4242" <> "4243"
  /\ dbFile (mkIO (output_file None "4242") false 900 false ∅ 0) = output_file None "4242"
  /\ output_file None "4242" <> output_file None "4243"
  /\ fs (snd (MetricsDataIO_init (output_file None "4242") false false 900 empty_world))
       !! (output_file None "4243" +:+ ".metadata")
     = fs empty_world !! (output_file None "4243" +:+ ".metadata").
Proof.
  assert (Hj : "4242" <> "4243") by discriminate.
  split; [exact Hj|]. split; [reflexivity|].
  destruct (jobs_do_not_interfere "4242" "4243" false 900 empty_world []
              (mkIO (output_file None "4242") false 900 false ∅ 0)
              (output_file None "4243" +:+ ".metadata") Hj eq_refl
              (or_intror (or_intror eq_refl))) as (Hne & Hfs & _).
  split; [exact Hne|exact Hfs].
Defined.

(** ** The commands of a script *)

Lemma split_lines_newline (a b : list ascii) :
  forall cur : list ascii,
    split_lines cur (a ++ "010"%char :: b) = split_lines cur a ++ split_lines [] b.
Proof.
  induction a as [|c a IH]; intros cur; [done|].
  cbn [app split_lines]. destruct (Ascii.eqb c "010"); [|apply IH].
  cbn [app]. by rewrite IH.
Qed.

Lemma split_lines_no_newline (l : list ascii) :
  forall cur : list ascii,
    ("010"%char : ascii) ∉ l -> split_lines cur l = [rev cur ++ l].
Proof.
  induction l as [|c l IH]; intros cur Hnot.
  - cbn. by rewrite app_nil_r.
  - apply not_elem_of_cons in Hnot as [Hc Hnot]. cbn [split_lines].
    destruct (Ascii.eqb_spec c "010") as [->|_]; [done|].
    rewrite IH by done. cbn [rev]. by rewrite <- app_assoc.
Qed.

Lemma not_elem_of_rev (c : ascii) (l : list ascii) : c ∉ l -> c ∉ rev l.
Proof. intros Hnot Hin. by apply Hnot, list_elem_of_In, in_rev, list_elem_of_In. Qed.

(** A line holds no line feed, and no character that neither the line
    being read nor the text holds. *)
Lemma split_lines_no_feed (l : list ascii) :
  forall (cur x : list ascii),
    ("010"%char : ascii) ∉ cur -> x ∈ split_lines cur l -> ("010"%char : ascii) ∉ x.
Proof.
  induction l as [|c l IH]; intros cur x Hcur Hx.
  - apply list_elem_of_singleton in Hx as ->. by apply not_elem_of_rev.
  - cbn [split_lines] in Hx. destruct (Ascii.eqb_spec c "010") as [->|Hc].
    + apply elem_of_cons in Hx as [->|Hx]; [by apply not_elem_of_rev|].
      apply (IH [] x); [apply not_elem_of_nil|done].
    + apply (IH (c :: cur) x); [|done]. apply not_elem_of_cons. split; [done|done].
Qed.

Lemma split_lines_absent (c : ascii) (l : list ascii) :
  forall (cur x : list ascii),
    c ∉ cur -> c ∉ l -> x ∈ split_lines cur l -> c ∉ x.
Proof.
  induction l as [|c0 l IH]; intros cur x Hcur Hl Hx.
  - apply list_elem_of_singleton in Hx as ->. by apply not_elem_of_rev.
  - apply not_elem_of_cons in Hl as [Hc0 Hl]. cbn [split_lines] in Hx.
    destruct (Ascii.eqb c0 "010").
    + apply elem_of_cons in Hx as [->|Hx]; [by apply not_elem_of_rev|].
      apply (IH [] x); [apply not_elem_of_nil|done|done].
    + apply (IH (c0 :: cur) x); [|done|done]. apply not_elem_of_cons. split; [done|done].
Qed.

Lemma universal_newlines_app (a b : list ascii) :
  forall after_cr : bool,
    universal_newlines after_cr (a ++ b)
    = universal_newlines after_cr a ++ universal_newlines (ends_in_cr after_cr a) b.
Proof.
  induction a as [|c a IH]; intros after_cr; [done|].
  assert (Hend : forall s, ends_in_cr s (c :: a) = ends_in_cr (Ascii.eqb c "013") a).
  { intros s. unfold ends_in_cr. rewrite last_cons. by destruct (last a). }
  rewrite Hend. cbn [app universal_newlines].
  destruct (Ascii.eqb_spec c "013") as [->|Hcr]; [by rewrite IH|].
  destruct (Ascii.eqb c "010"); [destruct after_cr|]; by rewrite IH.
Qed.

Lemma universal_newlines_no_cr (l : list ascii) :
  forall after_cr : bool, ("013"%char : ascii) ∉ universal_newlines after_cr l.
Proof.
  induction l as [|c l IH]; intros after_cr; [apply not_elem_of_nil|].
  cbn [universal_newlines]. destruct (Ascii.eqb_spec c "013") as [->|Hcr].
  - apply not_elem_of_cons. split; [done|apply IH].
  - destruct (Ascii.eqb c "010"); [destruct after_cr|].
    + apply IH.
    + apply not_elem_of_cons. split; [done|apply IH].
    + apply not_elem_of_cons. split; [congruence|apply IH].
Qed.

Lemma universal_newlines_plain (l : list ascii) :
  ("010"%char : ascii) ∉ l -> ("013"%char : ascii) ∉ l ->
  forall after_cr : bool, universal_newlines after_cr l = l.
Proof.
  induction l as [|c l IH]; intros Hlf Hcr after_cr; [done|].
  apply not_elem_of_cons in Hlf as [Hlf1 Hlf]. apply not_elem_of_cons in Hcr as [Hcr1 Hcr].
  cbn [universal_newlines].
  destruct (Ascii.eqb_spec c "013") as [->|_]; [done|].
  destruct (Ascii.eqb_spec c "010") as [->|_]; [done|]. by rewrite IH.
Qed.

(** A line feed that follows a carriage return of the text before makes
    no difference to the commands: it would only start an empty line. *)
Lemma commands_after_cr (b : list ascii) (after_cr : bool) :
  List.filter runnable (split_lines [] (universal_newlines after_cr b)) = script_commands b.
Proof.
  unfold script_commands. destruct after_cr; [|done].
  destruct b as [|c b]; [done|]. cbn [universal_newlines].
  destruct (Ascii.eqb_spec c "013") as [->|Hcr]; [done|].
  destruct (Ascii.eqb_spec c "010") as [->|Hlf]; [|done].
  cbn [split_lines Ascii.eqb Bool.eqb]. cbn. done.
Qed.

Lemma commands_after_break (a b : list ascii) (c : ascii) :
  c = "010"%char \/ c = "013"%char ->
  script_commands (a ++ c :: b) = script_commands a ++ script_commands b.
Proof.
  intros Hc. unfold script_commands at 1. rewrite universal_newlines_app.
  assert (Hshape : exists s,
    List.filter runnable (split_lines [] (universal_newlines false a
                                            ++ universal_newlines (ends_in_cr false a) (c :: b)))
    = script_commands a
      ++ List.filter runnable (split_lines [] (universal_newlines s b))).
  { destruct Hc as [->| ->].
    - cbn [universal_newlines Ascii.eqb Bool.eqb]. cbn match.
      destruct (ends_in_cr false a) eqn:Hend.
      + exists false.
        assert (Ha : exists a0, a = a0 ++ ["013"%char]).
        { unfold ends_in_cr in Hend. destruct (last a) as [x|] eqn:Hlast; [|done].
          apply last_Some in Hlast as [a0 ->]. apply Ascii.eqb_eq in Hend as ->. by exists a0. }
        destruct Ha as [a0 ->].
        unfold script_commands. rewrite universal_newlines_app.
        cbn [universal_newlines Ascii.eqb Bool.eqb]. cbn match.
        rewrite <- app_assoc. cbn [app].
        rewrite !split_lines_newline, !List.filter_app. cbn [split_lines rev List.filter runnable].
        by rewrite app_nil_r.
      + exists false. unfold script_commands.
        by rewrite split_lines_newline, List.filter_app.
    - cbn [universal_newlines Ascii.eqb Bool.eqb]. cbn match.
      exists true. unfold script_commands.
      by rewrite split_lines_newline, List.filter_app. }
  destruct Hshape as [s ->]. by rewrite commands_after_cr.
Qed.

(** X17.  The commands a script runs.  The file is read with universal
    newlines, so a line ends at a line feed, at a carriage return, or at a
    carriage return followed by a line feed; a line is run exactly when it
    is not empty and does not begin with [#].  Two scripts put one after
    the other with any of the three line breaks between run the commands
    of the first and then those of the second; no command holds a line
    break; and a line is taken as it stands, so a comment that is indented
    is run as a command. *)
Theorem script_commands_by_line (a b : list ascii) :
  script_commands (a ++ "010"%char :: b) = script_commands a ++ script_commands b
  /\ script_commands (a ++ "013"%char :: b) = script_commands a ++ script_commands b
  /\ script_commands (a ++ "013"%char :: "010"%char :: b)
     = script_commands a ++ script_commands b
  /\ Forall (fun cmd => cmd <> [] /\ head cmd <> Some ("#"%char : ascii)
                        /\ (("010"%char : ascii) ∉ cmd) /\ (("013"%char : ascii) ∉ cmd))
       (script_commands a)
  /\ (("010"%char : ascii) ∉ a -> ("013"%char : ascii) ∉ a ->
      script_commands a = if runnable a then [a] else [])
  /\ script_commands (list_ascii_of_string "  # note") = [list_ascii_of_string "  # note"].
Proof.
  split; [|split; [|split; [|split; [|split]]]].
  - apply commands_after_break. by left.
  - apply commands_after_break. by right.
  - rewrite (commands_after_break a ("010"%char :: b) "013") by by right.
    reflexivity.
  - unfold script_commands. apply Forall_forall. intros cmd Hin.
    apply list_elem_of_In, List.filter_In in Hin as [Hin Hrun].
    apply list_elem_of_In in Hin.
    split; [by destruct cmd|]. split; [|split].
    + destruct cmd as [|c cmd]; [done|].
      cbn in *. destruct (Ascii.eqb_spec c "#") as [->|Hc]; [done|]. congruence.
    + eapply split_lines_no_feed; [|exact Hin]. apply not_elem_of_nil.
    + eapply split_lines_absent; [| |exact Hin];
        [apply not_elem_of_nil|apply universal_newlines_no_cr].
  - intros Hlf Hcr. unfold script_commands.
    rewrite universal_newlines_plain by done. by rewrite split_lines_no_newline by done.
  - reflexivity.
Qed.

Lemma script_commands_by_line_witness :
  (("010"%char : ascii) ∉ list_ascii_of_string "# setup")
  /\ (("013"%char : ascii) ∉ list_ascii_of_string "# setup")
  /\ script_commands (list_ascii_of_string "# setup") = [].
Proof.
  assert (Hlf : ("010"%char : ascii) ∉ list_ascii_of_string "# setup").
  { cbn. repeat (apply not_elem_of_cons; split; [discriminate|]). apply not_elem_of_nil. }
  assert (Hcr : ("013"%char : ascii) ∉ list_ascii_of_string "# setup").
  { cbn. repeat (apply not_elem_of_cons; split; [discriminate|]). apply not_elem_of_nil. }
  split; [exact Hlf|]. split; [exact Hcr|].
  exact (proj1 (proj2 (proj2 (proj2 (proj2
           (script_commands_by_line (list_ascii_of_string "# setup") [])))))
           Hlf Hcr).
Defined.

(** ** A path that was never claimed *)

Lemma dump_writes_elem (data : list Epoch) (i : nat) (e : Epoch) (name : string)
    (df : DataFrame) :
  data !! i = Some e ->
  (name, df) ∈ e ->
  (if decide (length data = 1%nat) then name else name +:+ "_epoch:" +:+ str_of_nat i)
  ∈ map fst (dump_writes data).
Proof.
  intros Hi Hin. destruct data as [|e0 [|e1 data]]; [done| |].
  - destruct i as [|i]; [|done]. injection Hi as ->. cbn [length]. rewrite decide_True by done.
    cbn [dump_writes]. rewrite epoch_writes_names. apply list_elem_of_fmap.
    exists (name, df). split; [|done]. cbn [fst]. by rewrite append_empty_r.
  - rewrite decide_False by (cbn [length]; lia).
    apply list_elem_of_fmap. exists (name +:+ "_epoch:" +:+ str_of_nat i, convert_gpu_util df).
    split; [done|]. by apply (suffixed_writes_elem (e0 :: e1 :: data) 0 i e).
Qed.

(** X18.  A writer that finds no output file does not claim the path, so
    its data is not protected: after it has dumped (epochs that can be
    stored), the file holds a table for every table of the dump; the
    constructor of a second writer with [forceOverwrite] then finds the
    file on an unclaimed path, removes it with every table the first
    writer wrote, and only then records [dbExists]. *)
Theorem unclaimed_dump_is_overwritten (p : string) (fo : bool) (tmo tmo' : Z) (w : World)
    (md0 : Metadata) (data : list Epoch) :
  releasable (p +:+ ".lock") w ->
  loaded_metadata p w = Some md0 ->
  get_truthy md0 "dbError" = false ->
  get_truthy md0 "dbExists" = false ->
  fs w !! p = None ->
  data <> [] ->
  dumpable ∅ data ->
  exists first w1 w2 second w3,
    MetricsDataIO_init p fo false tmo w = (Ok first, w1)
    /\ dump data first w1 = (Ok tt, first, w2)
    /\ is_Some (fs w2 !! p)
    /\ (forall i e name df, data !! i = Some e -> (name, df) ∈ e ->
          is_Some (db_at p w2 !! (if decide (length data = 1%nat) then name
                                  else name +:+ "_epoch:" +:+ str_of_nat i)))
    /\ MetricsDataIO_init p true false tmo' w2 = (Ok second, w3)
    /\ fs w3 !! p = None
    /\ get_truthy (metadata second) "dbExists" = true.
Proof.
  intros Hrel Hload Herr Hex Hp Hne Hok. eexists _, _, _, _, _.
  split; [by apply init_absent|].
  assert (Hw : writable p (metadata_loaded p md0 w)).
  { unfold writable. by rewrite fs_metadata_loaded_db, Hp. }
  assert (Hdb : db_at p (metadata_loaded p md0 w) = ∅).
  { unfold db_at. by rewrite fs_metadata_loaded_db, Hp. }
  split; [apply dump_run; [done|done| |done]; cbn [dbFile]; by rewrite Hdb|].
  cbn [dbFile fs]. rewrite Hdb. split; [rewrite lookup_insert_eq; by eexists|].
  split.
  { intros i e name df Hi Hin. rewrite db_at_written. apply apply_writes_present. left.
    by apply (dump_writes_elem data i e name df). }
  split.
  - apply (init_overwrite p tmo' _ md0); try done.
    + apply releasable_metadata_loaded.
    + unfold loaded_metadata. cbn [fs].
      rewrite lookup_insert_ne by (intros Heq; by apply (metadata_ne_db p)).
      by rewrite fs_metadata_loaded_sidecar.
    + cbn [fs]. rewrite lookup_insert_eq. by eexists.
  - cbn [set_fs fs metadata]. split.
    + rewrite lookup_insert_ne by apply metadata_ne_db. apply lookup_delete_eq.
    + unfold get_truthy. by rewrite lookup_insert_eq.
Qed.

Lemma unclaimed_dump_is_overwritten_witness :
  releasable ("out.sqlite" +:+ ".lock") empty_world
  /\ loaded_metadata "out.sqlite" empty_world = Some ∅
  /\ fs empty_world !! "out.sqlite" = None
  /\ [sample_epoch] <> []
  /\ dumpable ∅ [sample_epoch]
  /\ exists first w1 w2 second w3,
       MetricsDataIO_init "out.sqlite" true false 900 empty_world = (Ok first, w1)
       /\ dump [sample_epoch] first w1 = (Ok tt, first, w2)
       /\ is_Some (db_at "out.sqlite" w2 !! "gpu")
       /\ MetricsDataIO_init "out.sqlite" true false 900 w2 = (Ok second, w3)
       /\ fs w3 !! "out.sqlite" = None.
Proof.
  assert (Hrel : releasable ("out.sqlite" +:+ ".lock") empty_world)
    by (unfold releasable; vm_compute; discriminate).
  assert (Hne : [sample_epoch] <> []) by discriminate.
  assert (Hok : dumpable ∅ [sample_epoch])
    by (apply (bool_decide_unpack _); vm_compute; exact I).
  split; [exact Hrel|]. split; [reflexivity|]. split; [reflexivity|]. split; [exact Hne|].
  split; [exact Hok|].
  destruct (unclaimed_dump_is_overwritten "out.sqlite" true 900 900 empty_world ∅
              [sample_epoch] Hrel eq_refl eq_refl eq_refl eq_refl Hne Hok)
    as (first & w1 & w2 & second & w3 & H1 & H2 & _ & Hst & H3 & H4 & _).
  exists first, w1, w2, second, w3. split; [exact H1|]. split; [exact H2|].
  split; [|split; [exact H3|exact H4]].
  apply (Hst 0%nat sample_epoch "gpu" sample_frame);
    [reflexivity|apply list_elem_of_singleton; reflexivity].
Defined.

Lemma init_touches_only_its_files_witness :
  "other.sqlite" <> "out.sqlite"
  /\ fs (snd (MetricsDataIO_init "out.sqlite" false false 900 preexisting_world)) !! "other.sqlite"
     = fs preexisting_world !! "other.sqlite"
  /\ fs (snd (MetricsDataIO_init "out.sqlite" false false 900 preexisting_world)) !! "out.sqlite"
     = fs preexisting_world !! "out.sqlite".
Proof.
  destruct (init_touches_only_its_files "out.sqlite" false 900 preexisting_world)
    as (Hother & Hout & _).
  split; [discriminate|]. split; [apply Hother; discriminate|apply Hout; reflexivity].
Defined.

(** ** Writes the database refuses *)





